(** * BE-saleman: order placement, payment bookkeeping and the
      authentication / authorization flow

    A shallow embedding of the Express route handlers of the repository
    (src/routes/order.js, src/routes/auth.js, the two copies of the
    [verifyAccessToken] middleware and src/middleware/roleMiddleware.js)
    together with the properties the specification states about them.

    Conventions of the embedding.
    - A route handler is a function from the document store to a response
      and a new store.  Every [await doc.save()] is its own commit, so the
      store reached so far survives an early [return res.status(..)] and a
      thrown exception alike.
    - JavaScript [Number] arithmetic is an interface ([JsNumber]) with two
      instances: [Exact] (integers, on which binary64 arithmetic is exact
      below 2^53) and [Binary64] (IEEE-754 doubles, Rocq's primitive
      floats).
    - Library functions that are not part of the repository (jsonwebtoken,
      bcryptjs, crypto's SHA-256, mongoose's ObjectId test, the mailer)
      and the two secrets of the environment are the fields of the class
      [Externals]. *)

From Stdlib Require Import ZArith QArith Qround.
From Stdlib Require Import Floats.PrimFloat Floats.FloatOps Floats.SpecFloat.
From Stdlib Require Import Floats.FloatAxioms Zpower.
From stdpp Require Import gmap strings list fin_maps.

Set Default Proof Using "Type".
Open Scope Z_scope.

(* ===================================================================== *)
(** ** JavaScript values as the handlers see them *)
(* ===================================================================== *)

(** [!s] for a value that is a string or [undefined]: the empty string and
    [undefined] are falsy. *)
Definition truthy (v : option string) : bool :=
  match v with
  | Some s => negb (String.eqb s "")
  | None => false
  end.

(** A numeric field of the body of POST /order: missing ([undefined]),
    [null], or a number; bodies that put a string, a boolean or an array
    there are not modelled for that route. The payment route, where the
    conversion of the field decides what is accepted, takes a [jsvalue]. *)
Inductive jsfield (N : Type) : Type :=
| Absent
| Null
| Val (n : N).
Arguments Absent {N}.
Arguments Null {N}.
Arguments Val {N} n.

(** The operations of JavaScript's [Number] that the handlers use. *)
Class JsNumber : Type := {
  num : Type;
  jzero : num;
  jone : num;
  jadd : num → num → num;
  jsub : num → num → num;
  jmul : num → num → num;
  jlt : num → num → bool;      (* [a < b] *)
  jisNaN : num → bool;
}.

(** The integers, for the examples and for the facts that involve no
    rounding: binary64 computes exactly on integers while operands and
    results stay below 2^53, and not beyond or on fractions. What is
    stated of the handlers' subtractions, products and sums is stated for
    every [JsNumber], and so for [Binary64]. *)
Definition Exact : JsNumber := {|
  num := Z;
  jzero := 0;
  jone := 1;
  jadd := Z.add;
  jsub := Z.sub;
  jmul := Z.mul;
  jlt := Z.ltb;
  jisNaN := fun _ => false;
|}.

(** IEEE-754 binary64, what a JavaScript engine computes with. *)
Definition Binary64 : JsNumber := {|
  num := float;
  jzero := PrimFloat.zero;
  jone := PrimFloat.one;
  jadd := PrimFloat.add;
  jsub := PrimFloat.sub;
  jmul := PrimFloat.mul;
  jlt := PrimFloat.ltb;
  jisNaN := PrimFloat.is_nan;
|}.

(** The rational number a finite binary64 value denotes. *)
Definition F64_toQ (f : float) : option Q :=
  match Prim2SF f with
  | S754_zero _ => Some (0 # 1)%Q
  | S754_finite s m e =>
      let mz := if s then Z.neg m else Z.pos m in
      Some (if 0 <=? e then (mz * 2 ^ e # 1)%Q
            else (mz # Z.to_pos (2 ^ (- e)))%Q)
  | _ => None
  end.

(** [Number(v)] for a numeric field; [None] stands for [NaN]. *)
Definition Number `{JsNumber} (v : jsfield num) : option num :=
  match v with
  | Absent => None
  | Null => Some jzero
  | Val n => if jisNaN n then None else Some n
  end.

(** Any value a JSON body can hold in a field: nothing ([undefined]),
    [null], a boolean, a number, a string, or an array or object. A parsed
    array or object has no [valueOf] of its own, so [Number(...)] sees it
    through the string [String(...)] gives: the empty string for [[]], the
    numeral of [n] for [[n]], [[object Object]] for an object; the
    constructor carries that string. *)
Inductive jsvalue (N : Type) : Type :=
| JUndefined
| JNull
| JBool (b : bool)
| JNum (n : N)
| JStr (s : string)
| JObj (asString : string).
Arguments JUndefined {N}.
Arguments JNull {N}.
Arguments JBool {N} b.
Arguments JNum {N} n.
Arguments JStr {N} s.
Arguments JObj {N} asString.

(** The number the engine reads in a string (StringToNumber of the
    language), [None] for [NaN]. *)
Class JsStrings `{JsNumber} : Type := {
  StringToNumber : string → option num;
}.

(** [Number(v)] for any value; [None] stands for [NaN]. *)
Definition ToNumber `{JsStrings} (v : jsvalue num) : option num :=
  match v with
  | JUndefined => None
  | JNull => Some jzero
  | JBool b => Some (if b then jone else jzero)
  | JNum n => if jisNaN n then None else Some n
  | JStr s => StringToNumber s
  | JObj s => StringToNumber s
  end.

(* ===================================================================== *)
(** ** Responses and the handler monad *)
(* ===================================================================== *)

Record Response (B : Type) : Type := mkResponse { status : Z; body : B }.
Arguments mkResponse {B} status body.
Arguments status {B} r.
Arguments body {B} r.

(** One step of a handler body: it goes on with a value, it has sent a
    response ([return res.status(..).json(..)]), or it has thrown. The
    store is carried in all three cases. *)
Inductive step (R S A : Type) : Type :=
| Go (a : A) (s : S)
| Sent (r : R) (s : S)
| Thrown (e : string) (s : S).
Arguments Go {R S A} a s.
Arguments Sent {R S A} r s.
Arguments Thrown {R S A} e s.

Definition handler (R S A : Type) : Type := S → step R S A.

Definition hret {R S A} (a : A) : handler R S A := fun s => Go a s.

Definition hbind {R S A B} (m : handler R S A) (k : A → handler R S B)
  : handler R S B :=
  fun s =>
    match m s with
    | Go a s' => k a s'
    | Sent r s' => Sent r s'
    | Thrown e s' => Thrown e s'
    end.

Definition send {R S A} (r : R) : handler R S A := fun s => Sent r s.
Definition throw {R S A} (e : string) : handler R S A := fun s => Thrown e s.
Definition get {R S} : handler R S S := fun s => Go s s.
Definition modify {R S} (f : S → S) : handler R S unit := fun s => Go tt (f s).

#[global] Instance handler_bind {R S} : MBind (handler R S) :=
  fun A B k m => hbind m k.
#[global] Instance handler_ret {R S} : MRet (handler R S) :=
  fun A a => hret a.

(** [if (c) return res...;] *)
Definition guard {R S} (c : bool) (r : R) : handler R S unit :=
  if c then send r else hret tt.

(** [try { body } catch (error) { res.status(500).json(..) }] around a
    handler whose last statement sends the response it returns. *)
Definition try_catch {R S} (h : handler R S R) (on_error : string → R)
  : S → R * S :=
  fun s =>
    match h s with
    | Go r s' => (r, s')
    | Sent r s' => (r, s')
    | Thrown e s' => (on_error e, s')
    end.

(** [const x = ...; if (!x) return res...;] *)
Definition require {R S A} (v : option A) (r : R) : handler R S A :=
  match v with
  | Some a => mret a
  | None => send r
  end.

(** A string that is present and not empty, i.e. not falsy. *)
Definition nonempty (v : option string) : option string :=
  if truthy v then v else None.

(* ===================================================================== *)
(** ** What the handlers take from outside the repository *)
(* ===================================================================== *)

(** The payload of a token: [{ id, role }] for an access token, [{ id }]
    for a refresh token. It is also the shape of [req.user]. *)
Record Payload : Type := mkPayload {
  tok_id : string;
  tok_role : option string;
}.

Class Externals : Type := {
  (** [mongoose.Types.ObjectId.isValid]; [findById] throws a CastError on
      an id that fails it. *)
  ObjectId_isValid : string → bool;
  (** [jwt.sign(payload, secret, { expiresIn })] at a given time. *)
  jwt_sign : Payload → string → string → Z → string;
  (** [jwt.verify(token, secret)] at a given time: [None] when it throws
      (bad signature, malformed or expired token). *)
  jwt_verify : string → string → Z → option Payload;
  ACCESS_TOKEN_SECRET : string;
  REFRESH_TOKEN_SECRET : string;
  (** bcryptjs: [hash(password, cost)] with the salt it draws, [compare]. *)
  bcrypt_hash : string → nat → string → string;
  bcrypt_compare : string → string → bool;
  (** [crypto.createHash("sha256").update(s).digest("hex")] *)
  sha256_hex : string → string;
  (** utils/sendEmail.js, reduced to the error it throws, if any, and
      utils/emailTemplates.js, the HTML text around the code. *)
  sendEmail : string → string → string → option string;
  passwordResetTemplate : string → string;
}.

(* ===================================================================== *)
(** ** Data model (src/models) *)
(* ===================================================================== *)

(** models/user.js (the copy with [isActive] and the reset code). Ids are
    the hexadecimal strings of the ObjectIds; dates are milliseconds since
    the epoch. *)
Record User : Type := mkUser {
  user_id : string;
  name : string;
  phone : string;
  address : string;
  idCardNumber : option string;
  email : option string;
  password : string;
  role : string;
  isActive : bool;
  resetCode : option string;
  resetCodeExpiry : option Z;
  refreshToken : option string;
}.

(** models/Shop.js *)
Record Shop : Type := mkShop {
  shopName : string;
  ownerName : string;
  cnic : string;
  phoneNumber : string;
  shop_address : string;
  city : string;
  shop_isActive : bool;
}.

Section OrderModel.
Context {JN : JsNumber}.

(** models/Item.js *)
Record Item : Type := mkItem {
  item_name : string;
  categoryType : string;
  price : num;
  quantity : num;
}.

(** models/Order.js *)
Record OrderLine : Type := mkOrderLine {
  product : string;
  productName : string;
  line_quantity : num;
  unitPrice : num;
  lineTotal : num;
}.

Record Order : Type := mkOrder {
  shop : string;
  salesman : string;
  orderLines : list OrderLine;
  totalAmount : num;
  paymentType : string;
  paymentTypeId : Z;
  paymentAmount : num;
  amountPaid : num;
}.

(** The document store: one collection per model. *)
Record Db : Type := mkDb {
  users : list User;
  shops : gmap string Shop;
  items : gmap string Item;
  orders : gmap string Order;
}.

Definition set_items (f : gmap string Item → gmap string Item) (db : Db) : Db :=
  {| users := users db; shops := shops db; items := f (items db);
     orders := orders db |}.

Definition set_orders (f : gmap string Order → gmap string Order) (db : Db) : Db :=
  {| users := users db; shops := shops db; items := items db;
     orders := f (orders db) |}.

Definition set_quantity (q : num) (it : Item) : Item :=
  {| item_name := item_name it; categoryType := categoryType it;
     price := price it; quantity := q |}.

Definition set_amountPaid (a : num) (o : Order) : Order :=
  {| shop := shop o; salesman := salesman o; orderLines := orderLines o;
     totalAmount := totalAmount o; paymentType := paymentType o;
     paymentTypeId := paymentTypeId o; paymentAmount := paymentAmount o;
     amountPaid := a |}.

(** What [.populate("shop", "shopName ownerName address city")] and
    [.populate("salesman", "name email")] join to an order. *)
Record Populated : Type := mkPopulated {
  p_id : string;
  p_order : Order;
  p_shop : option (string * string * string * string);
  p_salesman : option (string * option string);
}.

(** Request bodies of POST /order. *)
Record LineReq : Type := mkLineReq {
  productId : option string;
  req_quantity : jsfield num;
}.

Record OrderReq : Type := mkOrderReq {
  shopId : option string;
  req_items : option (list LineReq);   (* [None]: missing or not an array *)
  req_paymentType : option string;
  req_paymentAmount : jsfield num;
}.

Inductive OrderBody : Type :=
| Message (m : string)
| WithOrder (m : string) (o : option Populated).

End OrderModel.

(* ===================================================================== *)
(** ** Order Service (src/routes/order.js) *)
(* ===================================================================== *)

Section OrderService.
Context {JN : JsNumber} {E : Externals} {JS : JsStrings}.

Local Abbreviation Resp := (Response OrderBody).
Local Abbreviation H := (handler Resp Db).

(** The responses of the order routes, under the names of the
    specification's error taxonomy. *)
Definition ValidationError (m : string) : Resp := mkResponse 400 (Message m).
Definition ShopNotFound : Resp := mkResponse 400 (Message "Shop not found").
Definition ShopInactive : Resp := mkResponse 400 (Message "Shop is not active").
Definition ProductNotFound (pid : string) : Resp :=
  mkResponse 400 (Message ("Product not found: " +:+ pid)).
Definition InsufficientStock (pname : string) : Resp :=
  mkResponse 400 (Message ("Insufficient stock for product " +:+ pname)).
Definition OrderNotFound : Resp :=
  mkResponse 404 (Message "Order not found. Use an Order _id from POST /api/order or GET /api/admin/orders.").
Definition InternalError (e : string) : Resp := mkResponse 500 (Message e).

Definition msg_order_required : string :=
  "shopId, paymentType, paymentAmount, and at least one item (productId, quantity) are required".
Definition msg_payment_type : string :=
  "paymentType must be one of: half, full, cashOnDelivery".
Definition msg_payment_amount : string := "paymentAmount must be a number >= 0".
Definition msg_line : string := "Each item must have productId and quantity (min 1)".
Definition msg_amount_paid : string := "amountPaid must be a number >= 0".
Definition msg_amount_exceeds : string := "amountPaid cannot exceed order totalAmount".
Definition msg_order_id : string :=
  "Invalid order ID. Use an Order _id from POST /api/order or GET /api/admin/orders.".
Definition msg_cast : string := "Cast to ObjectId failed".

Definition validPaymentTypes : list string := ["half"; "full"; "cashOnDelivery"].

Definition paymentTypeToId (t : string) : option Z :=
  if String.eqb t "half" then Some 1
  else if String.eqb t "full" then Some 2
  else if String.eqb t "cashOnDelivery" then Some 3
  else None.

(** [Model.findById(id)] *)
Definition findById {D} (coll : Db → gmap string D) (id : string) : H (option D) :=
  fun db =>
    if ObjectId_isValid id then Go (coll db !! id) db else Thrown msg_cast db.

(** [Order.findById(id).populate(..).populate(..)] *)
Definition populate (id : string) (o : Order) (db : Db) : Populated :=
  {| p_id := id;
     p_order := o;
     p_shop := (fun s => (shopName s, ownerName s, shop_address s, city s))
                 <$> shops db !! shop o;
     p_salesman := (fun u => (name u, email u))
                 <$> List.find (fun u => String.eqb (user_id u) (salesman o)) (users db) |}.

Definition findPopulated (id : string) : H (option Populated) :=
  o ← findById orders id;
  db ← get;
  mret ((fun o => populate id o db) <$> o).

(** One turn of [for (const line of items)], lines 196-229: the
    accumulators are [orderLines] and [totalAmount]. *)
Definition processLine (line : LineReq) (acc : list OrderLine * num)
  : H (list OrderLine * num) :=
  pid ← require (nonempty (productId line)) (ValidationError msg_line);
  qty ← require (match req_quantity line with
                 | Val q => if jlt q jone then None else Some q
                 | _ => None
                 end) (ValidationError msg_line);
  found ← findById items pid;
  prod ← require found (ProductNotFound pid);
  guard (jlt (quantity prod) qty) (InsufficientStock (item_name prod));;
  let unit_price := price prod in
  let line_total := jmul qty unit_price in
  let lines := acc.1 ++ [ {| product := pid; productName := item_name prod;
                            line_quantity := qty; unitPrice := unit_price;
                            lineTotal := line_total |} ] in
  let total := jadd acc.2 line_total in
  modify (set_items (insert pid (set_quantity (jsub (quantity prod) qty) prod)));;
  mret (lines, total).

Fixpoint processLines (lines : list LineReq) (acc : list OrderLine * num)
  : H (list OrderLine * num) :=
  match lines with
  | [] => mret acc
  | line :: rest => acc' ← processLine line acc; processLines rest acc'
  end.

(** The document handed to [Order.create]. *)
Record OrderDraft : Type := mkOrderDraft {
  c_shop : string;
  c_salesman : string;
  c_orderLines : list OrderLine;
  c_totalAmount : num;
  c_paymentType : string;
  c_paymentTypeId : option Z;
  c_paymentAmount : num;
}.

(** The validation [Order.create] runs before it inserts: [salesman]
    must cast to an ObjectId and the required [paymentTypeId] must be
    there; [amountPaid] takes its default 0. The other constraints of
    models/Order.js hold of every draft [placeOrder] builds. *)
Definition create_order (new_id : string) (d : OrderDraft) : H Order :=
  match c_paymentTypeId d with
  | Some type_id =>
      if ObjectId_isValid (c_salesman d)
      then
        let order := {| shop := c_shop d; salesman := c_salesman d;
                        orderLines := c_orderLines d;
                        totalAmount := c_totalAmount d;
                        paymentType := c_paymentType d;
                        paymentTypeId := type_id;
                        paymentAmount := c_paymentAmount d;
                        amountPaid := jzero |} in
        modify (set_orders (insert new_id order));;
        mret order
      else throw "Order validation failed: salesman"
  | None => throw "Order validation failed: paymentTypeId"
  end.

(** POST /order, lines 158-253. [new_id] is the ObjectId the driver gives
    the created order, [acting] is [req.user.id]. *)
Definition placeOrder_body (new_id acting : string) (b : OrderReq) : H Resp :=
  sid ← require (nonempty (shopId b)) (ValidationError msg_order_required);
  lines ← require (match req_items b with
                   | Some (l :: ls) => Some (l :: ls)
                   | _ => None
                   end) (ValidationError msg_order_required);
  ptype ← require (match nonempty (req_paymentType b) with
                   | Some t => if bool_decide (t ∈ validPaymentTypes)
                               then Some t else None
                   | None => None
                   end) (ValidationError msg_payment_type);
  amount ← require (match Number (req_paymentAmount b) with
                    | Some a => if jlt a jzero then None else Some a
                    | None => None
                    end) (ValidationError msg_payment_amount);
  let paymentTypeId_opt := paymentTypeToId ptype in
  found ← findById shops sid;
  shp ← require found ShopNotFound;
  guard (negb (shop_isActive shp)) ShopInactive;;
  acc ← processLines lines ([], jzero);
  order ← create_order new_id
             {| c_shop := sid; c_salesman := acting;
                c_orderLines := acc.1; c_totalAmount := acc.2;
                c_paymentType := ptype;
                c_paymentTypeId := paymentTypeId_opt;
                c_paymentAmount := amount |};
  populated ← findPopulated new_id;
  mret (mkResponse 201 (WithOrder "Order created successfully" populated)).

Definition placeOrder (new_id acting : string) (b : OrderReq)
  : Db → Resp * Db :=
  try_catch (placeOrder_body new_id acting b) InternalError.

(** PATCH /admin/order/:orderId/payment, lines 395-440. [amount] is
    [amountPaid != null ? Number(amountPaid) : NaN], and the test that
    follows is [isNaN(amount) || amount < 0]. *)
Definition recordPayment_body (orderId : string) (amountPaid_in : jsvalue num)
  : H Resp :=
  guard (negb (ObjectId_isValid orderId)) (ValidationError msg_order_id);;
  amount ← require (match match amountPaid_in with
                          | JUndefined => None
                          | JNull => None
                          | v => ToNumber v
                          end with
                    | Some a => if jlt a jzero then None else Some a
                    | None => None
                    end) (ValidationError msg_amount_paid);
  found ← findById orders orderId;
  order ← require found OrderNotFound;
  guard (jlt (totalAmount order) amount) (ValidationError msg_amount_exceeds);;
  modify (set_orders (insert orderId (set_amountPaid amount order)));;
  updated ← findPopulated orderId;
  mret (mkResponse 200 (WithOrder "Payment amount updated successfully" updated)).

Definition recordPayment (orderId : string) (amountPaid_in : jsvalue num)
  : Db → Resp * Db :=
  try_catch (recordPayment_body orderId amountPaid_in) InternalError.

End OrderService.

(* ===================================================================== *)
(** ** Authorization Gate (verifyAccessToken, checkRole) *)
(* ===================================================================== *)

(** The part of an Express request the middleware reads and writes. *)
Record Request : Type := mkRequest {
  authorization : option string;    (* [req.headers.authorization] *)
  user : option Payload;            (* [req.user] *)
}.

Inductive GateBody : Type :=
| GateMessage (m : string).

Inductive mw_result : Type :=
| Next (req : Request)                    (* [next()] *)
| Respond (r : Response GateBody).

Definition Unauthorized : Response GateBody :=
  mkResponse 401 (GateMessage "Unauthorized").
Definition InvalidToken : Response GateBody :=
  mkResponse 403 (GateMessage "Invalid or expired token").
Definition UserNotFound : Response GateBody :=
  mkResponse 401 (GateMessage "User not found").
Definition AccountBlocked : Response GateBody :=
  mkResponse 403 (GateMessage "Your account is blocked. Please contact the administrator.").
Definition AccessDenied : Response GateBody :=
  mkResponse 403 (GateMessage "Access denied").

(** [s.split(" ")] *)
Fixpoint split_space (s : string) (cur : string) : list string :=
  match s with
  | EmptyString => [cur]
  | String c rest =>
      if Ascii.eqb c (Ascii.ascii_of_nat 32) then cur :: split_space rest ""
      else split_space rest (cur +:+ String c "")
  end.

(** [authHeader.split(" ")[1]], [None] for [undefined]. *)
Definition bearer_token (authHeader : string) : option string :=
  split_space authHeader "" !! 1%nat.

(** [User.findById(id)] on the users collection; [None] when the id does
    not cast to an ObjectId and mongoose throws. *)
Definition findUserById `{Externals} (id : string) (us : list User)
  : option (option User) :=
  if ObjectId_isValid id
  then Some (List.find (fun u => String.eqb (user_id u) id) us)
  else None.

Section Gate.
Context {E : Externals}.

(** src/middleware/authMiddleware.js, lines 3-21. *)
Definition verifyAccessToken (now : Z) (req : Request) : mw_result :=
  match nonempty (authorization req) with
  | Some authHeader =>
      if String.prefix "Bearer " authHeader then
        match bearer_token authHeader with
        | Some token =>
            match jwt_verify token ACCESS_TOKEN_SECRET now with
            | Some decoded =>
                Next {| authorization := authorization req;
                        user := Some decoded |}
            | None => Respond InvalidToken
            end
        | None => Respond InvalidToken
        end
      else Respond Unauthorized
  | None => Respond Unauthorized
  end.

(** The other copy of the middleware in the repository (second file of
    src/unnamed/part_003), which resolves the user behind the token. *)
Definition verifyAccessToken_resolving (now : Z) (us : list User)
    (req : Request) : mw_result :=
  match nonempty (authorization req) with
  | Some authHeader =>
      if String.prefix "Bearer " authHeader then
        match bearer_token authHeader with
        | Some token =>
            match jwt_verify token ACCESS_TOKEN_SECRET now with
            | Some decoded =>
                match findUserById (tok_id decoded) us with
                | Some (Some u) =>
                    if negb (isActive u) then Respond AccountBlocked
                    else Next {| authorization := authorization req;
                                 user := Some {| tok_id := user_id u;
                                                 tok_role := Some (role u) |} |}
                | Some None => Respond UserNotFound
                | None => Respond InvalidToken
                end
            | None => Respond InvalidToken
            end
        | None => Respond InvalidToken
        end
      else Respond Unauthorized
  | None => Respond Unauthorized
  end.

(** src/middleware/roleMiddleware.js *)
Definition checkRole (allowedRoles : list string) (req : Request) : mw_result :=
  match user req with
  | Some u =>
      match nonempty (tok_role u) with
      | Some r =>
          if bool_decide (r ∈ allowedRoles) then Next req
          else Respond AccessDenied
      | None => Respond AccessDenied
      end
  | None => Respond AccessDenied
  end.

(** [router.METHOD(path, gate, checkRole(roles), body)]: the request
    reaches the route body, with [req.user] attached, or a middleware
    answers. *)
Definition through (gate : Request → mw_result) (allowedRoles : list string)
    (req : Request) : mw_result :=
  match gate req with
  | Next req' => checkRole allowedRoles req'
  | Respond r => Respond r
  end.

Definition reaches_body (r : mw_result) : bool :=
  match r with
  | Next _ => true
  | Respond _ => false
  end.

End Gate.

(* ===================================================================== *)
(** ** Auth Service (src/routes/auth.js) *)
(* ===================================================================== *)

Definition code_of (c : Ascii.ascii) : nat := Ascii.nat_of_ascii c.

Definition is_letter (c : Ascii.ascii) : bool :=
  ((65 <=? code_of c) && (code_of c <=? 90) || (97 <=? code_of c) && (code_of c <=? 122))%nat.

Definition is_digit (c : Ascii.ascii) : bool :=
  ((48 <=? code_of c) && (code_of c <=? 57))%nat.

(** The characters [.] does not match. *)
Definition is_line_terminator (c : Ascii.ascii) : bool :=
  ((code_of c =? 10) || (code_of c =? 13))%nat.

(** [/^(?=.*[A-Za-z])(?=.*\d)(?=.*[^A-Za-z0-9]).{8,}$/.test(s)]: the three
    lookaheads and [.{8,}] all start at the first character and [$] is the
    end of the input, so the input has no line terminator at all. *)
Definition passwordRegex_test (s : string) : bool :=
  let cs := String.list_ascii_of_string s in
  existsb is_letter cs
  && existsb is_digit cs
  && existsb (fun c => negb (is_letter c || is_digit c)) cs
  && (8 <=? length cs)%nat
  && forallb (fun c => negb (is_line_terminator c)) cs.

(** Decimal digits of a non-negative integer, [n.toString()]. *)
Fixpoint decimal (fuel : nat) (n : Z) (acc : string) : string :=
  let acc' := String (Ascii.ascii_of_nat (48 + Z.to_nat (n mod 10))) acc in
  match fuel with
  | O => acc'
  | S fuel' => if n <? 10 then acc' else decimal fuel' (n / 10) acc'
  end.

Definition toString (n : Z) : string := decimal (Z.to_nat (Z.log2 n)) n "".

(** [Math.floor(100000 + Math.random() * 900000).toString()], with the
    draw [Math.random()] given. *)
Definition generateResetCode (random : Q) : string :=
  toString (Qfloor (100000 + random * 900000)%Q).

(** Six decimal digits. *)
Definition six_digits (s : string) : bool :=
  (String.length s =? 6)%nat && forallb is_digit (String.list_ascii_of_string s).

Definition save_user (u : User) (us : list User) : list User :=
  (fun v => if String.eqb (user_id v) (user_id u) then u else v) <$> us.

(** [User.findOne({ email })]; an [undefined] email is sent to the store as
    [null] and matches the users that have none. *)
Definition findOne_email (e : option string) (us : list User) : option User :=
  List.find (fun u => bool_decide (email u = e)) us.

(** [User.findOne({ refreshToken })] *)
Definition findOne_refreshToken (t : string) (us : list User) : option User :=
  List.find (fun u => bool_decide (refreshToken u = Some t)) us.

Definition set_refreshToken (t : option string) (u : User) : User :=
  {| user_id := user_id u; name := name u; phone := phone u;
     address := address u; idCardNumber := idCardNumber u; email := email u;
     password := password u; role := role u; isActive := isActive u;
     resetCode := resetCode u; resetCodeExpiry := resetCodeExpiry u;
     refreshToken := t |}.

Definition set_password (h : string) (u : User) : User :=
  {| user_id := user_id u; name := name u; phone := phone u;
     address := address u; idCardNumber := idCardNumber u; email := email u;
     password := h; role := role u; isActive := isActive u;
     resetCode := resetCode u; resetCodeExpiry := resetCodeExpiry u;
     refreshToken := refreshToken u |}.

Definition set_reset (h : option string) (expiry : option Z) (u : User) : User :=
  {| user_id := user_id u; name := name u; phone := phone u;
     address := address u; idCardNumber := idCardNumber u; email := email u;
     password := password u; role := role u; isActive := isActive u;
     resetCode := h; resetCodeExpiry := expiry;
     refreshToken := refreshToken u |}.

Record SignupReq : Type := mkSignupReq {
  su_name : option string;
  su_phone : option string;
  su_address : option string;
  su_email : option string;
  su_password : option string;
  su_role : option string;      (* sent by a client, never read *)
}.

Record LoginReq : Type := mkLoginReq {
  li_email : option string;
  li_password : option string;
}.

Record VerifyReq : Type := mkVerifyReq {
  vc_email : option string;
  vc_code : option string;
}.

Record ChangeReq : Type := mkChangeReq {
  oldPassword : option string;
  newPassword : option string;
}.

Inductive AuthBody : Type :=
| AuthMessage (m : string)
| UserCreated (m : string) (u : User)
| Tokens (accessToken refreshToken : string)
| AccessToken (accessToken : string).

Definition msg_weak : string :=
  "Password must be at least 8 characters and include at least one letter, one number, and one special character".
Definition msg_weak_new : string :=
  "New password must be at least 8 characters and include at least one letter, one number, and one special character".
Definition msg_json : string :=
  "Invalid JSON body. Use Content-Type: application/json".

Definition AuthValidationError (m : string) : Response AuthBody :=
  mkResponse 400 (AuthMessage m).
Definition AlreadyExists : Response AuthBody :=
  mkResponse 400 (AuthMessage "User already exists").
Definition InvalidCredentials : Response AuthBody :=
  mkResponse 400 (AuthMessage "Invalid credentials").
Definition OldPasswordIncorrect : Response AuthBody :=
  mkResponse 400 (AuthMessage "Old password is incorrect").
Definition WeakPassword (m : string) : Response AuthBody :=
  mkResponse 400 (AuthMessage m).
Definition LoginBlocked : Response AuthBody :=
  mkResponse 403 (AuthMessage "Your account is blocked. Please contact the administrator.").
Definition ResetUserNotFound : Response AuthBody :=
  mkResponse 404 (AuthMessage "User not found").
Definition ChangeUserNotFound : Response AuthBody :=
  mkResponse 401 (AuthMessage "User not found").
Definition InvalidOrExpiredCode : Response AuthBody :=
  mkResponse 400 (AuthMessage "Invalid or expired code").
Definition CodeVerified : Response AuthBody :=
  mkResponse 200 (AuthMessage "Code verified").
Definition RefreshTokenRequired : Response AuthBody :=
  mkResponse 401 (AuthMessage "Refresh token required").
Definition InvalidRefreshToken : Response AuthBody :=
  mkResponse 403 (AuthMessage "Invalid refresh token").
Definition InvalidOrExpiredRefreshToken : Response AuthBody :=
  mkResponse 403 (AuthMessage "Invalid or expired refresh token").
Definition AuthInternalError (e : string) : Response AuthBody :=
  mkResponse 500 (AuthMessage e).

Section AuthService.
Context {E : Externals}.

(** What passes the validation of Signup. *)
Definition validSignup (b : SignupReq) (us : list User) : Prop :=
  is_Some (nonempty (su_name b)) ∧ is_Some (nonempty (su_phone b)) ∧
  is_Some (nonempty (su_address b)) ∧
  (∃ pw, nonempty (su_password b) = Some pw ∧ passwordRegex_test pw = true) ∧
  findOne_email (su_email b) us = None.


Local Abbreviation Resp := (Response AuthBody).
Local Abbreviation H := (handler Resp (list User)).

Definition generateAccessToken (now : Z) (u : User) : string :=
  jwt_sign {| tok_id := user_id u; tok_role := Some (role u) |}
           ACCESS_TOKEN_SECRET "15m" now.

Definition generateRefreshToken (now : Z) (u : User) : string :=
  jwt_sign {| tok_id := user_id u; tok_role := None |}
           REFRESH_TOKEN_SECRET "7d" now.

(** POST /signup, lines 69-99. [new_id] is the id of the created
    document, [salt] the salt bcrypt draws. *)
Definition signup_body (new_id salt : string) (b : option SignupReq) : H Resp :=
  b ← require b (AuthValidationError msg_json);
  name' ← require (nonempty (su_name b))
            (AuthValidationError "All fields except email are required");
  phone' ← require (nonempty (su_phone b))
            (AuthValidationError "All fields except email are required");
  address' ← require (nonempty (su_address b))
            (AuthValidationError "All fields except email are required");
  password' ← require (nonempty (su_password b))
            (AuthValidationError "All fields except email are required");
  guard (negb (passwordRegex_test password')) (WeakPassword msg_weak);;
  us ← get;
  guard (bool_decide (is_Some (findOne_email (su_email b) us))) AlreadyExists;;
  let hashedPassword := bcrypt_hash password' 10%nat salt in
  let created := {| user_id := new_id; name := name'; phone := phone';
                    address := address'; idCardNumber := None;
                    email := su_email b; password := hashedPassword;
                    role := "admin"; isActive := true; resetCode := None;
                    resetCodeExpiry := None; refreshToken := None |} in
  modify (fun us => us ++ [created]);;
  mret (mkResponse 201 (UserCreated "Admin user created successfully" created)).

Definition signup (new_id salt : string) (b : option SignupReq)
  : list User → Resp * list User :=
  try_catch (signup_body new_id salt b) AuthInternalError.

(** POST /login, lines 131-160. *)
Definition login_body (now : Z) (b : option LoginReq) : H Resp :=
  b ← require b (AuthValidationError msg_json);
  email' ← require (nonempty (li_email b))
             (AuthValidationError "Email and password required");
  password' ← require (nonempty (li_password b))
             (AuthValidationError "Email and password required");
  us ← get;
  u ← require (findOne_email (Some email') us) InvalidCredentials;
  guard (negb (isActive u)) LoginBlocked;;
  guard (negb (bcrypt_compare password' (password u))) InvalidCredentials;;
  let accessToken := generateAccessToken now u in
  let refreshToken' := generateRefreshToken now u in
  modify (save_user (set_refreshToken (Some refreshToken') u));;
  mret (mkResponse 200 (Tokens accessToken refreshToken')).

Definition login (now : Z) (b : option LoginReq)
  : list User → Resp * list User :=
  try_catch (login_body now b) AuthInternalError.

(** POST /forgot-password, lines 187-212. [random] is the draw of
    [Math.random()], [now] is [Date.now()]. *)
Definition forgotPassword_body (random : Q) (now : Z) (email_in : option string)
  : H Resp :=
  email' ← require (nonempty email_in) (AuthValidationError "Email is required");
  us ← get;
  u ← require (findOne_email (Some email') us) ResetUserNotFound;
  let resetCode' := generateResetCode random in
  let hashedCode := sha256_hex resetCode' in
  modify (save_user (set_reset (Some hashedCode) (Some (now + 10 * 60 * 1000)) u));;
  match sendEmail email' "Your Password Reset Code" (passwordResetTemplate resetCode') with
  | Some e => throw e
  | None => mret (mkResponse 200 (AuthMessage "Verification code sent to email"))
  end.

Definition forgotPassword (random : Q) (now : Z) (email_in : option string)
  : list User → Resp * list User :=
  try_catch (forgotPassword_body random now email_in) AuthInternalError.

(** POST /verify-code, lines 243-264. [now] is [new Date()]. *)
Definition verifyCode_body (now : Z) (b : VerifyReq) : H Resp :=
  email' ← require (nonempty (vc_email b))
             (AuthValidationError "Email and code are required");
  code ← require (nonempty (vc_code b))
             (AuthValidationError "Email and code are required");
  us ← get;
  let found := findOne_email (Some email') us in
  let hashedCode := sha256_hex code in
  guard (match found with
         | None => true
         | Some u =>
             negb (bool_decide (resetCode u = Some hashedCode))
             || match resetCodeExpiry u with
                | None => true
                | Some expiry => expiry <? now
                end
         end) InvalidOrExpiredCode;;
  mret CodeVerified.

Definition verifyCode (now : Z) (b : VerifyReq)
  : list User → Resp * list User :=
  try_catch (verifyCode_body now b) AuthInternalError.

(** POST /change-password, lines 365-410, behind [verifyAccessToken];
    [acting] is [req.user.id]. Destructuring an absent body throws. *)
Definition changePassword_body (salt : string) (acting : string)
    (b : option ChangeReq) : H Resp :=
  b ← (match b with
       | Some b => mret b
       | None => throw "Cannot destructure property of req.body"
       end);
  old ← require (nonempty (oldPassword b))
          (AuthValidationError "Old password and new password are required");
  new ← require (nonempty (newPassword b))
          (AuthValidationError "Old password and new password are required");
  guard (negb (passwordRegex_test new)) (WeakPassword msg_weak_new);;
  us ← get;
  found ← (match findUserById acting us with
           | Some r => mret r
           | None => throw "Cast to ObjectId failed"
           end);
  u ← require found ChangeUserNotFound;
  guard (negb (bcrypt_compare old (password u))) OldPasswordIncorrect;;
  let hashedPassword := bcrypt_hash new 10%nat salt in
  modify (save_user (set_refreshToken None (set_password hashedPassword u)));;
  mret (mkResponse 200 (AuthMessage "Password changed successfully")).

Definition changePassword (salt : string) (acting : string) (b : option ChangeReq)
  : list User → Resp * list User :=
  try_catch (changePassword_body salt acting b) AuthInternalError.

(** POST /refresh-token, lines 447-470. The source has no try/catch here;
    no step of the body throws, see [refreshToken_body_never_throws]. *)
Definition refreshToken_body (now : Z) (b : option (option string)) : H Resp :=
  b ← require b (AuthValidationError msg_json);
  token ← require (nonempty b) RefreshTokenRequired;
  us ← get;
  u ← require (findOne_refreshToken token us) InvalidRefreshToken;
  match jwt_verify token REFRESH_TOKEN_SECRET now with
  | None => send InvalidOrExpiredRefreshToken
  | Some _ => mret (mkResponse 200 (AccessToken (generateAccessToken now u)))
  end.

Definition refresh (now : Z) (b : option (option string))
  : list User → Resp * list User :=
  try_catch (refreshToken_body now b) AuthInternalError.

End AuthService.


(* ===================================================================== *)
(** ** The specification's reading of the order loop *)
(* ===================================================================== *)

Section OrderSpec.
Context {JN : JsNumber} {E : Externals} {JS : JsStrings}.

(** What section 4.3, step 4 says of one line against the current stock:
    validate, load, check sufficiency. A product id that does not cast to
    an ObjectId makes the load throw. *)
Inductive lineVerdict : Type :=
| LineAccepted (pid : string) (prod : Item) (qty : num)
| LineRejected (r : Response OrderBody)
| LineThrows (e : string).

Definition checkLine (stock : gmap string Item) (line : LineReq) : lineVerdict :=
  match nonempty (productId line), req_quantity line with
  | Some pid, Val q =>
      if jlt q jone then LineRejected (ValidationError msg_line)
      else if negb (ObjectId_isValid pid) then LineThrows msg_cast
      else match stock !! pid with
           | None => LineRejected (ProductNotFound pid)
           | Some prod =>
               if jlt (quantity prod) q
               then LineRejected (InsufficientStock (item_name prod))
               else LineAccepted pid prod q
           end
  | _, _ => LineRejected (ValidationError msg_line)
  end.


(** Stock after the decrement of one product. *)
Definition decrement (pid : string) (qty : num) (stock : gmap string Item)
  : gmap string Item :=
  alter (fun prod => set_quantity (jsub (quantity prod) qty) prod) pid stock.

(** Stock after the decrement an accepted line makes. *)
Definition decrementLine (stock : gmap string Item) (line : LineReq)
  : gmap string Item :=
  match productId line, req_quantity line with
  | Some pid, Val q => decrement pid q stock
  | _, _ => stock
  end.

(** Stock after the decrements of a run of lines, in order. *)
Definition stockAfter (lines : list LineReq) (stock : gmap string Item)
  : gmap string Item :=
  fold_left decrementLine lines stock.

(** Every line of the run is accepted against the stock the earlier lines
    leave. *)
Fixpoint acceptsAll (stock : gmap string Item) (lines : list LineReq) : bool :=
  match lines with
  | [] => true
  | line :: rest =>
      match checkLine stock line with
      | LineAccepted _ _ _ => acceptsAll (decrementLine stock line) rest
      | _ => false
      end
  end.

(** What is left of a stock [q] of product [pid] when the quantities of
    the lines that name the product have been subtracted from it, one
    after the other, in the order of the lines. *)
Definition remaining (pid : string) (lines : list LineReq) (q : num) : num :=
  fold_left (fun left line =>
               match productId line, req_quantity line with
               | Some p, Val n => if String.eqb p pid then jsub left n else left
               | _, _ => left
               end) lines q.

(** The line record the order keeps for an accepted line. *)
Definition lineRecord (pid : string) (prod : Item) (qty : num) : OrderLine :=
  {| product := pid; productName := item_name prod; line_quantity := qty;
     unitPrice := price prod; lineTotal := jmul qty (price prod) |}.

(** The whole loop as a function of the stock. *)
Inductive linesOutcome : Type :=
| Completed (acc : list OrderLine * num) (stock : gmap string Item)
| Stopped (r : Response OrderBody) (stock : gmap string Item)
| Crashed (e : string) (stock : gmap string Item).

Fixpoint specLines (stock : gmap string Item) (lines : list LineReq)
    (acc : list OrderLine * num) : linesOutcome :=
  match lines with
  | [] => Completed acc stock
  | line :: rest =>
      match checkLine stock line with
      | LineAccepted pid prod qty =>
          specLines (decrement pid qty stock) rest
            (acc.1 ++ [lineRecord pid prod qty], jadd acc.2 (jmul qty (price prod)))
      | LineRejected r => Stopped r stock
      | LineThrows e => Crashed e stock
      end
  end.

(** The checks a request passes before the loop starts (section 4.3,
    steps 1 to 3). *)
Definition passesChecks (b : OrderReq) (db : Db) (lines : list LineReq) : Prop :=
  ∃ sid ptype amount shp,
    nonempty (shopId b) = Some sid ∧
    req_items b = Some lines ∧ lines ≠ [] ∧
    nonempty (req_paymentType b) = Some ptype ∧ ptype ∈ validPaymentTypes ∧
    Number (req_paymentAmount b) = Some amount ∧ jlt amount jzero = false ∧
    ObjectId_isValid sid = true ∧
    shops db !! sid = Some shp ∧ shop_isActive shp = true.

(** The order [placeOrder] creates from a request that passed the checks. *)
Definition orderOf (acting sid ptype : string) (type_id : Z) (amount : num)
    (acc : list OrderLine * num) : Order :=
  {| shop := sid; salesman := acting; orderLines := acc.1;
     totalAmount := acc.2; paymentType := ptype; paymentTypeId := type_id;
     paymentAmount := amount; amountPaid := jzero |}.

(** [totalAmount += lineTotal] over the lines, from 0. *)
Definition accumulate (lines : list OrderLine) : num :=
  fold_left (fun total l => jadd total (lineTotal l)) lines jzero.

(** The amount the payment route makes of [amountPaid]: what [Number]
    gives of a value other than [undefined] and [null], if that is a
    number and not negative. *)
Definition acceptedAmount (v : jsvalue num) : option num :=
  match match v with
        | JUndefined => None
        | JNull => None
        | v => ToNumber v
        end with
  | Some a => if jlt a jzero then None else Some a
  | None => None
  end.

End OrderSpec.

(** The quantity of product [pid] the lines of a request ask for, over the
    integers. *)
Definition requested (pid : string) (lines : list (@LineReq Exact)) : Z :=
  foldr (fun (line : @LineReq Exact) (total : Z) =>
           match productId line, req_quantity line with
           | Some p, Val q => if String.eqb p pid then (q : Z) + total else total
           | _, _ => total
           end) 0 lines.

(** The exact sum of quantity times unit price, over the integers. *)
Definition exactTotal (lines : list (@OrderLine Exact)) : Z :=
  foldr (fun (l : @OrderLine Exact) (total : Z) =>
           (line_quantity l : Z) * (unitPrice l : Z) + total) 0 lines.

(** The exact sum of quantity times unit price of binary64 lines, over the
    rationals; [None] if a factor is not finite. *)
Definition exactTotal64 (lines : list (@OrderLine Binary64)) : option Q :=
  foldr (fun (l : @OrderLine Binary64) total =>
           match F64_toQ (line_quantity l), F64_toQ (unitPrice l), total with
           | Some q, Some p, Some t => Some (q * p + t)%Q
           | _, _, _ => None
           end) (Some (0 # 1)%Q) lines.

(** "totalAmount equals the exact sum" for an order computed in binary64. *)
Definition totalIsExact64 (o : @Order Binary64) : Prop :=
  match F64_toQ (totalAmount o), exactTotal64 (orderLines o) with
  | Some t, Some e => (t == e)%Q
  | _, _ => False
  end.

(** "The quantity went down by exactly what was requested", for a stock
    held in binary64: the difference of the two stocks, taken over the
    rationals, is the requested quantity. *)
Definition decrementIsExact64 (before after asked : float) : Prop :=
  match F64_toQ before, F64_toQ after, F64_toQ asked with
  | Some b, Some a, Some r => (b - a == r)%Q
  | _, _, _ => False
  end.

(* ===================================================================== *)
(** ** Stand-ins for the libraries, to run the handlers on examples *)
(* ===================================================================== *)

Definition is_hex (c : Ascii.ascii) : bool :=
  (is_digit c || (97 <=? code_of c) && (code_of c <=? 102)
   || (65 <=? code_of c) && (code_of c <=? 70))%nat.

(** 24 hexadecimal digits, the form of the ids the driver generates. *)
Definition isHex24 (s : string) : bool :=
  (String.length s =? 24)%nat && forallb is_hex (String.list_ascii_of_string s).

Definition demo_jwt_verify (token secret : string) (now : Z) : option Payload :=
  if String.eqb token "token-of-e1" && String.eqb secret "access-secret"
  then Some {| tok_id := "65f0000000000000000000e1"; tok_role := Some "salesman" |}
  else if String.eqb token "refresh-of-e1" && String.eqb secret "refresh-secret"
  then Some {| tok_id := "65f0000000000000000000e1"; tok_role := None |}
  else None.

Definition demo_jwt_sign (p : Payload) (secret expiresIn : string) (now : Z) : string :=
  secret +:+ ":" +:+ tok_id p.

Definition demo_bcrypt_hash (pw : string) (cost : nat) (salt : string) : string :=
  "bcrypt:" +:+ pw.

Definition demo_bcrypt_compare (pw hash : string) : bool :=
  String.eqb hash ("bcrypt:" +:+ pw).

Definition demo_sha256 (s : string) : string := "sha256:" +:+ s.

Definition demo_sendEmail (to subject text : string) : option string := None.

Definition demo_template (code : string) : string := "Your code: " +:+ code.

Definition demo : Externals :=
  {| ObjectId_isValid := isHex24;
     jwt_sign := demo_jwt_sign;
     jwt_verify := demo_jwt_verify;
     ACCESS_TOKEN_SECRET := "access-secret";
     REFRESH_TOKEN_SECRET := "refresh-secret";
     bcrypt_hash := demo_bcrypt_hash;
     bcrypt_compare := demo_bcrypt_compare;
     sha256_hex := demo_sha256;
     sendEmail := demo_sendEmail;
     passwordResetTemplate := demo_template |}.

(** Numerals of decimal digits, and the empty string, as the engine
    reads them; the stand-in gives [NaN] on every other string. *)
Fixpoint digits_value (acc : Z) (s : string) : option Z :=
  match s with
  | EmptyString => Some acc
  | String c rest =>
      if is_digit c
      then digits_value (10 * acc + (Z.of_nat (code_of c) - 48)) rest
      else None
  end.

Definition demo_strings : @JsStrings Exact :=
  @Build_JsStrings Exact (digits_value 0).

Definition demo_user (active : bool) : User :=
  {| user_id := "65f0000000000000000000e1"; name := "Ali"; phone := "2345673";
     address := "okara"; idCardNumber := None; email := Some "ali@example.com";
     password := "bcrypt:5271Alr@x"; role := "salesman"; isActive := active;
     resetCode := None; resetCodeExpiry := None;
     refreshToken := Some "refresh-of-e1" |}.

Definition demo_shop : Shop :=
  {| shopName := "S1"; ownerName := "Owner"; cnic := "35202"; phoneNumber := "0300";
     shop_address := "Main road"; city := "Okara"; shop_isActive := true |}.

Definition sid1 : string := "65f000000000000000000001".
Definition pid1 : string := "65f0000000000000000000a1".
Definition pid2 : string := "65f0000000000000000000a2".
Definition oid1 : string := "65f0000000000000000000c1".
Definition uid1 : string := "65f0000000000000000000e1".

(** The example of section 8: P1 at price 100 with 10 in stock. *)
Definition demo_db : @Db Exact :=
  {| users := [demo_user true];
     shops := {[ sid1 := demo_shop ]};
     items := {[ pid1 := @mkItem Exact "P1" "cat" 100 10 ]};
     orders := ∅ |}.

Definition demo_order (lines : list (@LineReq Exact)) : @OrderReq Exact :=
  {| shopId := Some sid1; req_items := Some lines;
     req_paymentType := Some "half"; req_paymentAmount := Val 150 |}.

Definition demo_line (pid : string) (q : Z) : @LineReq Exact :=
  @mkLineReq Exact (Some pid) (Val q).


(** Three of P1 and two more of it in a second line. *)
Definition demo_double_order : @OrderReq Exact :=
  demo_order [demo_line pid1 3; demo_line pid1 2].

Definition demo_placed : Response OrderBody * @Db Exact :=
  @placeOrder Exact demo oid1 uid1 demo_double_order demo_db.

Definition demo_signup : SignupReq :=
  {| su_name := Some "Tana"; su_phone := Some "2345673";
     su_address := Some "okara"; su_email := Some "tana@example.com";
     su_password := Some "5271Alr@"; su_role := Some "salesman" |}.

(** Two products priced 0.1 and 0.2 (the nearest doubles), one of each
    ordered. *)
Definition drift_db : @Db Binary64 :=
  {| users := [demo_user true];
     shops := {[ sid1 := demo_shop ]};
     items := {[ pid1 := @mkItem Binary64 "P1" "cat" 0x1.999999999999ap-4%float 10%float;
                 pid2 := @mkItem Binary64 "P2" "cat" 0x1.999999999999ap-3%float 10%float ]};
     orders := ∅ |}.

Definition drift_order : @OrderReq Binary64 :=
  {| shopId := Some sid1;
     req_items := Some [ @mkLineReq Binary64 (Some pid1) (Val 1%float);
                         @mkLineReq Binary64 (Some pid2) (Val 1%float) ];
     req_paymentType := Some "full"; req_paymentAmount := Val 0%float |}.

Definition drift_placed : Response OrderBody * @Db Binary64 :=
  @placeOrder Binary64 demo oid1 uid1 drift_order drift_db.

(** P1 with 10 in stock, and 1.1 of it ordered (the nearest double). *)
Definition frac_db : @Db Binary64 :=
  {| users := [demo_user true];
     shops := {[ sid1 := demo_shop ]};
     items := {[ pid1 := @mkItem Binary64 "P1" "cat" 100%float 10%float ]};
     orders := ∅ |}.

Definition frac_line (q : float) : @LineReq Binary64 :=
  @mkLineReq Binary64 (Some pid1) (Val q).

Definition frac_order (lines : list (@LineReq Binary64)) : @OrderReq Binary64 :=
  {| shopId := Some sid1; req_items := Some lines;
     req_paymentType := Some "full"; req_paymentAmount := Val 0%float |}.

Definition frac_placed : Response OrderBody * @Db Binary64 :=
  @placeOrder Binary64 demo oid1 uid1
    (frac_order [frac_line 0x1.199999999999ap+0%float]) frac_db.

(** 1.1 of P1, then 20 more of it: the second line finds too little. *)
Definition frac_short : Response OrderBody * @Db Binary64 :=
  @placeOrder Binary64 demo oid1 uid1
    (frac_order [frac_line 0x1.199999999999ap+0%float; frac_line 20%float])
    frac_db.

(** The demo order placed, with 300 of its 500 paid. *)
Definition demo_paid : @Db Exact :=
  (@recordPayment Exact demo demo_strings oid1 (JNum 300) demo_placed.2).2.

(** What the payment route answers on the demo order for a value of
    [amountPaid], and what the order stores after the call. *)
Definition demo_payment (v : jsvalue Z) : Z * option Z :=
  let run := @recordPayment Exact demo demo_strings oid1 v demo_paid in
  (status run.1, @amountPaid Exact <$> orders run.2 !! oid1).

(** A request carrying the access token of the demo user. *)
Definition demo_request : Request :=
  {| authorization := Some "Bearer token-of-e1"; user := None |}.

(* ===================================================================== *)
(** ** Auxiliary notions for the further properties *)
(* ===================================================================== *)

(** A string without a space. *)
Definition spaceless (t : string) : bool :=
  forallb (fun c => negb (Ascii.eqb c (Ascii.ascii_of_nat 32)))
          (String.list_ascii_of_string t).

(** The stock a run of the loop leaves, however it ends. *)
Definition outcomeStock `{JsNumber} (o : linesOutcome) : gmap string Item :=
  match o with
  | Completed _ stock => stock
  | Stopped _ stock => stock
  | Crashed _ stock => stock
  end.

(** The users that hold refresh token [t] are all the user [u]. *)
Definition held_only_by (t : string) (u : User) (us : list User) : Prop :=
  ∀ v, v ∈ us → refreshToken v = Some t → user_id v = user_id u.

(** The test both verify-code and reset-password make on the user. *)
Definition codeMatches `{Externals} (now : Z) (code : string) (found : option User) : bool :=
  match found with
  | None => false
  | Some u =>
      bool_decide (resetCode u = Some (sha256_hex code))
      && match resetCodeExpiry u with
         | None => false
         | Some expiry => negb (expiry <? now)
         end
  end.

(* ===================================================================== *)
(** ** Further routes of src/routes/auth.js *)
(* ===================================================================== *)

Record ResetReq : Type := mkResetReq {
  rp_email : option string;
  rp_code : option string;
  rp_newPassword : option string;
}.

(** What POST /logout answers: a JSON message, or [res.sendStatus(204)]. *)
Inductive LogoutBody : Type :=
| LoggedOut (m : string)
| NoContent.

(** [User.findOne({ refreshToken })] with the field as the body has it;
    as for the e-mail, an [undefined] value matches the users that store
    no token. *)
Definition findOne_refreshToken_field (t : option string) (us : list User)
  : option User :=
  List.find (fun u => bool_decide (refreshToken u = t)) us.

Section AuthService2.
Context {E : Externals}.

(** POST /reset-password, lines 298-328. *)
Definition resetPassword_body (salt : string) (now : Z) (b : ResetReq)
  : handler (Response AuthBody) (list User) (Response AuthBody) :=
  email' ← require (nonempty (rp_email b))
             (AuthValidationError "Email, code, and newPassword are required");
  code ← require (nonempty (rp_code b))
             (AuthValidationError "Email, code, and newPassword are required");
  new ← require (nonempty (rp_newPassword b))
             (AuthValidationError "Email, code, and newPassword are required");
  us ← get;
  let hashedCode := sha256_hex code in
  u ← require (match findOne_email (Some email') us with
               | None => None
               | Some u =>
                   if negb (bool_decide (resetCode u = Some hashedCode))
                      || match resetCodeExpiry u with
                         | None => true
                         | Some expiry => expiry <? now
                         end
                   then None else Some u
               end) InvalidOrExpiredCode;
  guard (negb (passwordRegex_test new)) (WeakPassword msg_weak);;
  modify (save_user (set_reset None None
                       (set_password (bcrypt_hash new 10%nat salt) u)));;
  mret (mkResponse 200 (AuthMessage "Password reset successful")).

Definition resetPassword (salt : string) (now : Z) (b : ResetReq)
  : list User → Response AuthBody * list User :=
  try_catch (resetPassword_body salt now b) AuthInternalError.

(** POST /logout, lines 493-504; [token] is
    [req.body && req.body.refreshToken]. *)
Definition logout (token : option string)
  : list User → Response LogoutBody * list User :=
  fun us =>
    match findOne_refreshToken_field token us with
    | None => (mkResponse 204 NoContent, us)
    | Some u =>
        (mkResponse 200 (LoggedOut "Logged out successfully"),
         save_user (set_refreshToken None u) us)
    end.

End AuthService2.

(* ===================================================================== *)
(** ** Salesman administration (admin routes, src/unnamed/part_001) *)
(* ===================================================================== *)

Record SalesmanReq : Type := mkSalesmanReq {
  sm_name : option string;
  sm_phone : option string;
  sm_address : option string;
  sm_email : option string;
  sm_password : option string;
  sm_idCardNumber : option string;
}.

Definition set_isActive (b : bool) (u : User) : User :=
  {| user_id := user_id u; name := name u; phone := phone u;
     address := address u; idCardNumber := idCardNumber u; email := email u;
     password := password u; role := role u; isActive := b;
     resetCode := resetCode u; resetCodeExpiry := resetCodeExpiry u;
     refreshToken := refreshToken u |}.

(** [findOneAndUpdate]: the first document that matches is replaced. *)
Fixpoint update_first {A} (P : A → bool) (f : A → A) (l : list A) : list A :=
  match l with
  | [] => []
  | x :: rest => if P x then f x :: rest else x :: update_first P f rest
  end.

(** [findOneAndDelete]: the first document that matches is removed. *)
Fixpoint delete_first {A} (P : A → bool) (l : list A) : list A :=
  match l with
  | [] => []
  | x :: rest => if P x then rest else x :: delete_first P rest
  end.

(** The filter [{ _id: id, role: "salesman" }]. *)
Definition is_salesman_with_id (id : string) (u : User) : bool :=
  String.eqb (user_id u) id && String.eqb (role u) "salesman".

(** The two sparse unique indexes of models/user.js: a value of [email] or
    [idCardNumber] that is present is held by one user only. *)
Definition index_conflict (u : User) (us : list User) : bool :=
  existsb (fun v => match email u with
                    | Some e => bool_decide (email v = Some e)
                    | None => false
                    end
                    || match idCardNumber u with
                       | Some c => bool_decide (idCardNumber v = Some c)
                       | None => false
                       end) us.

(** No value of the field [f] that is present occurs twice. *)
Definition unique_present (f : User → option string) (us : list User) : Prop :=
  NoDup (omap f us).

Section AdminService.
Context {E : Externals}.

(** POST /create-salesman, lines 52-84. *)
Definition createSalesman_body (new_id salt : string) (b : option SalesmanReq)
  : handler (Response AuthBody) (list User) (Response AuthBody) :=
  b ← require b (AuthValidationError msg_json);
  name' ← require (nonempty (sm_name b))
            (AuthValidationError "All fields except email are required and ID card number is mandatory");
  phone' ← require (nonempty (sm_phone b))
            (AuthValidationError "All fields except email are required and ID card number is mandatory");
  address' ← require (nonempty (sm_address b))
            (AuthValidationError "All fields except email are required and ID card number is mandatory");
  password' ← require (nonempty (sm_password b))
            (AuthValidationError "All fields except email are required and ID card number is mandatory");
  idCard ← require (nonempty (sm_idCardNumber b))
            (AuthValidationError "All fields except email are required and ID card number is mandatory");
  us ← get;
  guard (existsb (fun u => bool_decide (idCardNumber u = Some idCard)) us)
        (AuthValidationError "A user with this ID card number already exists");;
  let hashedPassword := bcrypt_hash password' 10%nat salt in
  let created := {| user_id := new_id; name := name'; phone := phone';
                    address := address'; idCardNumber := Some idCard;
                    email := sm_email b; password := hashedPassword;
                    role := "salesman"; isActive := true; resetCode := None;
                    resetCodeExpiry := None; refreshToken := None |} in
  (if index_conflict created us
   then throw "E11000 duplicate key error"
   else modify (fun us => us ++ [created]));;
  mret (mkResponse 201 (UserCreated "Salesman created successfully" created)).

Definition createSalesman (new_id salt : string) (b : option SalesmanReq)
  : list User → Response AuthBody * list User :=
  try_catch (createSalesman_body new_id salt b) AuthInternalError.

(** PATCH /salesman/:id/status, lines 279-308; [flag] is [None] when
    [isActive] is missing or not a boolean. *)
Definition setSalesmanStatus_body (id : string) (flag : option bool)
  : handler (Response AuthBody) (list User) (Response AuthBody) :=
  isActive' ← require flag (AuthValidationError "isActive must be a boolean value");
  (if ObjectId_isValid id then mret tt else throw "Cast to ObjectId failed");;
  us ← get;
  u ← require (List.find (is_salesman_with_id id) us)
        (mkResponse 404 (AuthMessage "Salesman not found"));
  modify (update_first (is_salesman_with_id id) (set_isActive isActive'));;
  mret (mkResponse 200
          (UserCreated ("Salesman has been "
                        +:+ (if isActive' : bool then "activated" else "blocked"))
                       (set_isActive isActive' u))).

Definition setSalesmanStatus (id : string) (flag : option bool)
  : list User → Response AuthBody * list User :=
  try_catch (setSalesmanStatus_body id flag) AuthInternalError.

(** DELETE /salesman/:id, lines 220-235. *)
Definition deleteSalesman_body (id : string)
  : handler (Response AuthBody) (list User) (Response AuthBody) :=
  (if ObjectId_isValid id then mret tt else throw "Cast to ObjectId failed");;
  us ← get;
  u ← require (List.find (is_salesman_with_id id) us)
        (mkResponse 404 (AuthMessage "Salesman not found"));
  modify (delete_first (is_salesman_with_id id));;
  mret (mkResponse 200 (AuthMessage "Salesman deleted successfully")).

Definition deleteSalesman (id : string)
  : list User → Response AuthBody * list User :=
  try_catch (deleteSalesman_body id) AuthInternalError.

End AdminService.

(* ===================================================================== *)
(** ** Shops, products and the summary (src/routes/shop.js,
       src/unnamed/part_002, src/routes/order.js) *)
(* ===================================================================== *)

Definition set_shop_isActive (b : bool) (s : Shop) : Shop :=
  {| shopName := shopName s; ownerName := ownerName s; cnic := cnic s;
     phoneNumber := phoneNumber s; shop_address := shop_address s;
     city := city s; shop_isActive := b |}.

Inductive ShopBody : Type :=
| ShopMessage (m : string)
| ShopWith (m : string) (s : Shop).

(** [PAYMENT_TYPES] of src/routes/order.js, what GET /payment-types
    returns. *)
Definition PAYMENT_TYPES : list (Z * string) :=
  [(1, "half"); (2, "full"); (3, "cashOnDelivery")].

Section CatalogService.
Context {JN : JsNumber} {E : Externals}.

Definition set_shops (f : gmap string Shop → gmap string Shop) (db : Db) : Db :=
  {| users := users db; shops := f (shops db); items := items db;
     orders := orders db |}.

(** PATCH /admin/shop/:id/status, src/routes/shop.js; [flag] is [None]
    when [isActive] is missing or not a boolean. *)
Definition setShopStatus_body (id : string) (flag : option bool)
  : handler (Response ShopBody) Db (Response ShopBody) :=
  isActive' ← require flag (mkResponse 400 (ShopMessage "isActive must be a boolean value"));
  (if ObjectId_isValid id then mret tt else throw msg_cast);;
  db ← get;
  s ← require (shops db !! id) (mkResponse 404 (ShopMessage "Shop not found"));
  modify (set_shops (insert id (set_shop_isActive isActive' s)));;
  mret (mkResponse 200
          (ShopWith ("Shop has been "
                     +:+ (if isActive' : bool then "activated" else "disabled"))
                    (set_shop_isActive isActive' s))).

Definition setShopStatus (id : string) (flag : option bool)
  : Db → Response ShopBody * Db :=
  try_catch (setShopStatus_body id flag)
            (fun e => mkResponse 500 (ShopMessage e)).

(** DELETE /admin/shop/:id, src/routes/shop.js. *)
Definition deleteShop_body (id : string)
  : handler (Response ShopBody) Db (Response ShopBody) :=
  (if ObjectId_isValid id then mret tt else throw msg_cast);;
  db ← get;
  s ← require (shops db !! id) (mkResponse 404 (ShopMessage "Shop not found"));
  modify (set_shops (delete id));;
  mret (mkResponse 200 (ShopMessage "Shop deleted successfully")).

Definition deleteShop (id : string) : Db → Response ShopBody * Db :=
  try_catch (deleteShop_body id) (fun e => mkResponse 500 (ShopMessage e)).

(** DELETE /admin/product/:id, src/unnamed/part_002 lines 217-231. *)
Definition deleteProduct_body (id : string)
  : handler (Response OrderBody) Db (Response OrderBody) :=
  (if ObjectId_isValid id then mret tt else throw msg_cast);;
  db ← get;
  p ← require (items db !! id) (mkResponse 404 (Message "Product not found"));
  modify (set_items (delete id));;
  mret (mkResponse 200 (Message "Product deleted successfully")).

Definition deleteProduct (id : string) : Db → Response OrderBody * Db :=
  try_catch (deleteProduct_body id) InternalError.

(** GET /admin/shop-orders-summary, src/routes/order.js lines 447-502. *)
Record PaymentSummary : Type := mkPaymentSummary {
  half : num;
  full : num;
  cashOnDelivery : num;
}.

Record ShopSummary : Type := mkShopSummary {
  orderCount : num;
  totalOrderAmount : num;
  paymentSummary : PaymentSummary;
}.

(** The orders the [$group] stage puts under one shop id. *)
Definition ordersOf (sid : string) (db : Db) : list Order :=
  filter (fun o => shop o = sid) (map_to_list (orders db)).*2.

(** [{ $sum: <expression> }] over a group. *)
Definition sumOver (f : Order → num) (os : list Order) : num :=
  fold_left (fun acc o => jadd acc (f o)) os jzero.

(** [{ $cond: [{ $eq: ["$paymentType", t] }, "$paymentAmount", 0] }] *)
Definition amountIf (t : string) (o : Order) : num :=
  if String.eqb (paymentType o) t then paymentAmount o else jzero.

(** The entry of one shop: the group of its orders, or the zero entry
    when the aggregation has no group for it. *)
Definition summaryOf (sid : string) (db : Db) : ShopSummary :=
  match ordersOf sid db with
  | [] => {| orderCount := jzero; totalOrderAmount := jzero;
             paymentSummary := {| half := jzero; full := jzero;
                                  cashOnDelivery := jzero |} |}
  | os => {| orderCount := sumOver (fun _ => jone) os;
             totalOrderAmount := sumOver totalAmount os;
             paymentSummary :=
               {| half := sumOver (amountIf "half") os;
                  full := sumOver (amountIf "full") os;
                  cashOnDelivery := sumOver (amountIf "cashOnDelivery") os |} |}
  end.

Definition shopOrdersSummary (db : Db) : list (string * Shop * ShopSummary) :=
  (fun kv => (kv.1, kv.2, summaryOf kv.1 db)) <$> map_to_list (shops db).

End CatalogService.

(* ===================================================================== *)
(** ** Further examples *)
(* ===================================================================== *)

Definition uid2 : string := "65f0000000000000000000e2".

Definition demo_admin : User :=
  {| user_id := uid2; name := "Tana"; phone := "2345673";
     address := "okara"; idCardNumber := None; email := Some "tana@example.com";
     password := "bcrypt:5271Alr@"; role := "admin"; isActive := true;
     resetCode := None; resetCodeExpiry := None; refreshToken := None |}.

(** A salesman to create, with a one-letter password. *)
Definition demo_salesman_req : SalesmanReq :=
  {| sm_name := Some "Bilal"; sm_phone := Some "2345674";
     sm_address := Some "okara"; sm_email := Some "bilal@example.com";
     sm_password := Some "x"; sm_idCardNumber := Some "35202-1" |}.

(** The demo user with the code 550000 stored, good until time 601000. *)
Definition demo_user_with_code : User :=
  set_reset (Some (demo_sha256 "550000")) (Some 601000) (demo_user true).

(** A request that names no shop. *)
Definition demo_shopless_order : @OrderReq Exact :=
  {| shopId := None; req_items := Some [demo_line pid1 1];
     req_paymentType := Some "half"; req_paymentAmount := Val 150 |}.

(* ===================================================================== *)
(** * Properties *)
(* ===================================================================== *)

Ltac unfold_handler :=
  unfold mbind, handler_bind, hbind, mret, handler_ret, hret, require, guard,
    send, throw, get, modify in *.

Ltac run_handler := repeat (progress (unfold_handler; simpl in *)).

Lemma set_items_id `{JsNumber} (db : Db) : set_items (fun _ => items db) db = db.
Proof. by destruct db. Qed.

Lemma alter_lookup_insert {A} (f : A → A) (m : gmap string A) (i : string) (x : A) :
  m !! i = Some x → alter f i m = <[i := f x]> m.
Proof.
  intros Hx. rewrite <- (insert_id m i x) at 1 by done.
  by rewrite alter_insert_eq.
Qed.

Section OrderFacts.
Context {JN : JsNumber} {E : Externals} {JS : JsStrings}.

(** One turn of the loop does what [checkLine] says, and an accepted line
    writes the decremented product back at once. *)
Lemma processLine_spec (line : LineReq) (acc : list OrderLine * num) (db : Db) :
  processLine line acc db =
  match checkLine (items db) line with
  | LineAccepted pid prod qty =>
      Go (acc.1 ++ [lineRecord pid prod qty], jadd acc.2 (jmul qty (price prod)))
         (set_items (decrement pid qty) db)
  | LineRejected r => Sent r db
  | LineThrows e => Thrown e db
  end.
Proof.
  unfold processLine, checkLine, findById.
  destruct (nonempty (productId line)) as [pid|];
    [|by destruct (req_quantity line)].
  destruct (req_quantity line) as [| |q]; try done.
  destruct (jlt q jone); [done|]. run_handler.
  destruct (ObjectId_isValid pid); simpl; [|done].
  destruct (items db !! pid) as [prod|] eqn:Hprod; [|done]. run_handler.
  destruct (jlt (quantity prod) q); [done|]. run_handler.
  unfold decrement, set_items. simpl.
  by rewrite (alter_lookup_insert _ _ _ _ Hprod).
Qed.

(** The loop is the specification's function of the stock; what it has
    written when it stops stays written. *)
Lemma processLines_spec (lines : list LineReq) (acc : list OrderLine * num) (db : Db) :
  processLines lines acc db =
  match specLines (items db) lines acc with
  | Completed acc' stock => Go acc' (set_items (fun _ => stock) db)
  | Stopped r stock => Sent r (set_items (fun _ => stock) db)
  | Crashed e stock => Thrown e (set_items (fun _ => stock) db)
  end.
Proof.
  revert acc db. induction lines as [|line rest IH]; intros acc db; simpl.
  - by rewrite set_items_id.
  - unfold mbind, handler_bind, hbind. rewrite processLine_spec.
    destruct (checkLine (items db) line) as [pid prod qty|r|e].
    + rewrite IH. simpl. by destruct (specLines _ rest _).
    + by rewrite set_items_id.
    + by rewrite set_items_id.
Qed.

(** A line is only ever rejected with status 400. *)
Lemma checkLine_rejected_status (stock : gmap string Item) (line : LineReq)
    (r : Response OrderBody) :
  checkLine stock line = LineRejected r → status r = 400.
Proof.
  unfold checkLine.
  destruct (nonempty (productId line)) as [pid|]; [|by intros [= <-]].
  destruct (req_quantity line) as [| |q]; try by intros [= <-].
  destruct (jlt q jone); [by intros [= <-]|].
  destruct (negb (ObjectId_isValid pid)); [done|].
  destruct (stock !! pid) as [prod|]; [|by intros [= <-]].
  destruct (jlt (quantity prod) q); [by intros [= <-]|done].
Qed.

Lemma specLines_stopped_status (stock stock' : gmap string Item)
    (lines : list LineReq) (acc : list OrderLine * num) (r : Response OrderBody) :
  specLines stock lines acc = Stopped r stock' → status r = 400.
Proof.
  revert stock acc. induction lines as [|line rest IH]; intros stock acc; simpl;
    [done|].
  destruct (checkLine stock line) eqn:Hc; [by eauto| |done].
  intros [= <- _]. by eapply checkLine_rejected_status.
Qed.

(** What a 201 answer of [placeOrder] tells. *)
Lemma placeOrder_created (new_id acting : string) (b : OrderReq) (db db' : Db)
    (resp : Response OrderBody) :
  placeOrder new_id acting b db = (resp, db') →
  status resp = 201 →
  ∃ sid lines ptype type_id amount acc stock,
    req_items b = Some lines ∧
    specLines (items db) lines ([], jzero) = Completed acc stock ∧
    let order := orderOf acting sid ptype type_id amount acc in
    db' = set_orders (insert new_id order) (set_items (fun _ => stock) db) ∧
    body resp = WithOrder "Order created successfully"
                  (Some (populate new_id order db')).
Proof.
  unfold placeOrder, try_catch, placeOrder_body.
  destruct (nonempty (shopId b)) as [sid|]; run_handler;
    [|intros [= <- <-]; done].
  destruct (req_items b) as [[|l ls]|]; run_handler;
    try (intros [= <- <-]; done).
  destruct (nonempty (req_paymentType b)) as [pt|]; run_handler;
    [|intros [= <- <-]; done].
  case_bool_decide; run_handler; [|intros [= <- <-]; done].
  destruct (Number (req_paymentAmount b)) as [a|]; run_handler;
    [|intros [= <- <-]; done].
  destruct (jlt a jzero); run_handler; [intros [= <- <-]; done|].
  unfold findById at 1.
  destruct (ObjectId_isValid sid); [|intros [= <- <-]; done].
  destruct (shops db !! sid) as [shp|]; run_handler; [|intros [= <- <-]; done].
  destruct (shop_isActive shp); run_handler; [|intros [= <- <-]; done].
  change (match processLine l ([], jzero) db with
          | Go a0 s' => processLines ls a0 s'
          | Sent r s' => Sent r s'
          | Thrown e s' => Thrown e s'
          end) with (processLines (l :: ls) ([], jzero) db).
  rewrite processLines_spec.
  destruct (specLines (items db) (l :: ls) ([], jzero))
    as [acc stock|r stock|e stock] eqn:Hlines.
  - unfold create_order. simpl.
    destruct (paymentTypeToId pt) as [type_id|]; run_handler;
      [|intros [= <- <-]; done].
    destruct (ObjectId_isValid acting); run_handler; [|intros [= <- <-]; done].
    unfold findPopulated, findById. run_handler.
    destruct (ObjectId_isValid new_id); run_handler; [|intros [= <- <-]; done].
    rewrite lookup_insert_eq. simpl. intros [= <- <-] _.
    exists sid, (l :: ls), pt, type_id, a, acc, stock. done.
  - intros [= <- <-] Hst. apply specLines_stopped_status in Hlines.
    rewrite Hlines in Hst. done.
  - intros [= <- <-]; done.
Qed.

(** After the checks, a loop that stops decides the answer, and the store
    is the one the loop leaves. *)
Lemma placeOrder_loop_stops (new_id acting : string) (b : OrderReq) (db : Db)
    (lines : list LineReq) :
  passesChecks b db lines →
  match specLines (items db) lines ([], jzero) with
  | Completed _ _ => True
  | Stopped r stock =>
      placeOrder new_id acting b db = (r, set_items (fun _ => stock) db)
  | Crashed e stock =>
      placeOrder new_id acting b db = (InternalError e, set_items (fun _ => stock) db)
  end.
Proof.
  intros (sid & ptype & amount & shp & Hsid & Hitems & Hne & Hpt & Hvalid & Ham
          & Hneg & Hcast & Hshop & Hactive).
  pose proof (processLines_spec lines ([], jzero) db) as Hspec.
  destruct (specLines (items db) lines ([], jzero)) as [acc stock|r stock|e stock];
    [done| |].
  all: unfold placeOrder, try_catch, placeOrder_body.
  all: rewrite Hsid, Hitems; destruct lines as [|l ls]; [done|].
  all: rewrite Hpt, Ham; run_handler; rewrite bool_decide_true by done.
  all: rewrite Hneg; unfold findById at 1; rewrite Hcast, Hshop; run_handler.
  all: rewrite Hactive; run_handler.
  all: by rewrite Hspec.
Qed.

(** A run of accepted lines only moves the loop forward, to the stock its
    decrements leave. *)
Lemma checkLine_accepted_decrement (stock : gmap string Item) (line : LineReq)
    (pid : string) (prod : Item) (qty : num) :
  checkLine stock line = LineAccepted pid prod qty →
  productId line = Some pid ∧ req_quantity line = Val qty ∧
  stock !! pid = Some prod ∧ jlt qty jone = false ∧
  jlt (quantity prod) qty = false ∧
  decrementLine stock line = decrement pid qty stock.
Proof.
  unfold checkLine, decrementLine, nonempty.
  destruct (productId line) as [p|]; simpl; [|done].
  destruct (negb (String.eqb p "")); [|done].
  destruct (req_quantity line) as [| |q]; try done.
  destruct (jlt q jone) eqn:Hone; [done|].
  destruct (negb (ObjectId_isValid p)); [done|].
  destruct (stock !! p) as [it|] eqn:Hit; [|done].
  destruct (jlt (quantity it) q) eqn:Hlt; [done|].
  by intros [= <- <- <-].
Qed.

Lemma specLines_accepted_prefix (stock : gmap string Item) (pre rest : list LineReq)
    (acc : list OrderLine * num) :
  acceptsAll stock pre = true →
  ∃ acc', specLines stock (pre ++ rest) acc
          = specLines (stockAfter pre stock) rest acc'.
Proof.
  revert stock acc. induction pre as [|line pre IH]; intros stock acc; simpl.
  - by exists acc.
  - destruct (checkLine stock line) as [pid prod qty| |] eqn:Hc; try done.
    intros Hall. apply checkLine_accepted_decrement in Hc as (_ & _ & _ & _ & _ & Hd).
    rewrite Hd in Hall |- *. by apply IH.
Qed.

(** A request that passes the checks and whose lines are all accepted in
    sequence is answered 201, with the stock all its decrements leave. *)
Lemma placeOrder_succeeds (new_id acting : string) (b : OrderReq) (db : Db)
    (lines : list LineReq) :
  passesChecks b db lines →
  acceptsAll (items db) lines = true →
  ObjectId_isValid acting = true → ObjectId_isValid new_id = true →
  ∃ resp db', placeOrder new_id acting b db = (resp, db') ∧
              status resp = 201 ∧ items db' = stockAfter lines (items db).
Proof.
  intros (sid & ptype & amount & shp & Hsid & Hitems & Hne & Hpt & Hvalid & Ham
          & Hneg & Hcast & Hshop & Hactive) Hall Hacting Hnew.
  destruct (specLines_accepted_prefix _ lines [] ([], jzero) Hall) as [acc Hrun].
  rewrite app_nil_r in Hrun. simpl in Hrun.
  pose proof (processLines_spec lines ([], jzero) db) as Hspec.
  rewrite Hrun in Hspec.
  assert (is_Some (paymentTypeToId ptype)) as [type_id Htype].
  { unfold validPaymentTypes in Hvalid.
    apply elem_of_cons in Hvalid as [->|Hvalid]; [by eexists|].
    apply elem_of_cons in Hvalid as [->|Hvalid]; [by eexists|].
    apply list_elem_of_singleton in Hvalid as ->. by eexists. }
  unfold placeOrder, try_catch, placeOrder_body.
  rewrite Hsid, Hitems; destruct lines as [|l ls]; [done|].
  rewrite Hpt, Ham; run_handler; rewrite bool_decide_true by done.
  rewrite Hneg; unfold findById at 1; rewrite Hcast, Hshop; run_handler.
  rewrite Hactive; run_handler. rewrite Hspec.
  unfold create_order. run_handler. rewrite Htype, Hacting. run_handler.
  unfold findPopulated, findById. run_handler. rewrite Hnew. run_handler.
  by do 2 eexists.
Qed.


(** The decrement of one product leaves names and prices as they were. *)
Lemma decrement_lookup (pid p : string) (qty : num) (stock : gmap string Item)
    (prod' : Item) :
  decrement pid qty stock !! p = Some prod' →
  ∃ prod, stock !! p = Some prod ∧ price prod = price prod'
          ∧ item_name prod = item_name prod'.
Proof.
  unfold decrement. rewrite lookup_alter. case_decide as Hp.
  - subst p. destruct (stock !! pid) as [prod|]; [|done]. simpl.
    intros [= <-]. by exists prod.
  - intros ->. by eexists.
Qed.

(** What a completed loop has accumulated: one record per request line,
    in order, each priced at the product's price, and the running total
    of their line totals. *)
Lemma specLines_completed (stock stock' : gmap string Item) (lines : list LineReq)
    (acc acc' : list OrderLine * num) :
  specLines stock lines acc = Completed acc' stock' →
  ∃ new,
    acc'.1 = acc.1 ++ new ∧
    acc'.2 = fold_left (fun total l => jadd total (lineTotal l)) new acc.2 ∧
    Forall2 (fun req l => productId req = Some (product l)
                          ∧ req_quantity req = Val (line_quantity l)) lines new ∧
    Forall (fun l => lineTotal l = jmul (line_quantity l) (unitPrice l)
                     ∧ ∃ prod, stock !! product l = Some prod
                               ∧ unitPrice l = price prod
                               ∧ productName l = item_name prod) new.
Proof.
  revert stock acc. induction lines as [|line rest IH]; intros stock acc; simpl.
  - intros [= <- <-]. exists []. by rewrite app_nil_r.
  - destruct (checkLine stock line) as [pid prod qty| |] eqn:Hc; try done.
    intros Hrest. apply IH in Hrest as (new & H1 & H2 & H3 & H4).
    apply checkLine_accepted_decrement in Hc as (Hpid & Hq & Hprod & _).
    exists (lineRecord pid prod qty :: new). simpl in *.
    rewrite H1, H2, <- app_assoc. repeat split; try done.
    + by constructor.
    + constructor; [by eauto|].
      eapply Forall_impl; [exact H4|]. simpl.
      intros l (Ht & prod' & Hl & Hp & Hn).
      apply decrement_lookup in Hl as (prod0 & Hl & Hp0 & Hn0).
      split; [done|]. exists prod0. by rewrite Hp0, Hn0.
Qed.

(** The amended C4. For every order [placeOrder] creates, in whatever
    arithmetic the Numbers are computed: the stored order has one line per
    requested line, each [lineTotal] is the product [quantity * unitPrice]
    of that arithmetic with [unitPrice] the price of the product, and
    [totalAmount] is the running sum [totalAmount += lineTotal] of the
    lines, taken from 0 in the order of the lines. *)
Theorem placeOrder_total_is_accumulated (new_id acting : string) (b : OrderReq)
    (db db' : Db) (resp : Response OrderBody) :
  placeOrder new_id acting b db = (resp, db') →
  status resp = 201 →
  ∃ lines o,
    req_items b = Some lines ∧
    orders db' !! new_id = Some o ∧
    Forall2 (fun req l => productId req = Some (product l)
                          ∧ req_quantity req = Val (line_quantity l))
            lines (orderLines o) ∧
    Forall (fun l => lineTotal l = jmul (line_quantity l) (unitPrice l)
                     ∧ ∃ prod, items db !! product l = Some prod
                               ∧ unitPrice l = price prod) (orderLines o) ∧
    totalAmount o = accumulate (orderLines o).
Proof.
  intros Hrun Hst.
  destruct (placeOrder_created _ _ _ _ _ _ Hrun Hst)
    as (sid & lines & ptype & type_id & amount & acc & stock & Hitems & Hloop
        & Hdb & _).
  apply specLines_completed in Hloop as (new & H1 & H2 & H3 & H4).
  simpl in H1, H2. subst db'.
  exists lines, (orderOf acting sid ptype type_id amount acc).
  simpl. rewrite lookup_insert_eq, H1. repeat split; try done.
  eapply Forall_impl; [exact H4|]. simpl.
  intros l (Ht & prod & Hl & Hp & _). eauto.
Qed.

(** X27. The payment route on every value a body can hold in
    [amountPaid]: a malformed order id, and a value of which [Number]
    makes no number or a negative one ([undefined] and [null] among
    them), are answered with a validation error, an unknown order with
    OrderNotFound, an amount above the order's total with a validation
    error, and the store is as it was in all four cases; otherwise the
    number [Number] made of the value is stored in place of the old amount,
    and a second call with the same value gives the same answer and the
    same store. *)
Theorem recordPayment_replaces (orderId : string) (v : jsvalue num) (db : Db) :
  (ObjectId_isValid orderId = false →
   recordPayment orderId v db = (ValidationError msg_order_id, db)) ∧
  (ObjectId_isValid orderId = true → acceptedAmount v = None →
   recordPayment orderId v db = (ValidationError msg_amount_paid, db)) ∧
  (∀ a, ObjectId_isValid orderId = true → acceptedAmount v = Some a →
        orders db !! orderId = None →
        recordPayment orderId v db = (OrderNotFound, db)) ∧
  (∀ a o, ObjectId_isValid orderId = true → acceptedAmount v = Some a →
          orders db !! orderId = Some o → jlt (totalAmount o) a = true →
          recordPayment orderId v db = (ValidationError msg_amount_exceeds, db)) ∧
  (∀ a o, ObjectId_isValid orderId = true → acceptedAmount v = Some a →
          orders db !! orderId = Some o → jlt (totalAmount o) a = false →
          ∃ resp db',
            recordPayment orderId v db = (resp, db') ∧ status resp = 200 ∧
            db' = set_orders (insert orderId (set_amountPaid a o)) db ∧
            amountPaid <$> orders db' !! orderId = Some a ∧
            recordPayment orderId v db' = (resp, db')).
Proof.
  unfold recordPayment, try_catch, recordPayment_body, acceptedAmount.
  repeat split.
  - intros ->. by run_handler.
  - intros -> Hv. run_handler. by rewrite Hv.
  - intros a Hid Hv Ho. rewrite Hid. run_handler. rewrite Hv.
    unfold findById. run_handler. by rewrite Hid, Ho.
  - intros a o Hid Hv Ho Hlt. rewrite Hid. run_handler. rewrite Hv.
    unfold findById. run_handler. rewrite Hid, Ho. run_handler. by rewrite Hlt.
  - intros a o Hid Hv Ho Hlt. rewrite Hid. run_handler. rewrite Hv.
    unfold findPopulated, findById. run_handler. rewrite Hid, Ho. run_handler.
    rewrite Hlt. run_handler. rewrite !lookup_insert_eq. run_handler.
    do 2 eexists. split; [reflexivity|]. split; [done|]. split; [done|].
    simpl. rewrite !lookup_insert_eq. split; [done|]. run_handler.
    rewrite Hlt. run_handler. rewrite !lookup_insert_eq. simpl.
    unfold set_orders. simpl. by rewrite insert_insert_eq.
Qed.

End OrderFacts.

(** C5. Code and claim part on an [amountPaid] that is no number. The
    route tests [Number(amountPaid)], so on the demo order (total 500, 300
    paid) the body [{ amountPaid: true }] is answered 200 and stores 1,
    and [false], the empty string and the empty array are answered 200
    and store 0, where the claim has a validation error and the order
    unchanged. *)
Theorem recordPayment_takes_non_numbers :
  @amountPaid Exact <$> orders demo_paid !! oid1 = Some 300 ∧
  demo_payment (JBool true) = (200, Some 1) ∧
  demo_payment (JBool false) = (200, Some 0) ∧
  demo_payment (JStr EmptyString) = (200, Some 0) ∧
  demo_payment (JObj EmptyString) = (200, Some 0).
Proof. by vm_compute. Qed.

(* --------------------------------------------------------------------- *)
(** *** The stock after the loop, in whatever arithmetic *)
(* --------------------------------------------------------------------- *)

Section StockFacts.
Context {JN : JsNumber} {E : Externals}.

(** A completed loop leaves of every product what [remaining] says, and
    nothing else of the product is changed. *)
Lemma specLines_remaining (stock stock' : gmap string Item) (lines : list LineReq)
    (acc acc' : list OrderLine * num) (pid : string) :
  specLines stock lines acc = Completed acc' stock' →
  stock' !! pid
  = (fun prod => {| item_name := item_name prod;
                    categoryType := categoryType prod;
                    price := price prod;
                    quantity := remaining pid lines (quantity prod) |})
    <$> stock !! pid.
Proof.
  revert stock acc. induction lines as [|line rest IH]; intros stock acc;
    cbn [specLines].
  - intros [= <- <-]. by destruct (stock !! pid) as [[]|].
  - destruct (checkLine stock line) as [p prod qty| |] eqn:Hc; try done.
    intros Hrest. rewrite (IH _ _ Hrest).
    apply checkLine_accepted_decrement in Hc as (Hp & Hq & Hprod & _).
    unfold remaining. cbn [fold_left]. rewrite Hp, Hq.
    unfold decrement. rewrite lookup_alter. case_decide as Hpid.
    + subst p. by rewrite String.eqb_refl, Hprod.
    + apply String.eqb_neq in Hpid. by rewrite Hpid.
Qed.

(** In a completed loop every line asked for at least 1 and passed the
    sufficiency check against what the lines before it had left. *)
Lemma specLines_guarded (stock stock' : gmap string Item) (lines : list LineReq)
    (acc acc' : list OrderLine * num) (k : nat) (line : LineReq) (pid : string)
    (q : num) (prod : Item) :
  specLines stock lines acc = Completed acc' stock' →
  lines !! k = Some line → productId line = Some pid →
  req_quantity line = Val q → stock !! pid = Some prod →
  jlt q jone = false ∧
  jlt (remaining pid (take k lines) (quantity prod)) q = false.
Proof.
  revert stock acc k prod.
  induction lines as [|head rest IH]; intros stock acc k prod; [done|].
  cbn [specLines].
  destruct (checkLine stock head) as [p prod0 qty| |] eqn:Hc; try done.
  apply checkLine_accepted_decrement in Hc as (Hp & Hq & Hprod & Hone & Hlt & _).
  intros Hrest Hk Hpid Hval Hstock. destruct k as [|k].
  - injection Hk as <-. rewrite Hp in Hpid. injection Hpid as ->.
    rewrite Hq in Hval. injection Hval as ->.
    rewrite Hprod in Hstock. injection Hstock as ->. done.
  - cbn [take]. unfold remaining. cbn [fold_left]. rewrite Hp, Hq.
    destruct (String.eqb_spec p pid) as [->|Hne].
    + rewrite Hprod in Hstock. injection Hstock as ->.
      apply (IH (decrement pid qty stock) _ k
               (set_quantity (jsub (quantity prod) qty) prod) Hrest Hk Hpid Hval).
      unfold decrement. by rewrite lookup_alter_eq, Hprod.
    + apply (IH (decrement p qty stock) _ k prod Hrest Hk Hpid Hval).
      unfold decrement. by rewrite lookup_alter_ne.
Qed.

(** However the loop ends, it leaves no stock negative that was not, as
    long as a subtraction whose first operand is not below the second
    gives no negative number. *)
Lemma specLines_sign (stock : gmap string Item) (lines : list LineReq)
    (acc : list OrderLine * num) :
  (∀ x y, jlt x y = false → jlt (jsub x y) jzero = false) →
  (∀ pid prod, stock !! pid = Some prod → jlt (quantity prod) jzero = false) →
  ∀ pid prod, outcomeStock (specLines stock lines acc) !! pid = Some prod →
              jlt (quantity prod) jzero = false.
Proof.
  intros Hlaw. revert stock acc.
  induction lines as [|line rest IH]; intros stock acc Hpos; cbn [specLines];
    [exact Hpos|].
  destruct (checkLine stock line) as [p prod qty| |] eqn:Hc; try exact Hpos.
  apply checkLine_accepted_decrement in Hc as (_ & _ & Hprod & _ & Hlt & _).
  apply IH. intros pid prod'. unfold decrement. rewrite lookup_alter.
  case_decide as Hpid; [|apply Hpos].
  subst p. rewrite Hprod. intros [= <-]. by apply Hlaw.
Qed.

(** The amended C3. For every order [placeOrder] creates, in whatever
    arithmetic the Numbers are computed: each product is what it was
    before the call but for its quantity, which is the quantity before
    with the quantities of the lines that name the product subtracted one
    after the other, in the order of the lines, in that arithmetic; every
    line asked for at least 1 and passed its sufficiency check against
    what the lines before it had left; and, a guarded subtraction giving
    no negative number, no quantity is negative after the call if none
    was before. *)
Theorem placeOrder_stock_subtracted (new_id acting : string) (b : OrderReq)
    (db db' : Db) (resp : Response OrderBody) :
  placeOrder new_id acting b db = (resp, db') →
  status resp = 201 →
  ∃ lines,
    req_items b = Some lines ∧
    (∀ pid, items db' !! pid
            = (fun prod => {| item_name := item_name prod;
                              categoryType := categoryType prod;
                              price := price prod;
                              quantity := remaining pid lines (quantity prod) |})
              <$> items db !! pid) ∧
    (∀ k line pid q prod,
       lines !! k = Some line → productId line = Some pid →
       req_quantity line = Val q → items db !! pid = Some prod →
       jlt q jone = false ∧
       jlt (remaining pid (take k lines) (quantity prod)) q = false) ∧
    ((∀ x y, jlt x y = false → jlt (jsub x y) jzero = false) →
     (∀ pid prod, items db !! pid = Some prod →
                  jlt (quantity prod) jzero = false) →
     ∀ pid prod, items db' !! pid = Some prod →
                 jlt (quantity prod) jzero = false).
Proof.
  intros Hrun Hst.
  destruct (placeOrder_created _ _ _ _ _ _ Hrun Hst)
    as (sid & lines & ptype & type_id & amount & acc & stock & Hitems & Hloop
        & Hdb & _).
  exists lines. subst db'. cbn [items set_orders set_items].
  split; [done|]. split; [|split].
  - intros pid. by eapply specLines_remaining.
  - intros k line pid q prod. by eapply specLines_guarded.
  - intros Hlaw Hpos pid prod.
    pose proof (specLines_sign (items db) lines ([], jzero) Hlaw Hpos pid prod)
      as Hsign.
    rewrite Hloop in Hsign. exact Hsign.
Qed.

End StockFacts.

(* --------------------------------------------------------------------- *)
(** *** Stock and totals over the integers *)
(* --------------------------------------------------------------------- *)

Section ExactFacts.
Context {E : Externals}.
Local Existing Instance Exact.

(** Over the integers the subtractions add up: what is left is the stock
    less the sum of the quantities asked for. *)
Lemma remaining_exact (pid : string) (lines : list LineReq) (q : Z) :
  remaining pid lines q = q - requested pid lines.
Proof.
  unfold remaining. revert q.
  induction lines as [|line rest IH]; intros q; cbn [fold_left requested foldr];
    [lia|].
  rewrite IH. fold (requested pid rest).
  destruct (productId line) as [p|]; [|done].
  destruct (req_quantity line) as [| |n]; try done.
  destruct (String.eqb p pid); simpl; lia.
Qed.

Lemma accumulate_from (lines : list OrderLine) (start : Z) :
  fold_left (fun total l => jadd total (lineTotal l)) lines start
  = start + foldr (fun l total => lineTotal l + total) 0 lines.
Proof.
  revert start. induction lines as [|l ls IH]; intros start; simpl; [lia|].
  rewrite IH. lia.
Qed.

(** Over the integers the running sum is the exact sum. *)
Lemma accumulate_exact (lines : list OrderLine) :
  Forall (fun l => lineTotal l = jmul (line_quantity l) (unitPrice l)) lines →
  accumulate lines = exactTotal lines.
Proof.
  unfold accumulate. rewrite accumulate_from. simpl.
  induction 1 as [|l ls Hl _ IH]; simpl in *; [done|]. rewrite Hl. lia.
Qed.

End ExactFacts.

(* --------------------------------------------------------------------- *)
(** *** Guarded subtraction in binary64 *)
(* --------------------------------------------------------------------- *)

Section SpecFloatSign.
Variables pr em : Z.
Hypothesis pr_pos : 0 < pr.

Lemma digits2_pos_bounds (m : positive) :
  2 ^ (Z.pos (digits2_pos m) - 1) <= Z.pos m < 2 ^ Z.pos (digits2_pos m).
Proof.
  induction m as [p IH|p IH|]; cbn [digits2_pos].
  - rewrite Pos2Z.inj_succ.
    replace (Z.succ (Z.pos (digits2_pos p)) - 1)
      with (Z.succ (Z.pos (digits2_pos p) - 1)) by lia.
    rewrite !Z.pow_succ_r by lia. lia.
  - rewrite Pos2Z.inj_succ.
    replace (Z.succ (Z.pos (digits2_pos p)) - 1)
      with (Z.succ (Z.pos (digits2_pos p) - 1)) by lia.
    rewrite !Z.pow_succ_r by lia. lia.
  - change (2 ^ (1 - 1)) with 1. change (2 ^ 1) with 2. lia.
Qed.

Lemma shl_align_value (m : positive) (e e' : Z) :
  e' <= e → Z.pos (fst (shl_align m e e')) = Z.pos m * 2 ^ (e - e').
Proof.
  intros He. unfold shl_align. destruct (e' - e) as [|d|d] eqn:Hd.
  - replace (e - e') with 0 by lia. simpl. lia.
  - lia.
  - replace (e - e') with (Z.pos d) by lia. cbn [fst].
    change (Pos.iter xO m d) with (shift_pos d m).
    rewrite shift_pos_correct. change (Z.pow_pos 2 d) with (2 ^ Z.pos d). lia.
Qed.

(** What validity says of a finite number: the mantissa has at most [pr]
    digits, and exactly [pr] above the least exponent. *)
Lemma bounded_mantissa (m : positive) (e : Z) :
  bounded pr em m e = true →
  emin pr em <= e ∧ Z.pos m < 2 ^ pr ∧
  (emin pr em < e → 2 ^ (pr - 1) <= Z.pos m).
Proof.
  unfold bounded, canonical_mantissa, fexp.
  intros [Hc _]%andb_true_iff. apply Z.eqb_eq in Hc.
  pose proof (digits2_pos_bounds m) as [Hlo Hhi].
  assert (Z.pos (digits2_pos m) <= pr) as Hd by lia.
  split; [lia|]. split.
  - eapply Z.lt_le_trans; [exact Hhi|]. apply Z.pow_le_mono_r; lia.
  - intros He. replace pr with (Z.pos (digits2_pos m)) by lia. exact Hlo.
Qed.

Lemma binary_round_aux_sign (mx ex : Z) (lx : location) :
  SFltb (binary_round_aux pr em false mx ex lx) (S754_zero false) = false.
Proof.
  unfold binary_round_aux.
  destruct (shr_fexp pr em mx ex lx) as [mrs' e'].
  destruct (shr_fexp pr em _ e' loc_Exact) as [mrs'' e''].
  destruct (shr_m mrs'') as [|m|m]; [done| |done].
  by destruct (e'' <=? em - pr).
Qed.

Lemma binary_normalize_sign (m e : Z) :
  0 <= m →
  SFltb (binary_normalize pr em m e false) (S754_zero false) = false.
Proof.
  intros Hm. destruct m as [|p|p]; [done| |lia].
  unfold binary_normalize, binary_round.
  destruct (shl_align p e _) as [mz ez]. apply binary_round_aux_sign.
Qed.

(** Of two finite numbers with the first at the larger exponent, the
    first has the larger magnitude. *)
Lemma aligned_magnitudes (mx my : positive) (ex ey : Z) :
  bounded pr em mx ex = true → bounded pr em my ey = true →
  ey < ex → Z.pos my <= Z.pos mx * 2 ^ (ex - ey).
Proof using pr_pos.
  intros (_ & _ & Hx)%bounded_mantissa (Hey & Hy & _)%bounded_mantissa Hlt.
  specialize (Hx ltac:(lia)).
  assert (2 <= 2 ^ (ex - ey)) as Hp.
  { change 2 with (2 ^ 1) at 1. apply Z.pow_le_mono_r; lia. }
  assert (2 ^ pr = 2 * 2 ^ (pr - 1)) as Hq.
  { rewrite <- Z.pow_succ_r by lia. f_equal. lia. }
  nia.
Qed.

Lemma SFsub_sign (x y : spec_float) :
  SpecFloat.valid_binary pr em x = true → SpecFloat.valid_binary pr em y = true →
  SFltb x y = false →
  SFltb (SFsub pr em x y) (S754_zero false) = false.
Proof using pr_pos.
  destruct x as [sx|sx| |sx mx ex], y as [sy|sy| |sy my ey];
    try done; try (by destruct sx); try (by destruct sy);
    try (by destruct sx, sy).
  intros Hx Hy Hlt. cbn [valid_binary] in Hx, Hy. unfold SFsub.
  apply binary_normalize_sign.
  rewrite !shl_align_value by lia.
  unfold SFltb, SFcompare in Hlt.
  destruct sx, sy; cbn [cond_Zopp]; try done; [| |].
  - destruct (Z.compare_spec ex ey) as [->|He|He]; try done.
    + rewrite Z.min_id, Z.sub_diag, !Z.mul_1_r.
      destruct (Pos.compare_cont Eq mx my) eqn:Hc; try done;
        fold (Pos.compare mx my) in Hc.
      * apply Pos.compare_eq in Hc as ->. lia.
      * change ((mx < my)%positive) in Hc. lia.
    + rewrite Z.min_l by lia. rewrite Z.sub_diag, Z.mul_1_r.
      pose proof (aligned_magnitudes my mx ey ex Hy Hx He). lia.
  - assert (0 < 2 ^ (ex - Z.min ex ey)) by (apply Z.pow_pos_nonneg; lia).
    assert (0 < 2 ^ (ey - Z.min ex ey)) by (apply Z.pow_pos_nonneg; lia).
    nia.
  - destruct (Z.compare_spec ex ey) as [->|He|He]; try done.
    + rewrite Z.min_id, Z.sub_diag, !Z.mul_1_r.
      destruct (Pos.compare_cont Eq mx my) eqn:Hc; try done;
        fold (Pos.compare mx my) in Hc.
      * apply Pos.compare_eq in Hc as ->. lia.
      * apply Pos.compare_gt_iff in Hc. change ((my < mx)%positive) in Hc. lia.
    + rewrite Z.min_r by lia. rewrite Z.sub_diag, Z.mul_1_r.
      pose proof (aligned_magnitudes mx my ex ey Hx Hy He). lia.
Qed.

End SpecFloatSign.

(** In binary64 a subtraction whose first operand is not below the second
    gives no negative number (it may give [NaN], which is below
    nothing). *)
Lemma Binary64_sub_guarded (x y : float) :
  @jlt Binary64 x y = false →
  @jlt Binary64 (@jsub Binary64 x y) (@jzero Binary64) = false.
Proof.
  cbn [jlt jsub jzero Binary64]. rewrite !ltb_spec, sub_spec. intros Hlt.
  change (Prim2SF PrimFloat.zero) with (S754_zero false).
  apply (SFsub_sign prec emax); [done|apply Prim2SF_valid..|done].
Qed.


(* --------------------------------------------------------------------- *)
(** *** Totals in binary64 *)
(* --------------------------------------------------------------------- *)

(** C4 as stated fails on the code: the handler adds and multiplies
    JavaScript Numbers, that is binary64 values, and makes no conversion
    to cents or integers. One unit each of two products priced 0.1 and 0.2
    gives an order whose [totalAmount] is 0.30000000000000004, which is
    not the exact sum of quantity times unit price of its lines. *)
Lemma placeOrder_total_drifts :
  status drift_placed.1 = 201 ∧
  ∃ o, orders drift_placed.2 !! oid1 = Some o ∧ ¬ totalIsExact64 o.
Proof.
  split; [by vm_compute|].
  eexists. split; [by vm_compute|].
  unfold totalIsExact64. vm_compute. discriminate.
Qed.

(** The counterexample to C3 as stated. With 10 of P1 in stock, an order
    for 1.1 of it (the nearest double) is accepted, and the stock it leaves
    is the double nearest to 10 - 1.1; the difference between 10 and that
    double is not the quantity ordered: the decrement is not exactly what
    was requested. *)
Lemma placeOrder_decrement_drifts :
  status frac_placed.1 = 201 ∧
  ∃ prod prod',
    items frac_db !! pid1 = Some prod ∧
    items frac_placed.2 !! pid1 = Some prod' ∧
    quantity prod = 10%float ∧
    ¬ decrementIsExact64 (quantity prod) (quantity prod') 0x1.199999999999ap+0.
Proof.
  split; [by vm_compute|].
  do 2 eexists. split; [by vm_compute|]. split; [by vm_compute|].
  split; [done|]. unfold decrementIsExact64. vm_compute. discriminate.
Qed.

(* --------------------------------------------------------------------- *)
(** *** Authorization Gate *)
(* --------------------------------------------------------------------- *)

Section GateFacts.
Context {E : Externals}.

(** The middleware of src/middleware/authMiddleware.js attaches whatever
    the token decodes to; the users collection is not among its inputs. *)
Lemma verifyAccessToken_attaches_decoded (now : Z) (req : Request)
    (authHeader token : string) (decoded : Payload) :
  nonempty (authorization req) = Some authHeader →
  String.prefix "Bearer " authHeader = true →
  bearer_token authHeader = Some token →
  jwt_verify token ACCESS_TOKEN_SECRET now = Some decoded →
  verifyAccessToken now req
  = Next {| authorization := authorization req; user := Some decoded |}.
Proof.
  intros Hh Hp Ht Hv. unfold verifyAccessToken. by rewrite Hh, Hp, Ht, Hv.
Qed.

(** The copy of the middleware in src/unnamed/part_003 lets a request
    through only for an existing, active user, and attaches that user's
    id and role. *)
Lemma verifyAccessToken_resolving_next (now : Z) (us : list User)
    (req req' : Request) :
  verifyAccessToken_resolving now us req = Next req' →
  ∃ u, u ∈ us ∧ isActive u = true ∧
       user req' = Some {| tok_id := user_id u; tok_role := Some (role u) |}.
Proof.
  unfold verifyAccessToken_resolving, findUserById.
  destruct (nonempty (authorization req)) as [h|]; [|done].
  destruct (String.prefix "Bearer " h); [|done].
  destruct (bearer_token h) as [token|]; [|done].
  destruct (jwt_verify token ACCESS_TOKEN_SECRET now) as [decoded|]; [|done].
  destruct (ObjectId_isValid (tok_id decoded)); [|done].
  destruct (List.find _ us) as [u|] eqn:Hfind; [|done].
  destruct (isActive u) eqn:Hactive; [|done]. simpl.
  intros [= <-]. exists u. split; [|done].
  apply find_some in Hfind as [Hin _]. by apply list_elem_of_In.
Qed.

(** With that copy, a token of a deleted account is answered UserNotFound
    and a token of a blocked account AccountBlocked. *)
Lemma verifyAccessToken_resolving_rejects (now : Z) (us : list User)
    (req : Request) (authHeader token : string) (decoded : Payload) :
  nonempty (authorization req) = Some authHeader →
  String.prefix "Bearer " authHeader = true →
  bearer_token authHeader = Some token →
  jwt_verify token ACCESS_TOKEN_SECRET now = Some decoded →
  match findUserById (tok_id decoded) us with
  | Some None => verifyAccessToken_resolving now us req = Respond UserNotFound
  | Some (Some u) =>
      isActive u = false →
      verifyAccessToken_resolving now us req = Respond AccountBlocked
  | None => verifyAccessToken_resolving now us req = Respond InvalidToken
  end.
Proof.
  intros Hh Hp Ht Hv. unfold verifyAccessToken_resolving.
  rewrite Hh, Hp, Ht, Hv.
  destruct (findUserById (tok_id decoded) us) as [[u|]|]; try done.
  by intros ->.
Qed.

End GateFacts.

(** C1 on the code of src/middleware/authMiddleware.js. A request with a
    valid access token of a blocked account, or of an account that is no
    longer in the users collection, passes [verifyAccessToken] and
    [checkRole] and reaches the route body; the other copy of the
    middleware answers AccountBlocked and UserNotFound on the same
    requests. *)
Theorem gate_passes_blocked_account :
  let roles := ["admin"; "salesman"] in
  let blocked := [demo_user false] in
  let deleted : list User := [] in
  @findUserById demo uid1 blocked = Some (Some (demo_user false)) ∧
  @findUserById demo uid1 deleted = Some None ∧
  reaches_body (through (@verifyAccessToken demo 0) roles demo_request) = true ∧
  through (@verifyAccessToken_resolving demo 0 blocked) roles demo_request
    = Respond AccountBlocked ∧
  through (@verifyAccessToken_resolving demo 0 deleted) roles demo_request
    = Respond UserNotFound.
Proof. by vm_compute. Qed.

(* --------------------------------------------------------------------- *)
(** *** Auth Service *)
(* --------------------------------------------------------------------- *)

Lemma nonempty_Some (s : string) : s ≠ "" → nonempty (Some s) = Some s.
Proof.
  intros Hs. unfold nonempty, truthy.
  destruct (String.eqb_spec s ""); [done|]. reflexivity.
Qed.

(** Saving a user found by e-mail keeps it the answer of the same query. *)
Lemma findOne_email_save_user (e : string) (us : list User) (u u' : User) :
  findOne_email (Some e) us = Some u →
  user_id u' = user_id u → email u' = Some e →
  findOne_email (Some e) (save_user u' us) = Some u'.
Proof.
  unfold findOne_email, save_user. intros Hfind Hid Hmail.
  induction us as [|v rest IH]; simpl in *; [done|].
  destruct (String.eqb_spec (user_id v) (user_id u')) as [Hv|Hv]; simpl.
  - by rewrite bool_decide_true.
  - case_bool_decide as Hve.
    + injection Hfind as ->. by rewrite Hid in Hv.
    + by apply IH.
Qed.

(** Saving a user found by id keeps it the answer of the same query. *)
Lemma findUserById_save_user `{Externals} (id : string) (us : list User) (u u' : User) :
  findUserById id us = Some (Some u) →
  user_id u' = user_id u →
  findUserById id (save_user u' us) = Some (Some u').
Proof.
  unfold findUserById, save_user. destruct (ObjectId_isValid id); [|done].
  intros [= Hfind] Hid. f_equal.
  pose proof (find_some _ _ Hfind) as [_ Hu]. apply String.eqb_eq in Hu.
  induction us as [|v rest IH]; simpl in *; [done|].
  destruct (String.eqb_spec (user_id v) (user_id u')) as [Hv|Hv]; simpl.
  - by rewrite Hid, Hu, String.eqb_refl.
  - destruct (String.eqb_spec (user_id v) id) as [Hvi|Hvi]; [|by apply IH].
    injection Hfind as ->. by rewrite Hid in Hv.
Qed.

Lemma is_digit_of_digit (m : Z) :
  is_digit (Ascii.ascii_of_nat (48 + Z.to_nat (m mod 10))) = true.
Proof.
  pose proof (Z.mod_pos_bound m 10 ltac:(lia)) as Hm.
  unfold is_digit, code_of. rewrite Ascii.nat_ascii_embedding by lia.
  apply andb_true_iff. split; apply Nat.leb_le; lia.
Qed.

Lemma decimal_more (fuel : nat) (n : Z) (acc : string) :
  10 <= n →
  decimal (S fuel) n acc
  = decimal fuel (n / 10) (String (Ascii.ascii_of_nat (48 + Z.to_nat (n mod 10))) acc).
Proof. intros Hn. simpl. destruct (Z.ltb_spec n 10); [lia|done]. Qed.

Lemma decimal_last (fuel : nat) (n : Z) (acc : string) :
  n < 10 →
  decimal fuel n acc = String (Ascii.ascii_of_nat (48 + Z.to_nat (n mod 10))) acc.
Proof.
  intros Hn. destruct fuel; simpl; [done|].
  destruct (Z.ltb_spec n 10); [done|lia].
Qed.

(** A number of six digits prints as six digits. *)
Lemma toString_six_digits (n : Z) :
  100000 <= n <= 999999 → six_digits (toString n) = true.
Proof.
  intros Hn. unfold toString.
  assert (16 <= Z.log2 n) as Hlog.
  { change 16 with (Z.log2 100000). apply Z.log2_le_mono. lia. }
  assert (∃ k, Z.to_nat (Z.log2 n) = (5 + k)%nat) as [k ->].
  { exists (Z.to_nat (Z.log2 n) - 5)%nat. lia. }
  change (5 + k)%nat with (S (S (S (S (S k))))).
  assert (10000 <= n / 10 <= 99999) as H1.
  { Z.div_mod_to_equations. lia. }
  assert (1000 <= n / 10 / 10 <= 9999) as H2.
  { Z.div_mod_to_equations. lia. }
  assert (100 <= n / 10 / 10 / 10 <= 999) as H3.
  { Z.div_mod_to_equations. lia. }
  assert (10 <= n / 10 / 10 / 10 / 10 <= 99) as H4.
  { Z.div_mod_to_equations. lia. }
  assert (1 <= n / 10 / 10 / 10 / 10 / 10 <= 9) as H5.
  { Z.div_mod_to_equations. lia. }
  rewrite !decimal_more by lia. rewrite decimal_last by lia.
  unfold six_digits. cbn [String.length String.list_ascii_of_string forallb Nat.eqb andb].
  by rewrite !is_digit_of_digit.
Qed.

(** The reset code is a number of six digits for every draw in [0, 1). *)
Lemma generateResetCode_six_digits (random : Q) :
  (0 <= random)%Q → (random < 1)%Q →
  six_digits (generateResetCode random) = true.
Proof.
  intros H0 H1. apply toString_six_digits. unfold generateResetCode. split.
  - assert (inject_Z 100000 <= 100000 + random * 900000)%Q as H.
    { destruct random as [p q]. unfold Qle, Qlt, Qplus, Qmult, inject_Z in *.
      cbn [Qnum Qden] in *. lia. }
    apply Qfloor_resp_le in H. by rewrite Qfloor_Z in H.
  - assert (Qfloor (100000 + random * 900000) < 1000000); [|lia].
    rewrite Zlt_Qlt. eapply Qle_lt_trans; [apply Qfloor_le|].
    destruct random as [p q]. unfold Qle, Qlt, Qplus, Qmult, inject_Z in *.
    cbn [Qnum Qden] in *. lia.
Qed.

Lemma six_digits_nonempty (s : string) : six_digits s = true → s ≠ "".
Proof. by intros Hs ->. Qed.

Section AuthFacts.
Context {E : Externals}.

(** C10. Login on an existing account whose [isActive] is false answers
    AccountBlocked whatever password is supplied: the flag is tested after
    the lookup and before [bcrypt.compare], and nothing is written. *)
Theorem login_blocked_before_password (now : Z) (e pw : string)
    (us : list User) (u : User) :
  e ≠ "" → pw ≠ "" →
  findOne_email (Some e) us = Some u →
  isActive u = false →
  login now (Some {| li_email := Some e; li_password := Some pw |}) us
  = (LoginBlocked, us).
Proof.
  intros He Hpw Hu Hblocked. unfold login, try_catch, login_body. run_handler.
  rewrite (nonempty_Some e He), (nonempty_Some pw Hpw). run_handler.
  rewrite Hu. run_handler. by rewrite Hblocked.
Qed.

(** C9. A Signup that passes validation creates one user, and that user's
    role is admin whatever role the body carries; and whatever the body,
    Signup adds nothing or one admin to the users, never a salesman. *)
Theorem signup_always_admin (new_id salt : string) (b : SignupReq) (us : list User) :
  (validSignup b us →
   ∃ u, signup new_id salt (Some b) us
        = (mkResponse 201 (UserCreated "Admin user created successfully" u),
           us ++ [u])
        ∧ role u = "admin") ∧
  (∀ resp us', signup new_id salt (Some b) us = (resp, us') →
     (status resp ≠ 201 ∧ us' = us) ∨
     (status resp = 201 ∧ ∃ u, us' = us ++ [u] ∧ role u = "admin")).
Proof.
  unfold signup, try_catch, signup_body. split.
  - intros ([n Hn] & [p Hp] & [a Ha] & (pw & Hpw & Hpolicy) & Hfree).
    run_handler. rewrite Hn, Hp, Ha, Hpw. run_handler.
    rewrite Hpolicy. run_handler. rewrite Hfree. run_handler.
    by eexists.
  - intros resp us'. run_handler.
    destruct (nonempty (su_name b)); run_handler;
      [|intros [= <- <-]; by left].
    destruct (nonempty (su_phone b)); run_handler;
      [|intros [= <- <-]; by left].
    destruct (nonempty (su_address b)); run_handler;
      [|intros [= <- <-]; by left].
    destruct (nonempty (su_password b)); run_handler;
      [|intros [= <- <-]; by left].
    destruct (passwordRegex_test _); run_handler;
      [|intros [= <- <-]; by left].
    case_bool_decide; run_handler; intros [= <- <-]; [by left|].
    right. split; [done|]. by eexists.
Qed.

(** No step of the refresh handler throws. *)
Lemma refreshToken_body_never_throws (now : Z) (b : option (option string))
    (us us' : list User) (e : string) :
  refreshToken_body now b us ≠ Thrown e us'.
Proof.
  unfold refreshToken_body. run_handler.
  destruct b as [t|]; run_handler; [|done].
  destruct (nonempty t); run_handler; [|done].
  destruct (findOne_refreshToken _ us); run_handler; [|done].
  by destruct (jwt_verify _ _ _).
Qed.

(** C8. Refresh looks the user up by the stored refresh token; it answers
    403 when no user has the token and when the token does not verify;
    otherwise it answers a new access token for that user. In every case
    the users collection, and so every stored refresh token, is left as
    it was. *)
Theorem refresh_changes_nothing (now : Z) (b : option (option string))
    (us : list User) :
  (refresh now b us).2 = us ∧
  ∀ t, b = Some (Some t) → t ≠ "" →
    (refresh now b us).1 =
    match findOne_refreshToken t us with
    | None => InvalidRefreshToken
    | Some u =>
        match jwt_verify t REFRESH_TOKEN_SECRET now with
        | None => InvalidOrExpiredRefreshToken
        | Some _ => mkResponse 200 (AccessToken (generateAccessToken now u))
        end
    end.
Proof.
  unfold refresh, try_catch, refreshToken_body. split.
  - run_handler. destruct b as [t|]; run_handler; [|done].
    destruct (nonempty t); run_handler; [|done].
    destruct (findOne_refreshToken _ us); run_handler; [|done].
    by destruct (jwt_verify _ _ _).
  - intros t -> Ht. run_handler. rewrite (nonempty_Some t Ht). run_handler.
    destruct (findOne_refreshToken t us); run_handler; [|done].
    by destruct (jwt_verify _ _ _).
Qed.

(** The amended C7. Change Password validates the new password against
    the policy first and answers WeakPassword on failure, whatever the old
    password; only then does it load the user and compare the old
    password, answering with the incorrect-old-password error on
    mismatch; nothing is written in either case. On success the new hash
    is stored and the stored refresh token is set to null. *)
Theorem changePassword_policy_then_old (salt acting old new : string)
    (us : list User) :
  old ≠ "" → new ≠ "" →
  let call := changePassword salt acting
                (Some {| oldPassword := Some old; newPassword := Some new |}) us in
  (passwordRegex_test new = false → call = (WeakPassword msg_weak_new, us)) ∧
  (∀ u, passwordRegex_test new = true →
        findUserById acting us = Some (Some u) →
        bcrypt_compare old (password u) = false →
        call = (OldPasswordIncorrect, us)) ∧
  (∀ u, passwordRegex_test new = true →
        findUserById acting us = Some (Some u) →
        bcrypt_compare old (password u) = true →
        let u' := set_refreshToken None (set_password (bcrypt_hash new 10 salt) u) in
        call = (mkResponse 200 (AuthMessage "Password changed successfully"),
                save_user u' us)
        ∧ findUserById acting (save_user u' us) = Some (Some u')
        ∧ password u' = bcrypt_hash new 10 salt
        ∧ refreshToken u' = None).
Proof.
  intros Hold Hnew. unfold changePassword, try_catch, changePassword_body.
  simpl. run_handler. rewrite (nonempty_Some old Hold), (nonempty_Some new Hnew).
  run_handler. split; [|split].
  - by intros ->.
  - intros u -> Hu Hcmp. run_handler. rewrite Hu. run_handler. by rewrite Hcmp.
  - intros u -> Hu Hcmp. run_handler. rewrite Hu. run_handler. rewrite Hcmp.
    run_handler. split; [done|]. split; [|done].
    by apply (findUserById_save_user acting us u).
Qed.

(** C6. Forgot Password for an existing user stores the SHA-256 of a fresh
    six-digit code and an expiry ten minutes ahead, and nothing else of
    the user changes; Verify Code then succeeds with that code up to the
    expiry, fails with any other six-digit code, and fails with the right
    code once the expiry has passed. SHA-256 is taken to send different
    six-digit codes to different digests. *)
Theorem reset_code_round_trip (random : Q) (now : Z) (e : string)
    (us : list User) (u : User) :
  (0 <= random)%Q → (random < 1)%Q →
  e ≠ "" → findOne_email (Some e) us = Some u →
  (∀ a b, six_digits a = true → six_digits b = true →
          sha256_hex a = sha256_hex b → a = b) →
  let code := generateResetCode random in
  let expiry := now + 10 * 60 * 1000 in
  let stored := set_reset (Some (sha256_hex code)) (Some expiry) u in
  let us1 := (forgotPassword random now (Some e) us).2 in
  six_digits code = true ∧
  us1 = save_user stored us ∧
  findOne_email (Some e) us1 = Some stored ∧
  (∀ t, t <= expiry →
     verifyCode t {| vc_email := Some e; vc_code := Some code |} us1
     = (CodeVerified, us1)) ∧
  (∀ t other, six_digits other = true → other ≠ code →
     verifyCode t {| vc_email := Some e; vc_code := Some other |} us1
     = (InvalidOrExpiredCode, us1)) ∧
  (∀ t, expiry < t →
     verifyCode t {| vc_email := Some e; vc_code := Some code |} us1
     = (InvalidOrExpiredCode, us1)).
Proof.
  intros H0 H1 He Hu Hinj code expiry stored us1.
  assert (six_digits code = true) as Hcode
    by by apply generateResetCode_six_digits.
  assert (us1 = save_user stored us) as Hus1.
  { unfold us1, forgotPassword, try_catch, forgotPassword_body. run_handler.
    rewrite (nonempty_Some e He). run_handler. rewrite Hu. run_handler.
    by destruct (sendEmail _ _ _). }
  assert (findOne_email (Some e) us1 = Some stored) as Hfind.
  { rewrite Hus1. apply (findOne_email_save_user e us u); [done|done|].
    apply find_some in Hu as [_ Hm]. by apply bool_decide_eq_true in Hm. }
  repeat split; try done.
  - intros t Ht. unfold verifyCode, try_catch, verifyCode_body. run_handler.
    rewrite (nonempty_Some e He),
      (nonempty_Some code (six_digits_nonempty _ Hcode)).
    run_handler. rewrite Hfind. simpl. rewrite bool_decide_true by done.
    simpl. destruct (Z.ltb_spec expiry t); [lia|done].
  - intros t other Hother Hne.
    unfold verifyCode, try_catch, verifyCode_body. run_handler.
    rewrite (nonempty_Some e He),
      (nonempty_Some other (six_digits_nonempty _ Hother)).
    run_handler. rewrite Hfind. simpl.
    rewrite bool_decide_false; [done|].
    intros [= Heq]. apply Hne. symmetry. by apply Hinj.
  - intros t Ht. unfold verifyCode, try_catch, verifyCode_body. run_handler.
    rewrite (nonempty_Some e He),
      (nonempty_Some code (six_digits_nonempty _ Hcode)).
    run_handler. rewrite Hfind. simpl. rewrite bool_decide_true by done.
    simpl. destruct (Z.ltb_spec expiry t); [done|lia].
Qed.

End AuthFacts.

(** C7 as stated fails on the code: with a wrong old password and a new
    password that breaks the policy, the answer is WeakPassword, not the
    incorrect-old-password error; the policy is tested before the user is
    even loaded. *)
Lemma changePassword_weak_new_wrong_old :
  let us := [demo_user true] in
  let call := @changePassword demo "salt" uid1
                (Some {| oldPassword := Some "not-the-password";
                         newPassword := Some "short" |}) us in
  @findUserById demo uid1 us = Some (Some (demo_user true)) ∧
  @bcrypt_compare demo "not-the-password" (password (demo_user true)) = false ∧
  passwordRegex_test "short" = false ∧
  call = (WeakPassword msg_weak_new, us) ∧
  call.1 ≠ OldPasswordIncorrect.
Proof. by vm_compute. Qed.

(* --------------------------------------------------------------------- *)
(** *** The theorems at work on the examples *)
(* --------------------------------------------------------------------- *)


Lemma placeOrder_stock_subtracted_witness :
  ∃ lines,
    lines = [frac_line 0x1.199999999999ap+0] ∧
    (∀ pid, items frac_placed.2 !! pid
            = (fun prod => {| item_name := item_name prod;
                              categoryType := categoryType prod;
                              price := price prod;
                              quantity := @remaining Binary64 pid lines
                                            (quantity prod) |})
              <$> items frac_db !! pid) ∧
    (∀ pid prod, items frac_placed.2 !! pid = Some prod →
                 @jlt Binary64 (quantity prod) (@jzero Binary64) = false).
Proof.
  destruct (@placeOrder_stock_subtracted Binary64 demo oid1 uid1
              (frac_order [frac_line 0x1.199999999999ap+0]) frac_db
              frac_placed.2 frac_placed.1)
    as (lines & Hlines & Hrem & _ & Hsign).
  - apply surjective_pairing.
  - by vm_compute.
  - exists lines. split; [by injection Hlines|]. split; [exact Hrem|].
    apply Hsign; [exact Binary64_sub_guarded|].
    intros pid prod Hp. cbn [items frac_db] in Hp.
    apply lookup_singleton_Some in Hp as [_ <-]. by vm_compute.
Defined.

Lemma placeOrder_total_is_accumulated_witness :
  ∃ lines o,
    req_items drift_order = Some lines ∧
    orders drift_placed.2 !! oid1 = Some o ∧
    Forall2 (fun req l => productId req = Some (product l)
                          ∧ req_quantity req = Val (line_quantity l))
            lines (orderLines o) ∧
    Forall (fun l => lineTotal l = jmul (line_quantity l) (unitPrice l)
                     ∧ ∃ prod, items drift_db !! product l = Some prod
                               ∧ unitPrice l = price prod) (orderLines o) ∧
    totalAmount o = accumulate (orderLines o).
Proof.
  apply (@placeOrder_total_is_accumulated Binary64 demo oid1 uid1 drift_order
           drift_db drift_placed.2 drift_placed.1).
  - apply surjective_pairing.
  - reflexivity.
Defined.

Lemma recordPayment_replaces_witness :
  ∃ (resp : Response (@OrderBody Exact)) (db' : @Db Exact),
    @recordPayment Exact demo demo_strings oid1 (JNum 300) demo_placed.2 = (resp, db') ∧
    @amountPaid Exact <$> orders db' !! oid1 = Some 300 ∧
    @recordPayment Exact demo demo_strings oid1 (JNum 300) db' = (resp, db').
Proof.
  destruct (@recordPayment_replaces Exact demo demo_strings oid1 (JNum 300) demo_placed.2)
    as (_ & _ & _ & _ & Hok).
  destruct (Hok 300 (@mkOrder Exact sid1 uid1
                       [@mkOrderLine Exact pid1 "P1" 3 100 300;
                        @mkOrderLine Exact pid1 "P1" 2 100 200]
                       500 "half" 1 150 0)
              eq_refl eq_refl eq_refl eq_refl)
    as (resp & db' & Hrun & _ & _ & Hpaid & Hagain).
  exists resp, db'. exact (conj Hrun (conj Hpaid Hagain)).
Defined.

Lemma login_blocked_before_password_witness :
  @login demo 0 (Some {| li_email := Some "ali@example.com";
                         li_password := Some "5271Alr@x" |}) [demo_user false]
  = (LoginBlocked, [demo_user false]).
Proof.
  apply (@login_blocked_before_password demo 0 "ali@example.com" "5271Alr@x"
           [demo_user false] (demo_user false));
    [discriminate|discriminate|reflexivity|reflexivity].
Defined.

Lemma signup_always_admin_witness :
  ∃ u, @signup demo uid1 "salt" (Some demo_signup) []
       = (mkResponse 201 (UserCreated "Admin user created successfully" u), [u])
       ∧ role u = "admin".
Proof.
  apply (proj1 (@signup_always_admin demo uid1 "salt" demo_signup [])).
  repeat split; try (eexists; reflexivity).
  exists "5271Alr@". split; reflexivity.
Defined.

Lemma refresh_changes_nothing_witness :
  (@refresh demo 0 (Some (Some "refresh-of-e1")) [demo_user true]).2
  = [demo_user true].
Proof.
  exact (proj1 (@refresh_changes_nothing demo 0 (Some (Some "refresh-of-e1"))
                  [demo_user true])).
Defined.

Lemma changePassword_policy_then_old_witness :
  let u' := set_refreshToken None
              (set_password (@bcrypt_hash demo "N3w-passw0rd" 10 "salt")
                            (demo_user true)) in
  @changePassword demo "salt" uid1
    (Some {| oldPassword := Some "5271Alr@x"; newPassword := Some "N3w-passw0rd" |})
    [demo_user true]
  = (mkResponse 200 (AuthMessage "Password changed successfully"), [u'])
  ∧ refreshToken u' = None.
Proof.
  destruct (@changePassword_policy_then_old demo "salt" uid1 "5271Alr@x"
              "N3w-passw0rd" [demo_user true])
    as (_ & _ & Hok); [discriminate|discriminate|].
  destruct (Hok (demo_user true) eq_refl eq_refl eq_refl) as (Hrun & _ & _ & Hnull).
  exact (conj Hrun Hnull).
Defined.

Lemma demo_sha256_injective (a b : string) :
  @sha256_hex demo a = @sha256_hex demo b → a = b.
Proof. cbv [sha256_hex demo demo_sha256 String.app String.append]. by intros [= ->]. Qed.

Lemma reset_code_round_trip_witness :
  let code := generateResetCode (1 # 2) in
  let us1 := (@forgotPassword demo (1 # 2) 1000 (Some "ali@example.com")
                [demo_user true]).2 in
  code = "550000" ∧
  @verifyCode demo 601000 {| vc_email := Some "ali@example.com"; vc_code := Some code |} us1
  = (CodeVerified, us1) ∧
  @verifyCode demo 5000 {| vc_email := Some "ali@example.com"; vc_code := Some "550001" |} us1
  = (InvalidOrExpiredCode, us1) ∧
  @verifyCode demo 601001 {| vc_email := Some "ali@example.com"; vc_code := Some code |} us1
  = (InvalidOrExpiredCode, us1).
Proof.
  destruct (@reset_code_round_trip demo (1 # 2) 1000 "ali@example.com"
              [demo_user true] (demo_user true))
    as (_ & _ & _ & Hok & Hother & Hlate).
  - discriminate.
  - reflexivity.
  - discriminate.
  - reflexivity.
  - intros a b _ _. apply demo_sha256_injective.
  - split; [reflexivity|]. split; [apply Hok; lia|].
    split; [apply Hother; [reflexivity|discriminate]|apply Hlate; lia].
Defined.

(* ===================================================================== *)
(** * Further properties of the code *)
(* ===================================================================== *)

(* --------------------------------------------------------------------- *)
(** *** PlaceOrder on every path *)
(* --------------------------------------------------------------------- *)

Section OrderPaths.
Context {JN : JsNumber} {E : Externals}.

(** Every path of POST /order: the checks before the loop fail and the
    store is untouched, or the loop runs and the store is the one it
    leaves, with the order added on a 201 only. *)
Lemma placeOrder_cases (new_id acting : string) (b : OrderReq) (db db' : Db)
    (resp : Response OrderBody) :
  ObjectId_isValid new_id = true →
  placeOrder new_id acting b db = (resp, db') →
  (db' = db ∧ status resp ≠ 201) ∨
  (∃ lines, passesChecks b db lines ∧
     let run := specLines (items db) lines ([], jzero) in
     (status resp ≠ 201 ∧ db' = set_items (fun _ => outcomeStock run) db) ∨
     (status resp = 201 ∧ ∃ acc o,
        run = Completed acc (outcomeStock run) ∧
        db' = set_orders (insert new_id o)
                (set_items (fun _ => outcomeStock run) db))).
Proof.
  intros Hnew. unfold placeOrder, try_catch, placeOrder_body.
  destruct (nonempty (shopId b)) as [sid|] eqn:Hsid; run_handler;
    [|intros [= <- <-]; by left].
  destruct (req_items b) as [[|l ls]|] eqn:Hitems; run_handler;
    try (intros [= <- <-]; by left).
  destruct (nonempty (req_paymentType b)) as [pt|] eqn:Hpt; run_handler;
    [|intros [= <- <-]; by left].
  case_bool_decide as Hvalid; run_handler; [|intros [= <- <-]; by left].
  destruct (Number (req_paymentAmount b)) as [a|] eqn:Ham; run_handler;
    [|intros [= <- <-]; by left].
  destruct (jlt a jzero) eqn:Hneg; run_handler; [intros [= <- <-]; by left|].
  unfold findById at 1.
  destruct (ObjectId_isValid sid) eqn:Hcast; [|intros [= <- <-]; by left].
  destruct (shops db !! sid) as [shp|] eqn:Hshop; run_handler;
    [|intros [= <- <-]; by left].
  destruct (shop_isActive shp) eqn:Hactive; run_handler;
    [|intros [= <- <-]; by left].
  assert (passesChecks b db (l :: ls)) as Hchecks.
  { exists sid, pt, a, shp. by rewrite Hsid, Hpt, Ham. }
  change (match processLine l ([], jzero) db with
          | Go a0 s' => processLines ls a0 s'
          | Sent r s' => Sent r s'
          | Thrown e s' => Thrown e s'
          end) with (processLines (l :: ls) ([], jzero) db).
  rewrite processLines_spec.
  destruct (specLines (items db) (l :: ls) ([], jzero))
    as [acc stock|r stock|e stock] eqn:Hlines.
  - unfold create_order. simpl.
    destruct (paymentTypeToId pt) as [type_id|]; run_handler;
      [|intros [= <- <-]; right; exists (l :: ls); split; [done|];
        simpl; rewrite Hlines; by left].
    destruct (ObjectId_isValid acting); run_handler;
      [|intros [= <- <-]; right; exists (l :: ls); split; [done|];
        simpl; rewrite Hlines; by left].
    unfold findPopulated, findById. run_handler. rewrite Hnew. run_handler.
    intros [= <- <-]. right. exists (l :: ls). split; [done|].
    simpl. rewrite Hlines. right. split; [done|]. by do 2 eexists.
  - intros [= <- <-]. right. exists (l :: ls). split; [done|].
    rewrite Hlines. left. split; [|done].
    apply specLines_stopped_status in Hlines. by rewrite Hlines.
  - intros [= <- <-]. right. exists (l :: ls). split; [done|].
    rewrite Hlines. by left.
Qed.

(** What the loop never touches in a product: its name, its category and
    its price; and it neither adds nor removes a product. *)
Lemma specLines_catalogue (stock : gmap string Item) (lines : list LineReq)
    (acc : list OrderLine * num) (pid : string) :
  (fun p => (item_name p, categoryType p, price p))
    <$> outcomeStock (specLines stock lines acc) !! pid
  = (fun p => (item_name p, categoryType p, price p)) <$> stock !! pid.
Proof.
  revert stock acc. induction lines as [|line rest IH]; intros stock acc; simpl;
    [done|].
  destruct (checkLine stock line) as [p prod qty| |] eqn:Hc; try done.
  rewrite IH. unfold decrement. rewrite lookup_alter. case_decide; [|done].
  subst. by destruct (stock !! pid).
Qed.

(** X15. Whatever a call of PlaceOrder answers, it leaves users and shops
    as they were, adds or removes no product and changes no product's
    name, category or price; the orders are unchanged unless the answer is
    201, and then exactly the new order is added. *)
Theorem placeOrder_frame (new_id acting : string) (b : OrderReq) (db db' : Db)
    (resp : Response OrderBody) :
  ObjectId_isValid new_id = true →
  placeOrder new_id acting b db = (resp, db') →
  users db' = users db ∧ shops db' = shops db ∧
  (∀ pid, (fun p => (item_name p, categoryType p, price p)) <$> items db' !! pid
          = (fun p => (item_name p, categoryType p, price p)) <$> items db !! pid) ∧
  (status resp ≠ 201 → orders db' = orders db) ∧
  (status resp = 201 → ∃ o, orders db' = <[new_id := o]> (orders db)).
Proof.
  intros Hnew Hrun.
  destruct (placeOrder_cases _ _ _ _ _ _ Hnew Hrun)
    as [[-> Hst]|(lines & _ & [[Hst ->]|(Hst & acc & o & _ & ->)])]; simpl.
  - by repeat split.
  - repeat split; try done. intros pid. apply specLines_catalogue.
  - repeat split; try done; [intros pid; apply specLines_catalogue|].
    by exists o.
Qed.

(** X16. A request that does not pass the checks before the loop
    (validation of the body, shop found and active) is answered without
    any write: the store is the one before the call. *)
Theorem placeOrder_rejected_early (new_id acting : string) (b : OrderReq)
    (db : Db) :
  (∀ lines, ¬ passesChecks b db lines) →
  (placeOrder new_id acting b db).2 = db
  ∧ status (placeOrder new_id acting b db).1 ≠ 201.
Proof.
  intros Hno. unfold placeOrder, try_catch, placeOrder_body.
  destruct (nonempty (shopId b)) as [sid|] eqn:Hsid; run_handler; [|done].
  destruct (req_items b) as [[|l ls]|] eqn:Hitems; run_handler; try done.
  destruct (nonempty (req_paymentType b)) as [pt|] eqn:Hpt; run_handler; [|done].
  case_bool_decide as Hvalid; run_handler; [|done].
  destruct (Number (req_paymentAmount b)) as [a|] eqn:Ham; run_handler; [|done].
  destruct (jlt a jzero) eqn:Hneg; run_handler; [done|].
  unfold findById.
  destruct (ObjectId_isValid sid) eqn:Hcast; [|done].
  destruct (shops db !! sid) as [shp|] eqn:Hshop; run_handler; [|done].
  destruct (shop_isActive shp) eqn:Hactive; run_handler; [|done].
  destruct (Hno (l :: ls)). exists sid, pt, a, shp. by rewrite Hsid, Hpt, Ham.
Qed.

End OrderPaths.

Section OrderPathsSign.
Context {JN : JsNumber} {E : Externals}.

(** X17. No call of PlaceOrder, whatever it answers, makes a stock
    negative that was not: a request that fails at a later line, or whose
    order cannot be stored, leaves the decrements of the lines before, and
    each of them was made after the check that the stock is not below the
    quantity asked for. The arithmetic is any in which such a subtraction
    gives no negative number, as it does in binary64. *)
Theorem placeOrder_stock_not_negative (new_id acting : string) (b : OrderReq)
    (db db' : Db) (resp : Response OrderBody) :
  (∀ x y, jlt x y = false → jlt (jsub x y) jzero = false) →
  ObjectId_isValid new_id = true →
  placeOrder new_id acting b db = (resp, db') →
  (∀ pid prod, items db !! pid = Some prod → jlt (quantity prod) jzero = false) →
  ∀ pid prod', items db' !! pid = Some prod' →
               jlt (quantity prod') jzero = false.
Proof.
  intros Hlaw Hnew Hrun Hpos.
  destruct (placeOrder_cases _ _ _ _ _ _ Hnew Hrun)
    as [[-> Hst]|(lines & _ & [[Hst ->]|(Hst & acc & o & _ & ->)])];
    cbn [items set_orders set_items]; [exact Hpos| |];
    by apply specLines_sign.
Qed.

End OrderPathsSign.

Section OrderCreated.
Context {JN : JsNumber} {E : Externals} {JS : JsStrings}.

Lemma specLines_completed_quantities (stock stock' : gmap string Item)
    (lines : list LineReq) (acc acc' : list OrderLine * num) :
  specLines stock lines acc = Completed acc' stock' →
  Forall (fun l => jlt (line_quantity l) jone = false) acc.1 →
  Forall (fun l => jlt (line_quantity l) jone = false) acc'.1
  ∧ length acc'.1 = (length acc.1 + length lines)%nat.
Proof.
  revert stock acc. induction lines as [|line rest IH]; intros stock acc; simpl.
  - intros [= <- <-] Hacc. split; [done|lia].
  - destruct (checkLine stock line) as [p prod qty| |] eqn:Hc; try done.
    intros Hrest Hacc.
    apply checkLine_accepted_decrement in Hc as (_ & _ & _ & Hone & _).
    apply IH in Hrest as [Hall Hlen].
    + split; [done|]. rewrite Hlen. simpl. rewrite length_app. simpl. lia.
    + simpl. apply Forall_app. split; [done|]. by constructor.
Qed.

(** A 201 answer, with what the request had to pass on the way. *)
Lemma placeOrder_created_checked (new_id acting : string) (b : OrderReq)
    (db db' : Db) (resp : Response OrderBody) :
  placeOrder new_id acting b db = (resp, db') →
  status resp = 201 →
  ∃ sid lines ptype type_id amount acc stock shp,
    req_items b = Some lines ∧ lines ≠ [] ∧
    ptype ∈ validPaymentTypes ∧ paymentTypeToId ptype = Some type_id ∧
    jlt amount jzero = false ∧
    shops db !! sid = Some shp ∧ shop_isActive shp = true ∧
    specLines (items db) lines ([], jzero) = Completed acc stock ∧
    db' = set_orders (insert new_id (orderOf acting sid ptype type_id amount acc))
            (set_items (fun _ => stock) db).
Proof.
  unfold placeOrder, try_catch, placeOrder_body.
  destruct (nonempty (shopId b)) as [sid|]; run_handler;
    [|intros [= <- <-]; done].
  destruct (req_items b) as [[|l ls]|]; run_handler;
    try (intros [= <- <-]; done).
  destruct (nonempty (req_paymentType b)) as [pt|]; run_handler;
    [|intros [= <- <-]; done].
  case_bool_decide as Hvalid; run_handler; [|intros [= <- <-]; done].
  destruct (Number (req_paymentAmount b)) as [a|]; run_handler;
    [|intros [= <- <-]; done].
  destruct (jlt a jzero) eqn:Hneg; run_handler; [intros [= <- <-]; done|].
  unfold findById at 1.
  destruct (ObjectId_isValid sid); [|intros [= <- <-]; done].
  destruct (shops db !! sid) as [shp|] eqn:Hshop; run_handler;
    [|intros [= <- <-]; done].
  destruct (shop_isActive shp) eqn:Hactive; run_handler;
    [|intros [= <- <-]; done].
  change (match processLine l ([], jzero) db with
          | Go a0 s' => processLines ls a0 s'
          | Sent r s' => Sent r s'
          | Thrown e s' => Thrown e s'
          end) with (processLines (l :: ls) ([], jzero) db).
  rewrite processLines_spec.
  destruct (specLines (items db) (l :: ls) ([], jzero))
    as [acc stock|r stock|e stock] eqn:Hlines.
  - unfold create_order. simpl.
    destruct (paymentTypeToId pt) as [type_id|] eqn:Htype; run_handler;
      [|intros [= <- <-]; done].
    destruct (ObjectId_isValid acting); run_handler; [|intros [= <- <-]; done].
    unfold findPopulated, findById. run_handler.
    destruct (ObjectId_isValid new_id); run_handler; [|intros [= <- <-]; done].
    intros [= <- <-] _.
    exists sid, (l :: ls), pt, type_id, a, acc, stock, shp. done.
  - intros [= <- <-] Hst. apply specLines_stopped_status in Hlines.
    rewrite Hlines in Hst. done.
  - intros [= <- <-]; done.
Qed.

(** X18. Every order PlaceOrder stores passes the validators of
    models/Order.js and pairs type and id as PAYMENT_TYPES does: it has at
    least one line and as many as the request, no line quantity is below
    1, the payment type and its id are one of the three pairs, the payment
    amount is not negative, the amount paid is 0, the salesman is the
    acting user and the shop is an existing active shop. *)
Theorem placeOrder_order_valid (new_id acting : string) (b : OrderReq)
    (db db' : Db) (resp : Response OrderBody) :
  placeOrder new_id acting b db = (resp, db') →
  status resp = 201 →
  ∃ o lines,
    orders db' !! new_id = Some o ∧ req_items b = Some lines ∧
    orderLines o ≠ [] ∧ length (orderLines o) = length lines ∧
    Forall (fun l => jlt (line_quantity l) jone = false) (orderLines o) ∧
    (paymentTypeId o, paymentType o) ∈ PAYMENT_TYPES ∧
    jlt (paymentAmount o) jzero = false ∧
    amountPaid o = jzero ∧ salesman o = acting ∧
    ∃ shp, shops db !! shop o = Some shp ∧ shop_isActive shp = true.
Proof.
  intros Hrun Hst.
  destruct (placeOrder_created_checked _ _ _ _ _ _ Hrun Hst)
    as (sid & lines & ptype & type_id & amount & acc & stock & shp & Hitems
        & Hne & Hvalid & Htype & Hneg & Hshop & Hactive & Hloop & ->).
  apply specLines_completed_quantities in Hloop as [Hall Hlen]; [|by constructor].
  simpl in Hlen.
  exists (orderOf acting sid ptype type_id amount acc), lines. simpl.
  rewrite lookup_insert_eq. repeat split; try done.
  - intros Hnil. rewrite Hnil in Hlen. by destruct lines.
  - unfold validPaymentTypes in Hvalid. unfold PAYMENT_TYPES.
    apply elem_of_cons in Hvalid as [->|Hvalid];
      [injection Htype as <-; apply list_elem_of_here|].
    apply elem_of_cons in Hvalid as [->|Hvalid];
      [injection Htype as <-; apply list_elem_of_further, list_elem_of_here|].
    apply list_elem_of_singleton in Hvalid as ->. injection Htype as <-.
    do 2 apply list_elem_of_further. apply list_elem_of_here.
  - by exists shp.
Qed.

Lemma acceptedAmount_nonneg (v : jsvalue num) (a : num) :
  acceptedAmount v = Some a → jlt a jzero = false.
Proof.
  unfold acceptedAmount.
  destruct (match v with JUndefined => None | JNull => None | v => ToNumber v end)
    as [x|]; [|done].
  destruct (jlt x jzero) eqn:Hx; [done|]. by intros [= <-].
Qed.

(** Every path of the payment route: nothing is written, or the amount
    paid of the order addressed is replaced. *)
Lemma recordPayment_cases (orderId : string) (v : jsvalue num) (db db' : Db)
    (resp : Response OrderBody) :
  recordPayment orderId v db = (resp, db') →
  (db' = db ∧ status resp ≠ 200) ∨
  (∃ a o, acceptedAmount v = Some a ∧ orders db !! orderId = Some o ∧
          jlt a jzero = false ∧ jlt (totalAmount o) a = false ∧
          status resp = 200 ∧
          db' = set_orders (insert orderId (set_amountPaid a o)) db).
Proof.
  unfold recordPayment, try_catch, recordPayment_body.
  destruct (ObjectId_isValid orderId) eqn:Hid; run_handler;
    [|intros [= <- <-]; by left].
  destruct (acceptedAmount v) as [a|] eqn:Hv;
    pose proof Hv as Hneg; unfold acceptedAmount in Hv; rewrite Hv;
    run_handler; [|intros [= <- <-]; by left].
  apply acceptedAmount_nonneg in Hneg.
  unfold findPopulated, findById. run_handler. rewrite Hid.
  destruct (orders db !! orderId) as [o|] eqn:Ho; run_handler;
    [|intros [= <- <-]; by left].
  destruct (jlt (totalAmount o) a) eqn:Hlt; run_handler;
    [intros [= <- <-]; by left|].
  intros [= <- <-]. right. by exists a, o.
Qed.

End OrderCreated.

Section PaymentsExact.
Context {E : Externals}.
Local Existing Instance Exact.
Context {JS : JsStrings}.

(** X19. The payment route keeps every order's amount paid between 0 and
    its total: if that held of all orders before a call, it holds after
    it, whatever value the call carried in [amountPaid]; and the call
    changes nothing but the amount paid of the one order it addresses. *)
Theorem recordPayment_within_total (orderId : string) (v : jsvalue num)
    (db db' : Db) (resp : Response OrderBody) :
  recordPayment orderId v db = (resp, db') →
  (∀ id o, orders db !! id = Some o → 0 <= amountPaid o <= totalAmount o) →
  (∀ id o, orders db' !! id = Some o → 0 <= amountPaid o <= totalAmount o) ∧
  users db' = users db ∧ shops db' = shops db ∧ items db' = items db ∧
  (∀ id, id ≠ orderId → orders db' !! id = orders db !! id) ∧
  (∀ o', orders db' !! orderId = Some o' →
         ∃ o, orders db !! orderId = Some o ∧ o' = set_amountPaid (amountPaid o') o).
Proof.
  intros Hrun Hinv.
  destruct (recordPayment_cases _ _ _ _ _ Hrun)
    as [[-> _]|(a & o & _ & Ho & Hneg & Hlt & _ & ->)]; simpl.
  - split; [done|]. do 4 (split; [done|]). intros o' Ho'. exists o'.
    split; [done|]. by destruct o'.
  - apply Z.ltb_ge in Hneg, Hlt. split; [|do 3 (split; [done|]); split].
    + intros id o'. destruct (decide (id = orderId)) as [->|Hne].
      * rewrite lookup_insert_eq. intros [= <-]. simpl in *. lia.
      * rewrite lookup_insert_ne by done. apply Hinv.
    + intros id Hne. by rewrite lookup_insert_ne.
    + intros o'. rewrite lookup_insert_eq. intros [= <-]. by exists o.
Qed.

End PaymentsExact.

(* --------------------------------------------------------------------- *)
(** *** Shops and products against PlaceOrder *)
(* --------------------------------------------------------------------- *)

Section CatalogFacts.
Context {JN : JsNumber} {E : Externals}.

(** A request that names a shop which is missing or inactive is answered
    400 and writes nothing. *)
Lemma placeOrder_shop_unavailable (new_id acting sid : string) (b : OrderReq)
    (db : Db) :
  nonempty (shopId b) = Some sid →
  ObjectId_isValid sid = true →
  match shops db !! sid with
  | Some shp => shop_isActive shp = false
  | None => True
  end →
  (placeOrder new_id acting b db).2 = db ∧
  status (placeOrder new_id acting b db).1 = 400 ∧
  (∀ lines ptype amount,
     req_items b = Some lines → lines ≠ [] →
     nonempty (req_paymentType b) = Some ptype → ptype ∈ validPaymentTypes →
     Number (req_paymentAmount b) = Some amount → jlt amount jzero = false →
     (placeOrder new_id acting b db).1
     = match shops db !! sid with
       | Some _ => ShopInactive
       | None => ShopNotFound
       end).
Proof.
  intros Hsid Hcast Hshop. unfold placeOrder, try_catch, placeOrder_body.
  rewrite Hsid. run_handler.
  destruct (req_items b) as [[|l ls]|] eqn:Hitems; run_handler;
    try (repeat split; try done; intros ? ? ? [= <-]; done).
  destruct (nonempty (req_paymentType b)) as [pt|] eqn:Hpt; run_handler;
    [|by repeat split].
  case_bool_decide as Hvalid; run_handler;
    [|repeat split; try done; by intros ? ? ? _ _ [= <-]].
  destruct (Number (req_paymentAmount b)) as [a|] eqn:Ham; run_handler;
    [|by repeat split].
  destruct (jlt a jzero) eqn:Hneg; run_handler;
    [repeat split; try done; intros ? ? ? _ _ _ _ [= <-]; congruence|].
  unfold findById. rewrite Hcast.
  destruct (shops db !! sid) as [shp|]; run_handler; [|by repeat split].
  rewrite Hshop. by repeat split.
Qed.

(** X22. Disabling a shop (PATCH status with isActive false) changes only
    that shop's flag; from then on every order request naming the shop is
    answered 400, with the shop-inactive message once the body is valid,
    and writes nothing; setting the flag back to what it was restores the
    store. *)
Theorem disabled_shop_takes_no_orders (sid : string) (shp : Shop) (db : Db) :
  ObjectId_isValid sid = true →
  shops db !! sid = Some shp →
  ∃ db1,
    setShopStatus sid (Some false) db
    = (mkResponse 200 (ShopWith "Shop has been disabled"
                                (set_shop_isActive false shp)), db1) ∧
    shops db1 = <[sid := set_shop_isActive false shp]> (shops db) ∧
    items db1 = items db ∧ orders db1 = orders db ∧ users db1 = users db ∧
    (∀ new_id acting b, nonempty (shopId b) = Some sid →
       (placeOrder new_id acting b db1).2 = db1 ∧
       status (placeOrder new_id acting b db1).1 = 400) ∧
    (∀ new_id acting b lines ptype amount,
       nonempty (shopId b) = Some sid →
       req_items b = Some lines → lines ≠ [] →
       nonempty (req_paymentType b) = Some ptype → ptype ∈ validPaymentTypes →
       Number (req_paymentAmount b) = Some amount → jlt amount jzero = false →
       (placeOrder new_id acting b db1).1 = ShopInactive) ∧
    (setShopStatus sid (Some (shop_isActive shp)) db1).2 = db.
Proof.
  intros Hcast Hshop. eexists. split.
  { unfold setShopStatus, try_catch, setShopStatus_body. run_handler.
    rewrite Hcast. run_handler. rewrite Hshop. run_handler. reflexivity. }
  simpl. do 4 (split; [done|]).
  set (db1 := set_shops (insert sid (set_shop_isActive false shp)) db).
  assert (shops db1 !! sid = Some (set_shop_isActive false shp)) as Hshop1
    by apply lookup_insert_eq.
  split; [|split].
  - intros new_id acting b Hsid.
    destruct (placeOrder_shop_unavailable new_id acting sid b db1 Hsid Hcast)
      as (H1 & H2 & _); [by rewrite Hshop1|done].
  - intros new_id acting b lines ptype amount Hsid Hitems Hne Hpt Hvalid Ham Hneg.
    destruct (placeOrder_shop_unavailable new_id acting sid b db1 Hsid Hcast)
      as (_ & _ & H3); [by rewrite Hshop1|].
    rewrite (H3 lines ptype amount) by done. by rewrite Hshop1.
  - unfold setShopStatus, try_catch, setShopStatus_body. run_handler.
    rewrite Hcast. run_handler. rewrite lookup_insert_eq. run_handler.
    destruct db as [us shs its os]. unfold set_shops. simpl in *. f_equal.
    rewrite insert_insert_eq. destruct shp. simpl. by apply insert_id.
Qed.

(** X23. Deleting a shop removes that shop only and leaves its orders
    stored; afterwards the summary has no entry for it, every order
    request naming it is answered 400 without a write (shop not found once
    the body is valid), and deleting it again is answered 404 without a
    write. *)
Theorem deleted_shop_takes_no_orders (sid : string) (shp : Shop) (db : Db) :
  ObjectId_isValid sid = true →
  shops db !! sid = Some shp →
  ∃ db1,
    deleteShop sid db
    = (mkResponse 200 (ShopMessage "Shop deleted successfully"), db1) ∧
    shops db1 = delete sid (shops db) ∧
    items db1 = items db ∧ orders db1 = orders db ∧ users db1 = users db ∧
    (∀ entry, entry ∈ shopOrdersSummary db1 → entry.1.1 ≠ sid) ∧
    (∀ new_id acting b, nonempty (shopId b) = Some sid →
       (placeOrder new_id acting b db1).2 = db1 ∧
       status (placeOrder new_id acting b db1).1 = 400) ∧
    (∀ new_id acting b lines ptype amount,
       nonempty (shopId b) = Some sid →
       req_items b = Some lines → lines ≠ [] →
       nonempty (req_paymentType b) = Some ptype → ptype ∈ validPaymentTypes →
       Number (req_paymentAmount b) = Some amount → jlt amount jzero = false →
       (placeOrder new_id acting b db1).1 = ShopNotFound) ∧
    deleteShop sid db1 = (mkResponse 404 (ShopMessage "Shop not found"), db1).
Proof.
  intros Hcast Hshop. eexists. split.
  { unfold deleteShop, try_catch, deleteShop_body. run_handler.
    rewrite Hcast. run_handler. rewrite Hshop. run_handler. reflexivity. }
  simpl. do 4 (split; [done|]).
  set (db1 := set_shops (delete sid) db).
  assert (shops db1 !! sid = None) as Hshop1 by apply lookup_delete_eq.
  split; [|split; [|split]].
  - intros entry. unfold shopOrdersSummary. rewrite list_elem_of_fmap.
    intros ([id s] & -> & Hin). simpl. apply elem_of_map_to_list in Hin.
    intros ->. simpl in Hin. by rewrite lookup_delete_eq in Hin.
  - intros new_id acting b Hsid.
    destruct (placeOrder_shop_unavailable new_id acting sid b db1 Hsid Hcast)
      as (H1 & H2 & _); [by rewrite Hshop1|done].
  - intros new_id acting b lines ptype amount Hsid Hitems Hne Hpt Hvalid Ham Hneg.
    destruct (placeOrder_shop_unavailable new_id acting sid b db1 Hsid Hcast)
      as (_ & _ & H3); [by rewrite Hshop1|].
    rewrite (H3 lines ptype amount) by done. by rewrite Hshop1.
  - unfold deleteShop, try_catch, deleteShop_body. run_handler.
    rewrite Hcast. run_handler. by rewrite lookup_delete_eq.
Qed.

(** X24. Deleting a product removes it from the catalogue and touches no
    order, so the lines that snapshot it stay as they were; afterwards a
    request whose first line names it is answered product-not-found
    without a write, and deleting it again is answered 404. *)
Theorem deleted_product_cannot_be_ordered (pid : string) (prod : Item) (db : Db) :
  ObjectId_isValid pid = true → pid ≠ "" →
  items db !! pid = Some prod →
  ∃ db1,
    deleteProduct pid db
    = (mkResponse 200 (Message "Product deleted successfully"), db1) ∧
    items db1 = delete pid (items db) ∧
    orders db1 = orders db ∧ shops db1 = shops db ∧ users db1 = users db ∧
    (∀ new_id acting b q rest,
       passesChecks b db1 (mkLineReq (Some pid) (Val q) :: rest) →
       jlt q jone = false →
       placeOrder new_id acting b db1 = (ProductNotFound pid, db1)) ∧
    deleteProduct pid db1 = (mkResponse 404 (Message "Product not found"), db1).
Proof.
  intros Hcast Hpid Hprod. eexists. split.
  { unfold deleteProduct, try_catch, deleteProduct_body. run_handler.
    rewrite Hcast. run_handler. rewrite Hprod. run_handler. reflexivity. }
  simpl. do 4 (split; [done|]).
  set (db1 := set_items (delete pid) db).
  split.
  - intros new_id acting b q rest Hchecks Hq.
    pose proof (placeOrder_loop_stops new_id acting b db1 _ Hchecks) as Hloop.
    simpl in Hloop. unfold checkLine in Hloop. simpl in Hloop.
    rewrite (nonempty_Some pid Hpid), Hq, Hcast in Hloop. simpl in Hloop.
    rewrite lookup_delete_eq in Hloop. rewrite Hloop.
    by destruct db.
  - unfold deleteProduct, try_catch, deleteProduct_body. run_handler.
    rewrite Hcast. run_handler. by rewrite lookup_delete_eq.
Qed.

End CatalogFacts.

(* --------------------------------------------------------------------- *)
(** *** The gate, the roles and the header *)
(* --------------------------------------------------------------------- *)

Lemma append_snoc (cur : string) (c : Ascii.ascii) (t : string) :
  (cur +:+ String c "") +:+ t = cur +:+ String c t.
Proof.
  induction cur as [|a cur IH]; [done|].
  change (String a ((cur +:+ String c "") +:+ t) = String a (cur +:+ String c t)).
  by rewrite IH.
Qed.

Lemma append_empty_r (s : string) : s +:+ "" = s.
Proof.
  induction s as [|a s IH]; [done|].
  change (String a (s +:+ "") = String a s). by rewrite IH.
Qed.

Lemma split_space_spaceless (t cur : string) :
  spaceless t = true → split_space t cur = [cur +:+ t].
Proof.
  revert cur. induction t as [|c t IH]; intros cur; simpl.
  - by rewrite append_empty_r.
  - unfold spaceless. simpl. intros [Hc Ht]%andb_true_iff.
    apply negb_true_iff in Hc. rewrite Hc. rewrite (IH _ Ht).
    by rewrite append_snoc.
Qed.

Lemma split_space_first (t rest cur : string) :
  spaceless t = true →
  split_space (t +:+ String (Ascii.ascii_of_nat 32) rest) cur
  = (cur +:+ t) :: split_space rest "".
Proof.
  revert cur. induction t as [|c t IH]; intros cur.
  - intros _. change (split_space (String (Ascii.ascii_of_nat 32) rest) cur
                      = (cur +:+ "") :: split_space rest "").
    simpl. by rewrite append_empty_r.
  - unfold spaceless. simpl. intros [Hc Ht]%andb_true_iff.
    apply negb_true_iff in Hc.
    change (split_space (String c (t +:+ String (Ascii.ascii_of_nat 32) rest)) cur
            = (cur +:+ String c t) :: split_space rest "").
    simpl. rewrite Hc. rewrite (IH _ Ht). by rewrite append_snoc.
Qed.

(** X1. The token the gate verifies is what stands between the prefix
    "Bearer " and the next space or the end of the header: a header made
    of the prefix and a token without spaces gives back that token, and
    whatever follows a further space is ignored. *)
Theorem bearer_token_extracts (t rest : string) :
  spaceless t = true →
  String.prefix "Bearer " ("Bearer " +:+ t) = true ∧
  bearer_token ("Bearer " +:+ t) = Some t ∧
  bearer_token ("Bearer " +:+ t +:+ String (Ascii.ascii_of_nat 32) rest) = Some t.
Proof.
  intros Ht. unfold bearer_token. cbv [String.append]. fold String.append.
  split; [|split].
  - simpl. by destruct t.
  - simpl. by rewrite (split_space_spaceless t "" Ht).
  - simpl. by rewrite (split_space_first t rest "" Ht).
Qed.

Section RoleGate.
Context {E : Externals}.

Lemma nonempty_Some_inv (v : option string) (h : string) :
  nonempty v = Some h ↔ v = Some h ∧ h ≠ "".
Proof.
  unfold nonempty, truthy. destruct v as [s|].
  - destruct (String.eqb_spec s "") as [->|Hs]; simpl.
    + split; [done|]. by intros [[= <-] Hne].
    + split; [by intros [= <-]|]. by intros [[= <-] _].
  - split; [done|]. by intros [? _].
Qed.

Lemma checkRole_next (roles : list string) (req req' : Request) :
  checkRole roles req = Next req' ↔
  req' = req ∧ ∃ u r, user req = Some u ∧ tok_role u = Some r ∧ r ≠ ""
                      ∧ r ∈ roles.
Proof.
  unfold checkRole. destruct (user req) as [u|].
  - destruct (nonempty (tok_role u)) as [r|] eqn:Hr.
    + apply nonempty_Some_inv in Hr as [Hr Hne]. case_bool_decide as Hin.
      * split; [intros [= <-]; split; [done|]; by exists u, r|].
        by intros [-> _].
      * split; [done|]. intros (_ & u' & r' & [= <-] & Hr' & _ & Hin').
        rewrite Hr in Hr'. injection Hr' as <-. done.
    + split; [done|]. intros (_ & u' & r & [= <-] & Hr' & Hne & _).
      assert (nonempty (tok_role u) = Some r) as Hs
        by by apply nonempty_Some_inv.
      by rewrite Hs in Hr.
  - split; [done|]. by intros (_ & u & r & Hu & _).
Qed.

(** X2. Behind the middleware of src/middleware/authMiddleware.js a
    request reaches a route body exactly when its header starts with
    "Bearer ", the token verifies, and the role in the token's payload is
    one of the roles the route allows; [req.user] is then that payload. *)
Theorem role_gate_by_token (now : Z) (roles : list string) (req req' : Request) :
  through (verifyAccessToken now) roles req = Next req' ↔
  ∃ h token decoded r,
    authorization req = Some h ∧ String.prefix "Bearer " h = true ∧
    bearer_token h = Some token ∧
    jwt_verify token ACCESS_TOKEN_SECRET now = Some decoded ∧
    tok_role decoded = Some r ∧ r ≠ "" ∧ r ∈ roles ∧
    req' = {| authorization := Some h; user := Some decoded |}.
Proof.
  unfold through, verifyAccessToken. split.
  - destruct (nonempty (authorization req)) as [h|] eqn:Hh; [|done].
    apply nonempty_Some_inv in Hh as [Hh _].
    destruct (String.prefix "Bearer " h) eqn:Hp; [|done].
    destruct (bearer_token h) as [token|] eqn:Ht; [|done].
    destruct (jwt_verify token ACCESS_TOKEN_SECRET now) as [decoded|] eqn:Hv;
      [|done].
    intros (-> & u & r & [= <-] & Hr & Hne & Hin)%checkRole_next.
    exists h, token, decoded, r. by rewrite Hh.
  - intros (h & token & decoded & r & Hh & Hp & Ht & Hv & Hr & Hne & Hin & ->).
    assert (nonempty (authorization req) = Some h) as ->.
    { apply nonempty_Some_inv. split; [done|]. by intros ->. }
    rewrite Hp, Ht, Hv, Hh. apply checkRole_next. split; [done|].
    by exists decoded, r.
Qed.

(** X3. Behind the middleware that resolves the user, a request reaches a
    route body exactly when the token verifies, the user it names is
    stored and active, and the role stored for that user is one of the
    roles the route allows; the role in the token plays no part, and
    [req.user] carries the stored id and role. *)
Theorem role_gate_by_account (now : Z) (us : list User) (roles : list string)
    (req req' : Request) :
  through (verifyAccessToken_resolving now us) roles req = Next req' ↔
  ∃ h token decoded u,
    authorization req = Some h ∧ String.prefix "Bearer " h = true ∧
    bearer_token h = Some token ∧
    jwt_verify token ACCESS_TOKEN_SECRET now = Some decoded ∧
    findUserById (tok_id decoded) us = Some (Some u) ∧
    isActive u = true ∧ role u ≠ "" ∧ role u ∈ roles ∧
    req' = {| authorization := Some h;
              user := Some {| tok_id := user_id u; tok_role := Some (role u) |} |}.
Proof.
  unfold through, verifyAccessToken_resolving. split.
  - destruct (nonempty (authorization req)) as [h|] eqn:Hh; [|done].
    apply nonempty_Some_inv in Hh as [Hh _].
    destruct (String.prefix "Bearer " h) eqn:Hp; [|done].
    destruct (bearer_token h) as [token|] eqn:Ht; [|done].
    destruct (jwt_verify token ACCESS_TOKEN_SECRET now) as [decoded|] eqn:Hv;
      [|done].
    destruct (findUserById (tok_id decoded) us) as [[u|]|] eqn:Hu; try done.
    destruct (isActive u) eqn:Hact; [|done]. simpl.
    intros (-> & p & r & [= <-] & [= <-] & Hne & Hin)%checkRole_next.
    exists h, token, decoded, u. by rewrite Hh.
  - intros (h & token & decoded & u & Hh & Hp & Ht & Hv & Hu & Hact & Hne & Hin
            & ->).
    assert (nonempty (authorization req) = Some h) as ->.
    { apply nonempty_Some_inv. split; [done|]. by intros ->. }
    rewrite Hp, Ht, Hv, Hu, Hact, Hh. simpl. apply checkRole_next.
    split; [done|]. by eexists _, (role u).
Qed.

(** X4. A salesman is denied every admin-only route, whatever the request
    carries besides: with the resolving middleware as soon as the stored
    role is salesman, even if the token says admin; with the other copy
    as soon as the token's role is salesman. *)
Theorem salesman_denied_admin_routes (now : Z) (us : list User) (req : Request)
    (h token : string) (decoded : Payload) (u : User) :
  authorization req = Some h → String.prefix "Bearer " h = true →
  bearer_token h = Some token →
  jwt_verify token ACCESS_TOKEN_SECRET now = Some decoded →
  findUserById (tok_id decoded) us = Some (Some u) →
  isActive u = true → role u = "salesman" →
  through (verifyAccessToken_resolving now us) ["admin"] req = Respond AccessDenied
  ∧ (tok_role decoded = Some "salesman" →
     through (verifyAccessToken now) ["admin"] req = Respond AccessDenied).
Proof.
  intros Hh Hp Ht Hv Hu Hact Hrole.
  assert (nonempty (authorization req) = Some h) as Hne.
  { apply nonempty_Some_inv. split; [done|]. by intros ->. }
  unfold through, verifyAccessToken_resolving, verifyAccessToken.
  rewrite Hne, Hp, Ht, Hv, Hu, Hact. simpl. split.
  - unfold checkRole. simpl. by rewrite Hrole.
  - intros Hr. unfold checkRole. simpl. by rewrite Hr.
Qed.

End RoleGate.

(* --------------------------------------------------------------------- *)
(** *** Sessions: login, refresh, logout *)
(* --------------------------------------------------------------------- *)

Lemma findOne_refreshToken_saved (t : string) (us : list User) (u u' : User) :
  u ∈ us → user_id u' = user_id u → refreshToken u' = Some t →
  held_only_by t u us →
  findOne_refreshToken t (save_user u' us) = Some u'.
Proof.
  unfold findOne_refreshToken, save_user, held_only_by.
  intros Hin Hid Ht Hheld. induction us as [|v rest IH]; [by inversion Hin|].
  simpl. destruct (String.eqb_spec (user_id v) (user_id u')) as [Hv|Hv]; simpl.
  - by rewrite bool_decide_true.
  - case_bool_decide as Hvt.
    + destruct Hv. rewrite Hid. apply Hheld; [apply list_elem_of_here|done].
    + apply IH.
      * apply elem_of_cons in Hin as [->|Hin]; [by rewrite Hid in Hv|done].
      * intros w Hw. apply Hheld. by apply list_elem_of_further.
Qed.

Lemma findOne_refreshToken_dropped (t : string) (us : list User) (u u' : User) :
  user_id u' = user_id u → refreshToken u' ≠ Some t →
  held_only_by t u us →
  findOne_refreshToken t (save_user u' us) = None.
Proof.
  unfold findOne_refreshToken, save_user, held_only_by.
  intros Hid Ht Hheld. induction us as [|v rest IH]; [done|].
  simpl. destruct (String.eqb_spec (user_id v) (user_id u')) as [Hv|Hv]; simpl.
  - rewrite bool_decide_false by done. apply IH.
    intros w Hw. apply Hheld. by apply list_elem_of_further.
  - case_bool_decide as Hvt.
    + destruct Hv. rewrite Hid. apply Hheld; [apply list_elem_of_here|done].
    + apply IH. intros w Hw. apply Hheld. by apply list_elem_of_further.
Qed.

Lemma findOne_email_elem (e : option string) (us : list User) (u : User) :
  findOne_email e us = Some u → u ∈ us ∧ email u = e.
Proof.
  unfold findOne_email. intros [Hin He]%find_some. split.
  - by apply list_elem_of_In.
  - by apply bool_decide_eq_true in He.
Qed.

Section SessionFacts.
Context {E : Externals}.

Lemma login_outcome (now : Z) (e pw : string) (us : list User) :
  e ≠ "" → pw ≠ "" →
  login now (Some {| li_email := Some e; li_password := Some pw |}) us
  = match findOne_email (Some e) us with
    | None => (InvalidCredentials, us)
    | Some u =>
        if negb (isActive u) then (LoginBlocked, us)
        else if negb (bcrypt_compare pw (password u)) then (InvalidCredentials, us)
        else (mkResponse 200 (Tokens (generateAccessToken now u)
                                     (generateRefreshToken now u)),
              save_user (set_refreshToken (Some (generateRefreshToken now u)) u) us)
    end.
Proof.
  intros He Hpw. unfold login, try_catch, login_body. run_handler.
  rewrite (nonempty_Some e He), (nonempty_Some pw Hpw). run_handler.
  destruct (findOne_email (Some e) us) as [u|]; run_handler; [|done].
  destruct (isActive u); run_handler; [|done].
  by destruct (bcrypt_compare pw (password u)).
Qed.

Lemma refresh_outcome (now : Z) (t : string) (us : list User) :
  t ≠ "" →
  refresh now (Some (Some t)) us
  = (match findOne_refreshToken t us with
     | None => InvalidRefreshToken
     | Some u =>
         match jwt_verify t REFRESH_TOKEN_SECRET now with
         | None => InvalidOrExpiredRefreshToken
         | Some _ => mkResponse 200 (AccessToken (generateAccessToken now u))
         end
     end, us).
Proof.
  intros Ht. unfold refresh, try_catch, refreshToken_body. run_handler.
  rewrite (nonempty_Some t Ht). run_handler.
  destruct (findOne_refreshToken t us); run_handler; [|done].
  by destruct (jwt_verify _ _ _).
Qed.

(** X5. A login with the right password on an active account answers the
    two tokens and stores the refresh token on that user, and nothing
    else; a later refresh with that token, while it verifies and no other
    user holds it, answers a new access token for the same user. *)
Theorem login_issues_tokens (now : Z) (e pw : string) (us : list User) (u : User) :
  e ≠ "" → pw ≠ "" →
  findOne_email (Some e) us = Some u →
  isActive u = true →
  bcrypt_compare pw (password u) = true →
  let rt := generateRefreshToken now u in
  let u' := set_refreshToken (Some rt) u in
  login now (Some {| li_email := Some e; li_password := Some pw |}) us
  = (mkResponse 200 (Tokens (generateAccessToken now u) rt), save_user u' us) ∧
  findOne_email (Some e) (save_user u' us) = Some u' ∧
  (∀ later p, rt ≠ "" → held_only_by rt u us →
     jwt_verify rt REFRESH_TOKEN_SECRET later = Some p →
     refresh later (Some (Some rt)) (save_user u' us)
     = (mkResponse 200 (AccessToken (generateAccessToken later u')),
        save_user u' us)).
Proof.
  intros He Hpw Hu Hact Hcmp rt u'.
  destruct (findOne_email_elem _ _ _ Hu) as [Hin Hmail].
  split; [|split].
  - rewrite (login_outcome now e pw us He Hpw), Hu, Hact, Hcmp. done.
  - by apply (findOne_email_save_user e us u).
  - intros later p Hrt Hheld Hv. rewrite (refresh_outcome later rt _ Hrt).
    rewrite (findOne_refreshToken_saved rt us u u') by done. by rewrite Hv.
Qed.

(** X6. The refresh token is a single slot: once the user has logged in
    again and been given a different refresh token, the token stored
    before is no longer accepted by refresh. *)
Theorem relogin_revokes_previous_token (now later : Z) (e pw old : string)
    (us : list User) (u : User) :
  e ≠ "" → pw ≠ "" →
  findOne_email (Some e) us = Some u →
  isActive u = true →
  bcrypt_compare pw (password u) = true →
  old ≠ "" → old ≠ generateRefreshToken now u →
  held_only_by old u us →
  let us' := (login now (Some {| li_email := Some e; li_password := Some pw |})
                us).2 in
  refresh later (Some (Some old)) us' = (InvalidRefreshToken, us').
Proof.
  intros He Hpw Hu Hact Hcmp Hold Hne Hheld us'. unfold us'.
  rewrite (login_outcome now e pw us He Hpw), Hu, Hact, Hcmp. simpl.
  rewrite (refresh_outcome later old _ Hold).
  rewrite (findOne_refreshToken_dropped old us u); try done.
  simpl. by intros [= Heq].
Qed.

(** X7. An unknown e-mail and a wrong password on an active account are
    answered alike, with the same status and message, and neither writes
    anything. *)
Theorem login_failures_alike (now : Z) (e pw : string) (us : list User) :
  e ≠ "" → pw ≠ "" →
  match findOne_email (Some e) us with
  | None => True
  | Some u => isActive u = true ∧ bcrypt_compare pw (password u) = false
  end →
  login now (Some {| li_email := Some e; li_password := Some pw |}) us
  = (InvalidCredentials, us).
Proof.
  intros He Hpw Hcase. rewrite (login_outcome now e pw us He Hpw).
  destruct (findOne_email (Some e) us) as [u|]; [|done].
  destruct Hcase as [-> ->]. done.
Qed.

(** X8. Logout with a stored refresh token nulls it on the user that
    holds it and changes nothing else of that user; while no other user
    holds the token, refresh then rejects it and a second logout finds
    nothing and answers 204 without a write. *)
Theorem logout_revokes (now : Z) (t : string) (us : list User) (u : User) :
  t ≠ "" →
  findOne_refreshToken_field (Some t) us = Some u →
  held_only_by t u us →
  let us' := save_user (set_refreshToken None u) us in
  logout (Some t) us = (mkResponse 200 (LoggedOut "Logged out successfully"), us') ∧
  refresh now (Some (Some t)) us' = (InvalidRefreshToken, us') ∧
  logout (Some t) us' = (mkResponse 204 NoContent, us').
Proof.
  intros Ht Hu Hheld us'. unfold logout. rewrite Hu.
  assert (findOne_refreshToken t us' = None) as Hnone.
  { by apply (findOne_refreshToken_dropped t us u). }
  split; [done|]. split.
  - by rewrite (refresh_outcome now t _ Ht), Hnone.
  - unfold findOne_refreshToken in Hnone. unfold findOne_refreshToken_field.
    by rewrite Hnone.
Qed.

End SessionFacts.

(* --------------------------------------------------------------------- *)
(** *** The reset code after it has been issued *)
(* --------------------------------------------------------------------- *)

Section ResetFacts.
Context {E : Externals}.

Lemma verifyCode_outcome (now : Z) (e code : string) (us : list User) :
  e ≠ "" → code ≠ "" →
  verifyCode now {| vc_email := Some e; vc_code := Some code |} us
  = (if codeMatches now code (findOne_email (Some e) us)
     then CodeVerified else InvalidOrExpiredCode, us).
Proof.
  intros He Hc. unfold verifyCode, try_catch, verifyCode_body, codeMatches.
  run_handler. rewrite (nonempty_Some e He), (nonempty_Some code Hc).
  run_handler. destruct (findOne_email (Some e) us) as [u|]; [|done].
  case_bool_decide; simpl; [|done].
  destruct (resetCodeExpiry u) as [x|]; [|done]. by destruct (x <? now).
Qed.

Lemma resetPassword_outcome (salt : string) (now : Z) (e code new : string)
    (us : list User) :
  e ≠ "" → code ≠ "" → new ≠ "" →
  resetPassword salt now
    {| rp_email := Some e; rp_code := Some code; rp_newPassword := Some new |} us
  = match findOne_email (Some e) us with
    | Some u =>
        if codeMatches now code (Some u) then
          if passwordRegex_test new
          then (mkResponse 200 (AuthMessage "Password reset successful"),
                save_user (set_reset None None
                             (set_password (bcrypt_hash new 10 salt) u)) us)
          else (WeakPassword msg_weak, us)
        else (InvalidOrExpiredCode, us)
    | None => (InvalidOrExpiredCode, us)
    end.
Proof.
  intros He Hc Hn. unfold resetPassword, try_catch, resetPassword_body, codeMatches.
  run_handler. rewrite (nonempty_Some e He), (nonempty_Some code Hc),
    (nonempty_Some new Hn).
  run_handler. destruct (findOne_email (Some e) us) as [u|]; [|done].
  case_bool_decide; simpl; [|done].
  destruct (resetCodeExpiry u) as [x|]; [|done].
  destruct (x <? now); simpl; [done|].
  by destruct (passwordRegex_test new).
Qed.

Lemma forgotPassword_store (random : Q) (now : Z) (e : string)
    (us : list User) (u : User) :
  e ≠ "" → findOne_email (Some e) us = Some u →
  (forgotPassword random now (Some e) us).2
  = save_user (set_reset (Some (sha256_hex (generateResetCode random)))
                         (Some (now + 10 * 60 * 1000)) u) us.
Proof.
  intros He Hu. unfold forgotPassword, try_catch, forgotPassword_body.
  run_handler. rewrite (nonempty_Some e He). run_handler. rewrite Hu.
  run_handler. by destruct (sendEmail _ _ _).
Qed.

(** X9. A reset code is good for one reset: with the stored code, before
    its expiry and with a new password that meets the policy, Reset
    Password stores the new hash, clears code and expiry and leaves the
    refresh token alone; after that no code at all is accepted for the
    user, by verify-code or by reset-password, until a new one is
    requested. *)
Theorem resetPassword_single_use (salt : string) (now expiry : Z)
    (e code new : string) (us : list User) (u : User) :
  e ≠ "" → code ≠ "" → new ≠ "" →
  findOne_email (Some e) us = Some u →
  resetCode u = Some (sha256_hex code) →
  resetCodeExpiry u = Some expiry → now <= expiry →
  passwordRegex_test new = true →
  let u' := set_reset None None (set_password (bcrypt_hash new 10 salt) u) in
  let us' := save_user u' us in
  resetPassword salt now
    {| rp_email := Some e; rp_code := Some code; rp_newPassword := Some new |} us
  = (mkResponse 200 (AuthMessage "Password reset successful"), us') ∧
  findOne_email (Some e) us' = Some u' ∧
  refreshToken u' = refreshToken u ∧ isActive u' = isActive u ∧
  (∀ t c, c ≠ "" →
     verifyCode t {| vc_email := Some e; vc_code := Some c |} us'
     = (InvalidOrExpiredCode, us')) ∧
  (∀ s t c n, c ≠ "" → n ≠ "" →
     resetPassword s t
       {| rp_email := Some e; rp_code := Some c; rp_newPassword := Some n |} us'
     = (InvalidOrExpiredCode, us')).
Proof.
  intros He Hc Hn Hu Hcode Hexp Hle Hpolicy u' us'.
  destruct (findOne_email_elem _ _ _ Hu) as [_ Hmail].
  assert (findOne_email (Some e) us' = Some u') as Hu'
    by by apply (findOne_email_save_user e us u).
  split; [|split; [done|split; [done|split; [done|split]]]].
  - rewrite (resetPassword_outcome salt now e code new us He Hc Hn), Hu.
    unfold codeMatches. rewrite Hcode, Hexp, bool_decide_true by done. simpl.
    destruct (Z.ltb_spec expiry now); [lia|]. simpl. by rewrite Hpolicy.
  - intros t c Hc'. by rewrite (verifyCode_outcome t e c us' He Hc'), Hu'.
  - intros s t c n Hc' Hn'.
    by rewrite (resetPassword_outcome s t e c n us' He Hc' Hn'), Hu'.
Qed.

(** X10. Reset Password tests the code before the password policy and
    tells an unknown e-mail from a wrong or expired code in no way: all
    three are answered invalid-or-expired-code whatever the new password;
    only with a matching code is a weak password answered WeakPassword.
    No answer other than 200 comes with a write. *)
Theorem resetPassword_code_before_policy (salt : string) (now : Z)
    (e code new : string) (us : list User) :
  e ≠ "" → code ≠ "" → new ≠ "" →
  let call := resetPassword salt now
                {| rp_email := Some e; rp_code := Some code;
                   rp_newPassword := Some new |} us in
  (codeMatches now code (findOne_email (Some e) us) = false →
   call = (InvalidOrExpiredCode, us)) ∧
  (codeMatches now code (findOne_email (Some e) us) = true →
   passwordRegex_test new = false → call = (WeakPassword msg_weak, us)) ∧
  (status call.1 ≠ 200 → call.2 = us).
Proof.
  intros He Hc Hn call. unfold call.
  rewrite (resetPassword_outcome salt now e code new us He Hc Hn).
  destruct (findOne_email (Some e) us) as [u|]; [|by repeat split].
  destruct (codeMatches now code (Some u)); [|by repeat split].
  destruct (passwordRegex_test new); by repeat split.
Qed.

(** X11. A second Forgot Password replaces the code of the first: the
    earlier code, if it differs, is no longer accepted, at any time, and
    the later one is accepted up to ten minutes after the second request.
    SHA-256 is taken to send different six-digit codes to different
    digests. *)
Theorem forgotPassword_supersedes (r1 r2 : Q) (now1 now2 : Z) (e : string)
    (us : list User) (u : User) :
  (0 <= r1)%Q → (r1 < 1)%Q → (0 <= r2)%Q → (r2 < 1)%Q →
  e ≠ "" → findOne_email (Some e) us = Some u →
  (∀ a b, six_digits a = true → six_digits b = true →
          sha256_hex a = sha256_hex b → a = b) →
  generateResetCode r1 ≠ generateResetCode r2 →
  let us1 := (forgotPassword r1 now1 (Some e) us).2 in
  let us2 := (forgotPassword r2 now2 (Some e) us1).2 in
  (∀ t, verifyCode t {| vc_email := Some e;
                        vc_code := Some (generateResetCode r1) |} us2
        = (InvalidOrExpiredCode, us2)) ∧
  (∀ t, t <= now2 + 10 * 60 * 1000 →
        verifyCode t {| vc_email := Some e;
                        vc_code := Some (generateResetCode r2) |} us2
        = (CodeVerified, us2)).
Proof.
  intros H1 H1' H2 H2' He Hu Hinj Hne us1 us2.
  pose proof (generateResetCode_six_digits r1 H1 H1') as Hc1.
  pose proof (generateResetCode_six_digits r2 H2 H2') as Hc2.
  destruct (findOne_email_elem _ _ _ Hu) as [_ Hmail].
  set (u1 := set_reset (Some (sha256_hex (generateResetCode r1)))
                       (Some (now1 + 10 * 60 * 1000)) u).
  assert (us1 = save_user u1 us) as Hus1 by by apply forgotPassword_store.
  assert (findOne_email (Some e) us1 = Some u1) as Hu1.
  { rewrite Hus1. by apply (findOne_email_save_user e us u). }
  set (u2 := set_reset (Some (sha256_hex (generateResetCode r2)))
                       (Some (now2 + 10 * 60 * 1000)) u1).
  assert (us2 = save_user u2 us1) as Hus2 by by apply forgotPassword_store.
  assert (findOne_email (Some e) us2 = Some u2) as Hu2.
  { rewrite Hus2. by apply (findOne_email_save_user e us1 u1). }
  split.
  - intros t. rewrite (verifyCode_outcome t e _ us2 He
                         (six_digits_nonempty _ Hc1)), Hu2.
    unfold codeMatches. simpl. rewrite bool_decide_false; [done|].
    intros [= Heq]. apply Hne. symmetry. by apply Hinj.
  - intros t Ht. rewrite (verifyCode_outcome t e _ us2 He
                            (six_digits_nonempty _ Hc2)), Hu2.
    unfold codeMatches. simpl. rewrite bool_decide_true by done. simpl.
    by destruct (Z.ltb_spec (now2 + 10 * 60 * 1000) t); [lia|].
Qed.

End ResetFacts.

(* --------------------------------------------------------------------- *)
(** *** Accounts: creation, blocking, deletion *)
(* --------------------------------------------------------------------- *)

Lemma unique_present_snoc (f : User → option string) (us : list User) (u : User) :
  unique_present f us →
  (∀ s, f u = Some s → ∀ v, v ∈ us → f v ≠ Some s) →
  unique_present f (us ++ [u]).
Proof.
  unfold unique_present. intros Hnd Hfresh. rewrite omap_app. simpl.
  destruct (f u) as [s|] eqn:Hs; simpl; [|by rewrite app_nil_r].
  apply NoDup_app. split; [done|]. split; [|apply NoDup_singleton].
  intros x Hx Hx'. apply list_elem_of_singleton in Hx' as ->.
  apply list_elem_of_omap in Hx as (v & Hv & Hfv).
  by apply (Hfresh s eq_refl v Hv).
Qed.

Lemma index_conflict_false (u : User) (us : list User) :
  index_conflict u us = false →
  (∀ s, email u = Some s → ∀ v, v ∈ us → email v ≠ Some s) ∧
  (∀ s, idCardNumber u = Some s → ∀ v, v ∈ us → idCardNumber v ≠ Some s).
Proof.
  unfold index_conflict. intros Hc.
  assert (∀ v, v ∈ us →
            (match email u with
             | Some e => bool_decide (email v = Some e)
             | None => false
             end
             || match idCardNumber u with
                | Some c => bool_decide (idCardNumber v = Some c)
                | None => false
                end) = false) as Hall.
  { intros v Hv. apply list_elem_of_In in Hv.
    destruct (_ || _) eqn:Hb; [|done].
    assert (existsb (fun v => match email u with
                              | Some e => bool_decide (email v = Some e)
                              | None => false
                              end
                              || match idCardNumber u with
                                 | Some c => bool_decide (idCardNumber v = Some c)
                                 | None => false
                                 end) us = true) as Hex
      by (apply existsb_exists; by exists v).
    by rewrite Hex in Hc. }
  split; intros s Hs v Hv Heq; specialize (Hall v Hv); rewrite Hs in Hall;
    apply orb_false_iff in Hall as [H1 H2].
  - by rewrite bool_decide_true in H1.
  - by rewrite bool_decide_true in H2.
Qed.

Lemma find_update_first {A} (P Q : A → bool) (f : A → A) (l : list A) (x : A) :
  List.find Q l = Some x → List.find P l = Some x → P (f x) = true →
  List.find P (update_first Q f l) = Some (f x).
Proof.
  intros HQ HP Hf. induction l as [|y rest IH]; [done|]. simpl in *.
  destruct (Q y) eqn:HQy.
  - injection HQ as ->. simpl. by rewrite Hf.
  - simpl. destruct (P y) eqn:HPy; [|by apply IH].
    injection HP as ->. apply find_some in HQ as [_ HQx]. congruence.
Qed.

Lemma find_salesman (id : string) (us : list User) (u : User) :
  List.find (fun v => String.eqb (user_id v) id) us = Some u →
  role u = "salesman" →
  List.find (is_salesman_with_id id) us = Some u.
Proof.
  intros Hfind Hrole. induction us as [|v rest IH]; [done|]. simpl in *.
  unfold is_salesman_with_id at 1.
  destruct (String.eqb (user_id v) id) eqn:Hv; simpl.
  - injection Hfind as ->. by rewrite Hrole.
  - by apply IH.
Qed.

Lemma update_first_undo {A} (Q : A → bool) (f g : A → A) (l : list A) (x : A) :
  List.find Q l = Some x → Q (f x) = true → g (f x) = x →
  update_first Q g (update_first Q f l) = l.
Proof.
  intros HQ Hf Hg. induction l as [|y rest IH]; [done|]. simpl in *.
  destruct (Q y) eqn:HQy.
  - injection HQ as ->. simpl. by rewrite Hf, Hg.
  - simpl. rewrite HQy. f_equal. by apply IH.
Qed.

Lemma find_delete_first_unique (id : string) (us : list User) :
  NoDup (user_id <$> us) →
  List.find (fun v => String.eqb (user_id v) id)
            (delete_first (is_salesman_with_id id) us)
  = match List.find (is_salesman_with_id id) us with
    | Some _ => None
    | None => List.find (fun v => String.eqb (user_id v) id) us
    end.
Proof.
  intros Hnd. induction us as [|v rest IH]; [done|]. simpl in *.
  apply NoDup_cons in Hnd as [Hv Hnd]. unfold is_salesman_with_id at 1 3.
  destruct (String.eqb_spec (user_id v) id) as [Hid|Hid]; simpl.
  - assert (List.find (fun w => String.eqb (user_id w) id) rest = None) as Hnone.
    { destruct (List.find (fun w => String.eqb (user_id w) id) rest)
        as [w|] eqn:Hw; [|done].
      apply find_some in Hw as [Hin Hwid]. apply String.eqb_eq in Hwid.
      destruct Hv. rewrite Hid, <- Hwid. apply list_elem_of_fmap.
      exists w. split; [done|]. by apply list_elem_of_In. }
    destruct (String.eqb (role v) "salesman"); simpl; [done|].
    destruct (String.eqb_spec (user_id v) id); [|done].
    destruct (List.find (is_salesman_with_id id) rest) as [w|] eqn:Hw; [|done].
    apply find_some in Hw as [Hin [Hwid _]%andb_true_iff].
    assert (List.find (fun w => String.eqb (user_id w) id) rest ≠ None); [|done].
    intros Hn. eapply find_none in Hn; [|exact Hin]. simpl in Hn. congruence.
  - destruct (String.eqb_spec (user_id v) id); [done|]. by apply IH.
Qed.

Section AccountFacts.
Context {E : Externals}.

Lemma createSalesman_cases (new_id salt : string) (b : option SalesmanReq)
    (us us' : list User) (resp : Response AuthBody) :
  createSalesman new_id salt b us = (resp, us') →
  (us' = us ∧ status resp ≠ 201) ∨
  (∃ u, status resp = 201 ∧ us' = us ++ [u] ∧ index_conflict u us = false ∧
        user_id u = new_id ∧ role u = "salesman" ∧ isActive u = true ∧
        refreshToken u = None ∧ is_Some (idCardNumber u)).
Proof.
  unfold createSalesman, try_catch, createSalesman_body. run_handler.
  destruct b as [b|]; run_handler; [|intros [= <- <-]; by left].
  destruct (nonempty (sm_name b)); run_handler; [|intros [= <- <-]; by left].
  destruct (nonempty (sm_phone b)); run_handler; [|intros [= <- <-]; by left].
  destruct (nonempty (sm_address b)); run_handler; [|intros [= <- <-]; by left].
  destruct (nonempty (sm_password b)); run_handler; [|intros [= <- <-]; by left].
  destruct (nonempty (sm_idCardNumber b)); run_handler;
    [|intros [= <- <-]; by left].
  destruct (existsb _ us); run_handler; [intros [= <- <-]; by left|].
  match goal with
  | |- context [index_conflict ?u us] =>
      destruct (index_conflict u us) eqn:Hc; run_handler
  end; [intros [= <- <-]; by left|].
  intros [= <- <-]. right. eexists.
  do 7 (split; [done|]). by eexists.
Qed.

(** X12. Creating a salesman keeps e-mails and id card numbers unique
    among the users, and adds nothing or exactly one user, who is an
    active salesman with the given id; no admin is ever created here. *)
Theorem createSalesman_keeps_unique (new_id salt : string) (b : option SalesmanReq)
    (us us' : list User) (resp : Response AuthBody) :
  createSalesman new_id salt b us = (resp, us') →
  unique_present email us → unique_present idCardNumber us →
  unique_present email us' ∧ unique_present idCardNumber us' ∧
  ((us' = us ∧ status resp ≠ 201) ∨
   (status resp = 201 ∧ ∃ u, us' = us ++ [u] ∧ user_id u = new_id ∧
                             role u = "salesman" ∧ isActive u = true)).
Proof.
  intros Hrun Hmail Hcard.
  destruct (createSalesman_cases _ _ _ _ _ _ Hrun)
    as [[-> Hst]|(u & Hst & -> & Hc & Hid & Hrole & Hact & _)].
  - split; [done|]. split; [done|]. by left.
  - apply index_conflict_false in Hc as [Hm Hi].
    split; [by apply unique_present_snoc|].
    split; [by apply unique_present_snoc|]. right. split; [done|]. by exists u.
Qed.

(** X13. Signup keeps e-mails and id card numbers unique among the
    users: the e-mail it stores was looked up and found free, and it
    stores no id card number. *)
Theorem signup_keeps_unique (new_id salt : string) (b : option SignupReq)
    (us us' : list User) (resp : Response AuthBody) :
  signup new_id salt b us = (resp, us') →
  unique_present email us → unique_present idCardNumber us →
  unique_present email us' ∧ unique_present idCardNumber us'.
Proof.
  unfold signup, try_catch, signup_body. intros Hrun Hmail Hcard. revert Hrun.
  run_handler.
  destruct b as [b|]; run_handler; [|by intros [= <- <-]].
  destruct (nonempty (su_name b)); run_handler; [|by intros [= <- <-]].
  destruct (nonempty (su_phone b)); run_handler; [|by intros [= <- <-]].
  destruct (nonempty (su_address b)); run_handler; [|by intros [= <- <-]].
  destruct (nonempty (su_password b)); run_handler; [|by intros [= <- <-]].
  destruct (passwordRegex_test _); run_handler; [|by intros [= <- <-]].
  case_bool_decide as Hfree; run_handler; intros [= <- <-]; [done|].
  split; apply unique_present_snoc; try done; simpl.
  intros e He v Hv Hve. apply Hfree.
  destruct (findOne_email (su_email b) us) as [w|] eqn:Hw; [by eexists|].
  unfold findOne_email in Hw. apply list_elem_of_In in Hv.
  eapply find_none in Hw; [|exact Hv]. simpl in Hw.
  rewrite He, bool_decide_true in Hw; done.
Qed.

(** X14. Creating a salesman applies no password policy: with the
    required fields present and id card number and e-mail free, every
    non-empty password is accepted, and what is stored is its bcrypt
    hash. *)
Theorem createSalesman_any_password (new_id salt : string) (b : SalesmanReq)
    (us : list User) (n p a pw c : string) :
  nonempty (sm_name b) = Some n → nonempty (sm_phone b) = Some p →
  nonempty (sm_address b) = Some a → nonempty (sm_password b) = Some pw →
  nonempty (sm_idCardNumber b) = Some c →
  (∀ v, v ∈ us → idCardNumber v ≠ Some c) →
  (∀ e, sm_email b = Some e → ∀ v, v ∈ us → email v ≠ Some e) →
  ∃ u, createSalesman new_id salt (Some b) us
       = (mkResponse 201 (UserCreated "Salesman created successfully" u),
          us ++ [u])
       ∧ role u = "salesman" ∧ password u = bcrypt_hash pw 10 salt
       ∧ idCardNumber u = Some c ∧ email u = sm_email b.
Proof.
  intros Hn Hp Ha Hpw Hc Hcard Hmail.
  unfold createSalesman, try_catch, createSalesman_body. run_handler.
  rewrite Hn, Hp, Ha, Hpw, Hc. run_handler.
  assert (existsb (fun u => bool_decide (idCardNumber u = Some c)) us = false)
    as ->.
  { destruct (existsb _ us) eqn:Hex; [|done].
    apply existsb_exists in Hex as (v & Hv & Hvc).
    apply bool_decide_eq_true in Hvc. apply list_elem_of_In in Hv.
    by destruct (Hcard v Hv). }
  run_handler.
  match goal with
  | |- context [index_conflict ?u us] =>
      assert (index_conflict u us = false) as ->
  end.
  { unfold index_conflict. simpl.
    match goal with |- ?x = false => destruct x eqn:Hex; [|done] end.
    apply existsb_exists in Hex as (v & Hv & Hb). apply list_elem_of_In in Hv.
    apply orb_true_iff in Hb as [Hb|Hb].
    - destruct (sm_email b) as [e|] eqn:He; [|done].
      apply bool_decide_eq_true in Hb. by destruct (Hmail e eq_refl v Hv).
    - apply bool_decide_eq_true in Hb. by destruct (Hcard v Hv). }
  run_handler. by eexists.
Qed.

(** X25. Blocking a salesman sets the flag of that user and nothing
    else. From then on a login with the user's e-mail is answered
    account-blocked for every password, and the resolving middleware
    answers account-blocked to the user's tokens; the stored refresh
    token is not touched, so refresh still answers a new access token.
    Activating the user again restores the users as they were. *)
Theorem blocked_salesman_locked_out (id : string) (us : list User) (u : User) :
  findUserById id us = Some (Some u) →
  role u = "salesman" → isActive u = true →
  let u' := set_isActive false u in
  let us' := update_first (is_salesman_with_id id) (set_isActive false) us in
  setSalesmanStatus id (Some false) us
  = (mkResponse 200 (UserCreated "Salesman has been blocked" u'), us') ∧
  findUserById id us' = Some (Some u') ∧
  (∀ now e pw, e ≠ "" → pw ≠ "" → findOne_email (Some e) us = Some u →
     login now (Some {| li_email := Some e; li_password := Some pw |}) us'
     = (LoginBlocked, us')) ∧
  (∀ now req h token decoded,
     authorization req = Some h → String.prefix "Bearer " h = true →
     bearer_token h = Some token →
     jwt_verify token ACCESS_TOKEN_SECRET now = Some decoded →
     tok_id decoded = id →
     verifyAccessToken_resolving now us' req = Respond AccountBlocked) ∧
  (∀ now t p, t ≠ "" → findOne_refreshToken t us = Some u →
     jwt_verify t REFRESH_TOKEN_SECRET now = Some p →
     refresh now (Some (Some t)) us'
     = (mkResponse 200 (AccessToken (generateAccessToken now u')), us')) ∧
  setSalesmanStatus id (Some true) us' = (mkResponse 200
     (UserCreated "Salesman has been activated" u), us).
Proof.
  intros Hfound Hrole Hact u' us'. unfold findUserById in Hfound |- *.
  destruct (ObjectId_isValid id) eqn:Hcast; [|done].
  injection Hfound as Hu.
  pose proof (find_salesman id us u Hu Hrole) as Hs.
  assert (is_salesman_with_id id u' = true) as Hs'.
  { apply find_some in Hs as [_ Hs]. exact Hs. }
  assert (List.find (fun v => String.eqb (user_id v) id) us' = Some u') as Hu'.
  { apply (find_update_first _ _ (set_isActive false) us u); [done|done|].
    by apply andb_true_iff in Hs' as [? _]. }
  assert (List.find (is_salesman_with_id id) us' = Some u') as Hsu'.
  { by apply (find_update_first _ _ (set_isActive false) us u). }
  split; [|split; [|split; [|split; [|split]]]].
  - unfold setSalesmanStatus, try_catch, setSalesmanStatus_body. run_handler.
    rewrite Hcast. run_handler. by rewrite Hs.
  - by rewrite Hu'.
  - intros now e pw He Hpw Hmail.
    rewrite (login_outcome now e pw us' He Hpw).
    unfold findOne_email in *.
    unfold us'. rewrite (find_update_first _ _ (set_isActive false) us u Hs Hmail); [done|].
    apply find_some in Hmail as [_ Hm]. exact Hm.
  - intros now req h token decoded Hh Hp Ht Hv Hid.
    unfold verifyAccessToken_resolving, findUserById.
    assert (nonempty (authorization req) = Some h) as ->.
    { apply nonempty_Some_inv. split; [done|]. by intros ->. }
    by rewrite Hp, Ht, Hv, Hid, Hcast, Hu'.
  - intros now t p Ht Htok Hv. rewrite (refresh_outcome now t us' Ht).
    unfold findOne_refreshToken in *.
    unfold us'. rewrite (find_update_first _ _ (set_isActive false) us u Hs Htok);
      [by rewrite Hv|].
    apply find_some in Htok as [_ Hm]. exact Hm.
  - unfold setSalesmanStatus, try_catch, setSalesmanStatus_body. run_handler.
    rewrite Hcast. run_handler. rewrite Hsu'. run_handler.
    assert (set_isActive true u' = u) as Hback.
    { destruct u. simpl in *. by rewrite Hact. }
    rewrite Hback. f_equal.
    by apply (update_first_undo _ (set_isActive false) _ us u).
Qed.

(** X26. The salesman routes never touch an admin: for the id of a user
    whose role is not salesman, blocking, activating and deleting are all
    answered 404 and write nothing (user ids being unique). After a
    salesman has been deleted, the users hold nobody under that id, so
    the resolving middleware answers user-not-found to that user's
    tokens. *)
Theorem salesman_routes_by_role (id : string) (us : list User) (u : User) :
  NoDup (user_id <$> us) →
  findUserById id us = Some (Some u) →
  (role u ≠ "salesman" →
   (∀ flag, setSalesmanStatus id (Some flag) us
            = (mkResponse 404 (AuthMessage "Salesman not found"), us)) ∧
   deleteSalesman id us
   = (mkResponse 404 (AuthMessage "Salesman not found"), us)) ∧
  (role u = "salesman" →
   ∃ us', deleteSalesman id us
          = (mkResponse 200 (AuthMessage "Salesman deleted successfully"), us') ∧
          findUserById id us' = Some None ∧
          (∀ now req h token decoded,
             authorization req = Some h → String.prefix "Bearer " h = true →
             bearer_token h = Some token →
             jwt_verify token ACCESS_TOKEN_SECRET now = Some decoded →
             tok_id decoded = id →
             verifyAccessToken_resolving now us' req = Respond UserNotFound)).
Proof.
  unfold findUserById. destruct (ObjectId_isValid id) eqn:Hcast; [|done].
  intros Hnd [= Hu]. split.
  - intros Hrole.
    assert (List.find (is_salesman_with_id id) us = None) as Hnone.
    { destruct (List.find (is_salesman_with_id id) us) as [w|] eqn:Hw; [|done].
      apply find_some in Hw as [Hin [Hwid Hwr]%andb_true_iff].
      apply String.eqb_eq in Hwid, Hwr.
      assert (w = u) as ->; [|done].
      apply find_some in Hu as [Hin' Huid]. apply String.eqb_eq in Huid.
      apply list_elem_of_In in Hin, Hin'.
      apply list_elem_of_lookup in Hin as [i Hi].
      apply list_elem_of_lookup in Hin' as [j Hj].
      assert (i = j) as ->.
      { apply (NoDup_lookup (user_id <$> us) i j id Hnd);
          rewrite list_lookup_fmap; [by rewrite Hi; simpl; rewrite Hwid
                                    |by rewrite Hj; simpl; rewrite Huid]. }
      congruence. }
    split.
    + intros flag. unfold setSalesmanStatus, try_catch, setSalesmanStatus_body.
      run_handler. rewrite Hcast. run_handler. by rewrite Hnone.
    + unfold deleteSalesman, try_catch, deleteSalesman_body.
      run_handler. rewrite Hcast. run_handler. by rewrite Hnone.
  - intros Hrole. pose proof (find_salesman id us u Hu Hrole) as Hs.
    eexists. split.
    { unfold deleteSalesman, try_catch, deleteSalesman_body.
      run_handler. rewrite Hcast. run_handler. rewrite Hs. run_handler.
      reflexivity. }
    assert (List.find (fun v => String.eqb (user_id v) id)
              (delete_first (is_salesman_with_id id) us) = None) as Hgone.
    { by rewrite (find_delete_first_unique id us Hnd), Hs. }
    split; [by rewrite Hgone|].
    intros now req h token decoded Hh Hp Ht Hv Hid.
    unfold verifyAccessToken_resolving, findUserById.
    assert (nonempty (authorization req) = Some h) as ->.
    { apply nonempty_Some_inv. split; [done|]. by intros ->. }
    by rewrite Hp, Ht, Hv, Hid, Hcast, Hgone.
Qed.

End AccountFacts.

(* --------------------------------------------------------------------- *)
(** *** The further properties at work on the examples *)
(* --------------------------------------------------------------------- *)

Lemma bearer_token_extracts_witness :
  bearer_token "Bearer token-of-e1" = Some "token-of-e1" ∧
  bearer_token "Bearer token-of-e1 trailing" = Some "token-of-e1".
Proof.
  exact (proj2 (bearer_token_extracts "token-of-e1" "trailing" eq_refl)).
Defined.

Lemma salesman_denied_admin_routes_witness :
  through (@verifyAccessToken_resolving demo 0 [demo_user true]) ["admin"]
          demo_request
  = Respond AccessDenied.
Proof.
  exact (proj1 (@salesman_denied_admin_routes demo 0 [demo_user true]
                  demo_request "Bearer token-of-e1" "token-of-e1"
                  {| tok_id := uid1; tok_role := Some "salesman" |}
                  (demo_user true)
                  eq_refl eq_refl eq_refl eq_refl eq_refl eq_refl eq_refl)).
Defined.

Lemma login_issues_tokens_witness :
  let rt := @generateRefreshToken demo 0 (demo_user true) in
  let u' := set_refreshToken (Some rt) (demo_user true) in
  @login demo 0 (Some {| li_email := Some "ali@example.com";
                         li_password := Some "5271Alr@x" |}) [demo_user true]
  = (mkResponse 200 (Tokens (@generateAccessToken demo 0 (demo_user true)) rt),
     [u']).
Proof.
  destruct (@login_issues_tokens demo 0 "ali@example.com" "5271Alr@x"
              [demo_user true] (demo_user true))
    as [Hrun _];
    [discriminate|discriminate|reflexivity|reflexivity|reflexivity|].
  exact Hrun.
Defined.

Lemma relogin_revokes_previous_token_witness :
  let us' := (@login demo 0 (Some {| li_email := Some "ali@example.com";
                                     li_password := Some "5271Alr@x" |})
                [demo_user true]).2 in
  @refresh demo 5 (Some (Some "refresh-of-e1")) us' = (InvalidRefreshToken, us').
Proof.
  apply (@relogin_revokes_previous_token demo 0 5 "ali@example.com" "5271Alr@x"
           "refresh-of-e1" [demo_user true] (demo_user true));
    [discriminate|discriminate|reflexivity|reflexivity|reflexivity
    |discriminate|discriminate|].
  intros v Hv _. apply list_elem_of_singleton in Hv. by rewrite Hv.
Defined.

Lemma login_failures_alike_witness :
  @login demo 0 (Some {| li_email := Some "ali@example.com";
                         li_password := Some "guess" |}) [demo_user true]
  = (InvalidCredentials, [demo_user true]).
Proof.
  apply (@login_failures_alike demo 0 "ali@example.com" "guess" [demo_user true]);
    [discriminate|discriminate|split; reflexivity].
Defined.

Lemma logout_revokes_witness :
  let us' := [set_refreshToken None (demo_user true)] in
  logout (Some "refresh-of-e1") [demo_user true]
  = (mkResponse 200 (LoggedOut "Logged out successfully"), us') ∧
  @refresh demo 0 (Some (Some "refresh-of-e1")) us' = (InvalidRefreshToken, us') ∧
  logout (Some "refresh-of-e1") us' = (mkResponse 204 NoContent, us').
Proof.
  apply (@logout_revokes demo 0 "refresh-of-e1" [demo_user true] (demo_user true));
    [discriminate|reflexivity|].
  intros v Hv _. apply list_elem_of_singleton in Hv. by rewrite Hv.
Defined.

Lemma resetPassword_single_use_witness :
  let u' := set_reset None None
              (set_password (@bcrypt_hash demo "N3w-passw0rd" 10 "salt")
                            demo_user_with_code) in
  @resetPassword demo "salt" 5000
    {| rp_email := Some "ali@example.com"; rp_code := Some "550000";
       rp_newPassword := Some "N3w-passw0rd" |} [demo_user_with_code]
  = (mkResponse 200 (AuthMessage "Password reset successful"), [u']) ∧
  @verifyCode demo 5001 {| vc_email := Some "ali@example.com";
                           vc_code := Some "550000" |} [u']
  = (InvalidOrExpiredCode, [u']).
Proof.
  destruct (@resetPassword_single_use demo "salt" 5000 601000 "ali@example.com"
              "550000" "N3w-passw0rd" [demo_user_with_code] demo_user_with_code)
    as (Hrun & _ & _ & _ & Hverify & _);
    [discriminate|discriminate|discriminate|reflexivity|reflexivity|reflexivity
    |lia|reflexivity|].
  split; [exact Hrun|]. apply Hverify. discriminate.
Defined.

Lemma resetPassword_code_before_policy_witness :
  @resetPassword demo "salt" 5000
    {| rp_email := Some "ali@example.com"; rp_code := Some "550001";
       rp_newPassword := Some "weak" |} [demo_user_with_code]
  = (InvalidOrExpiredCode, [demo_user_with_code]) ∧
  @resetPassword demo "salt" 5000
    {| rp_email := Some "ali@example.com"; rp_code := Some "550000";
       rp_newPassword := Some "weak" |} [demo_user_with_code]
  = (WeakPassword msg_weak, [demo_user_with_code]).
Proof.
  split.
  - apply (proj1 (@resetPassword_code_before_policy demo "salt" 5000
                    "ali@example.com" "550001" "weak" [demo_user_with_code]
                    ltac:(discriminate) ltac:(discriminate) ltac:(discriminate))).
    reflexivity.
  - apply (proj1 (proj2 (@resetPassword_code_before_policy demo "salt" 5000
                    "ali@example.com" "550000" "weak" [demo_user_with_code]
                    ltac:(discriminate) ltac:(discriminate) ltac:(discriminate))));
      reflexivity.
Defined.

Lemma forgotPassword_supersedes_witness :
  let us1 := (@forgotPassword demo (1 # 2) 1000 (Some "ali@example.com")
                [demo_user true]).2 in
  let us2 := (@forgotPassword demo (1 # 4) 2000 (Some "ali@example.com") us1).2 in
  @verifyCode demo 3000 {| vc_email := Some "ali@example.com";
                           vc_code := Some (generateResetCode (1 # 2)) |} us2
  = (InvalidOrExpiredCode, us2) ∧
  @verifyCode demo 3000 {| vc_email := Some "ali@example.com";
                           vc_code := Some (generateResetCode (1 # 4)) |} us2
  = (CodeVerified, us2).
Proof.
  destruct (@forgotPassword_supersedes demo (1 # 2) (1 # 4) 1000 2000
              "ali@example.com" [demo_user true] (demo_user true))
    as (Hold & Hnew).
  - discriminate.
  - reflexivity.
  - discriminate.
  - reflexivity.
  - discriminate.
  - reflexivity.
  - intros a b _ _. apply demo_sha256_injective.
  - discriminate.
  - split; [apply Hold|apply Hnew; lia].
Defined.

Lemma createSalesman_keeps_unique_witness :
  let run := @createSalesman demo uid2 "salt" (Some demo_salesman_req)
               [demo_user true] in
  unique_present email run.2 ∧ unique_present idCardNumber run.2.
Proof.
  destruct (@createSalesman_keeps_unique demo uid2 "salt" (Some demo_salesman_req)
              [demo_user true]
              (@createSalesman demo uid2 "salt" (Some demo_salesman_req)
                 [demo_user true]).2
              (@createSalesman demo uid2 "salt" (Some demo_salesman_req)
                 [demo_user true]).1)
    as (Hmail & Hcard & _).
  - apply surjective_pairing.
  - apply NoDup_singleton.
  - apply NoDup_nil_2.
  - exact (conj Hmail Hcard).
Defined.

Lemma signup_keeps_unique_witness :
  let run := @signup demo uid2 "salt" (Some demo_signup) [demo_user true] in
  unique_present email run.2 ∧ unique_present idCardNumber run.2.
Proof.
  apply (@signup_keeps_unique demo uid2 "salt" (Some demo_signup) [demo_user true]
           (@signup demo uid2 "salt" (Some demo_signup) [demo_user true]).2
           (@signup demo uid2 "salt" (Some demo_signup) [demo_user true]).1).
  - apply surjective_pairing.
  - apply NoDup_singleton.
  - apply NoDup_nil_2.
Defined.

Lemma createSalesman_any_password_witness :
  ∃ u, @createSalesman demo uid2 "salt" (Some demo_salesman_req) [demo_user true]
       = (mkResponse 201 (UserCreated "Salesman created successfully" u),
          [demo_user true; u])
       ∧ role u = "salesman" ∧ password u = @bcrypt_hash demo "x" 10 "salt"
       ∧ idCardNumber u = Some "35202-1" ∧ email u = Some "bilal@example.com".
Proof.
  apply (@createSalesman_any_password demo uid2 "salt" demo_salesman_req
           [demo_user true] "Bilal" "2345674" "okara" "x" "35202-1");
    try reflexivity.
  - intros v Hv. apply list_elem_of_singleton in Hv. by rewrite Hv.
  - intros e [= <-] v Hv. apply list_elem_of_singleton in Hv. by rewrite Hv.
Defined.

Lemma placeOrder_frame_witness :
  users demo_placed.2 = users demo_db ∧ shops demo_placed.2 = shops demo_db ∧
  (∀ pid, (fun p => (item_name p, categoryType p, @price Exact p))
            <$> items demo_placed.2 !! pid
          = (fun p => (item_name p, categoryType p, @price Exact p))
            <$> items demo_db !! pid) ∧
  (status demo_placed.1 ≠ 201 → orders demo_placed.2 = orders demo_db) ∧
  (status demo_placed.1 = 201 →
   ∃ o, orders demo_placed.2 = <[oid1 := o]> (orders demo_db)).
Proof.
  apply (@placeOrder_frame Exact demo oid1 uid1 demo_double_order demo_db
           demo_placed.2 demo_placed.1).
  - reflexivity.
  - apply surjective_pairing.
Defined.

Lemma placeOrder_rejected_early_witness :
  (@placeOrder Exact demo oid1 uid1 demo_shopless_order demo_db).2 = demo_db
  ∧ status (@placeOrder Exact demo oid1 uid1 demo_shopless_order demo_db).1 ≠ 201.
Proof.
  apply (@placeOrder_rejected_early Exact demo oid1 uid1 demo_shopless_order
           demo_db).
  intros lines (sid & ptype & amount & shp & Hshop & _). discriminate Hshop.
Defined.

Lemma placeOrder_stock_not_negative_witness :
  status frac_short.1 = 400 ∧
  ∃ prod, items frac_short.2 !! pid1 = Some prod ∧
          quantity prod = 0x1.1cccccccccccdp+3%float ∧
          @jlt Binary64 (quantity prod) (@jzero Binary64) = false.
Proof.
  split; [by vm_compute|].
  destruct (items frac_short.2 !! pid1) as [prod|] eqn:Hp;
    [|by vm_compute in Hp].
  exists prod. split; [done|]. split; [vm_compute in Hp; by injection Hp as <-|].
  apply (@placeOrder_stock_not_negative Binary64 demo oid1 uid1
           (frac_order [frac_line 0x1.199999999999ap+0; frac_line 20])
           frac_db frac_short.2 frac_short.1 Binary64_sub_guarded eq_refl
           (surjective_pairing _)) with (pid := pid1); [|exact Hp].
  intros pid it Hit. cbn [items frac_db] in Hit.
  apply lookup_singleton_Some in Hit as [_ <-]. by vm_compute.
Defined.

Lemma placeOrder_order_valid_witness :
  ∃ o lines,
    orders demo_placed.2 !! oid1 = Some o ∧
    req_items demo_double_order = Some lines ∧
    orderLines o ≠ [] ∧ length (orderLines o) = length lines ∧
    Forall (fun l => @jlt Exact (line_quantity l) 1 = false) (orderLines o) ∧
    (paymentTypeId o, paymentType o) ∈ PAYMENT_TYPES ∧
    @jlt Exact (paymentAmount o) 0 = false ∧
    @amountPaid Exact o = 0 ∧ salesman o = uid1 ∧
    ∃ shp, shops demo_db !! shop o = Some shp ∧ shop_isActive shp = true.
Proof.
  apply (@placeOrder_order_valid Exact demo oid1 uid1 demo_double_order demo_db
           demo_placed.2 demo_placed.1).
  - apply surjective_pairing.
  - reflexivity.
Defined.

Lemma demo_placed_orders (P : @Order Exact → Prop) :
  P (@mkOrder Exact sid1 uid1
       [@mkOrderLine Exact pid1 "P1" 3 100 300;
        @mkOrderLine Exact pid1 "P1" 2 100 200] 500 "half" 1 150 0) →
  ∀ id o, orders demo_placed.2 !! id = Some o → P o.
Proof.
  intros HP id o Ho. apply elem_of_map_to_list in Ho.
  change (map_to_list (orders demo_placed.2))
    with [(oid1, @mkOrder Exact sid1 uid1
                   [@mkOrderLine Exact pid1 "P1" 3 100 300;
                    @mkOrderLine Exact pid1 "P1" 2 100 200] 500 "half" 1 150 0)]
    in Ho.
  apply list_elem_of_singleton in Ho. by injection Ho as -> ->.
Qed.

Lemma recordPayment_within_total_witness :
  let run := @recordPayment Exact demo demo_strings oid1 (JNum 300) demo_placed.2 in
  ∃ o, orders run.2 !! oid1 = Some o ∧ @amountPaid Exact o = 300 ∧
       0 <= amountPaid o <= totalAmount o ∧
       users run.2 = users demo_placed.2 ∧ items run.2 = items demo_placed.2.
Proof.
  intros run.
  destruct (@recordPayment_within_total demo demo_strings oid1 (JNum 300) demo_placed.2
              run.2 run.1) as (Hall & Husers & _ & Hitems & _).
  - apply surjective_pairing.
  - apply demo_placed_orders. simpl. lia.
  - eexists. split; [reflexivity|]. split; [reflexivity|].
    split; [by apply (Hall oid1)|]. exact (conj Husers Hitems).
Defined.

Lemma disabled_shop_takes_no_orders_witness :
  ∃ db1,
    @setShopStatus Exact demo sid1 (Some false) demo_db
    = (mkResponse 200 (ShopWith "Shop has been disabled"
                                (set_shop_isActive false demo_shop)), db1) ∧
    @placeOrder Exact demo oid1 uid1 demo_double_order db1
    = (ShopInactive, db1) ∧
    (@setShopStatus Exact demo sid1 (Some true) db1).2 = demo_db.
Proof.
  destruct (@disabled_shop_takes_no_orders Exact demo sid1 demo_shop demo_db)
    as (db1 & Hrun & _ & _ & _ & _ & Hkeep & Hinactive & Hback).
  - reflexivity.
  - reflexivity.
  - exists db1. split; [exact Hrun|]. split; [|exact Hback].
    rewrite (surjective_pairing (placeOrder _ _ _ _)). f_equal.
    + apply (Hinactive oid1 uid1 demo_double_order
               [demo_line pid1 3; demo_line pid1 2] "half" 150);
        try reflexivity; [discriminate|apply list_elem_of_here].
    + apply (Hkeep oid1 uid1 demo_double_order). reflexivity.
Defined.

Lemma deleted_shop_takes_no_orders_witness :
  ∃ db1,
    @deleteShop Exact demo sid1 demo_db
    = (mkResponse 200 (ShopMessage "Shop deleted successfully"), db1) ∧
    @placeOrder Exact demo oid1 uid1 demo_double_order db1
    = (ShopNotFound, db1) ∧
    @deleteShop Exact demo sid1 db1
    = (mkResponse 404 (ShopMessage "Shop not found"), db1).
Proof.
  destruct (@deleted_shop_takes_no_orders Exact demo sid1 demo_shop demo_db)
    as (db1 & Hrun & _ & _ & _ & _ & _ & Hkeep & Hgone & Hagain).
  - reflexivity.
  - reflexivity.
  - exists db1. split; [exact Hrun|]. split; [|exact Hagain].
    rewrite (surjective_pairing (placeOrder _ _ _ _)). f_equal.
    + apply (Hgone oid1 uid1 demo_double_order
               [demo_line pid1 3; demo_line pid1 2] "half" 150);
        try reflexivity; [discriminate|apply list_elem_of_here].
    + apply (Hkeep oid1 uid1 demo_double_order). reflexivity.
Defined.

Lemma deleted_product_cannot_be_ordered_witness :
  ∃ db1,
    @deleteProduct Exact demo pid1 demo_db
    = (mkResponse 200 (Message "Product deleted successfully"), db1) ∧
    items db1 = delete pid1 (items demo_db) ∧
    @deleteProduct Exact demo pid1 db1
    = (mkResponse 404 (Message "Product not found"), db1).
Proof.
  destruct (@deleted_product_cannot_be_ordered Exact demo pid1
              (@mkItem Exact "P1" "cat" 100 10) demo_db)
    as (db1 & Hrun & Hitems & _ & _ & _ & _ & Hagain).
  - reflexivity.
  - discriminate.
  - reflexivity.
  - exists db1. exact (conj Hrun (conj Hitems Hagain)).
Defined.

Lemma blocked_salesman_locked_out_witness :
  let us' := (@setSalesmanStatus demo uid1 (Some false) [demo_user true]).2 in
  @login demo 0 (Some {| li_email := Some "ali@example.com";
                         li_password := Some "5271Alr@x" |}) us'
  = (LoginBlocked, us') ∧
  @verifyAccessToken_resolving demo 0 us' demo_request = Respond AccountBlocked ∧
  (@setSalesmanStatus demo uid1 (Some true) us').2 = [demo_user true].
Proof.
  destruct (@blocked_salesman_locked_out demo uid1 [demo_user true]
              (demo_user true) eq_refl eq_refl eq_refl)
    as (_ & _ & Hlogin & Hgate & _ & Hback).
  split; [|split].
  - apply (Hlogin 0 "ali@example.com" "5271Alr@x");
      [discriminate|discriminate|reflexivity].
  - apply (Hgate 0 demo_request "Bearer token-of-e1" "token-of-e1"
             {| tok_id := uid1; tok_role := Some "salesman" |});
      reflexivity.
  - exact (f_equal snd Hback).
Defined.

Lemma salesman_routes_by_role_witness :
  @deleteSalesman demo uid2 [demo_admin; demo_user true]
  = (mkResponse 404 (AuthMessage "Salesman not found"),
     [demo_admin; demo_user true]) ∧
  @setSalesmanStatus demo uid2 (Some false) [demo_admin; demo_user true]
  = (mkResponse 404 (AuthMessage "Salesman not found"),
     [demo_admin; demo_user true]).
Proof.
  destruct (@salesman_routes_by_role demo uid2 [demo_admin; demo_user true]
              demo_admin) as [Hadmin _].
  - apply NoDup_cons. split; [|apply NoDup_singleton].
    intros Hin. apply list_elem_of_singleton in Hin. discriminate Hin.
  - reflexivity.
  - destruct Hadmin as [Hstatus Hdelete]; [discriminate|].
    exact (conj Hdelete (Hstatus false)).
Defined.
